(** * grafana-monitor: the OCI inventory synchronizers

    A shallow embedding of the scripts under
    [grafana_python/instance_principal_v/].  Every script pulls one kind of
    cloud resource from the OCI API, labels it with a two-level compartment
    path, upserts it into a MySQL mirror table and finally deletes the rows
    it did not see during the run; insert_usage.py sums the cost items of
    one day per service before it stores them.

    Conventions of the embedding:
    - a MySQL table with a one-column PRIMARY/UNIQUE key is a [gmap] from
      that key to the remaining columns;
    - a Python [set] of ids is a [gset string];
    - a Python [dict] that the scripts iterate over is an insertion-ordered
      association list ([PyDict]), because the iteration order decides the
      order of the writes;
    - a remote call is a [response]: its payload, an
      [oci.exceptions.ServiceError] with its HTTP status, or some other
      exception;
    - timestamps are seconds since the epoch, in UTC; the [UTC_TIMESTAMP()]
      of a statement of instance_volume.py is evaluated by the server in
      that statement, so it is a function of the statement's number;
    - numbers that the scripts pass through as floats (OCPUs, sizes) are
      integers;
    - SQL compares strings as Rocq does (identifiers are taken in one
      canonical spelling, collations are not modelled);
    - the database is assumed to accept every statement (connection and
      constraint failures are not modelled). *)

From stdpp Require Import gmap strings list fin_maps sorting.
From Stdlib Require Import ZArith.

Open Scope string_scope.
Open Scope Z_scope.
Open Scope list_scope.

(** ** Remote calls *)

Inductive response (A : Type) : Type :=
| Ok (a : A)
| ServiceError (status : Z)
| OtherException.

Arguments Ok {A} a.
Arguments ServiceError {A} status.
Arguments OtherException {A}.

(** [op k] is what the script gets back from its [k]-th invocation (counted
    from 0) of one request during a run.  An invocation is one call that the
    script itself makes, to a client method or to
    [oci.pagination.list_call_get_all_results]; what the SDK does inside
    such a call is not code of the repository. *)
Definition operation (A : Type) : Type := nat → response A.

Definition always {A : Type} (r : response A) : operation A := λ _, r.

(** What a script leaves behind: it either runs to its last statement or
    dies on an uncaught exception.  The connections use [autocommit], so the
    database state survives in both cases. *)
Inductive outcome (S : Type) : Type :=
| Returned (s : S)
| Raised (s : S).

Arguments Returned {S} s.
Arguments Raised {S} s.

Definition final_state {S : Type} (o : outcome S) : S :=
  match o with Returned s | Raised s => s end.

Definition completed {S : Type} (o : outcome S) : bool :=
  match o with Returned _ => true | Raised _ => false end.

(** Sequencing of loop bodies: an exception leaves the loop. *)
Definition and_then {S : Type} (o : outcome S) (k : S → outcome S) : outcome S :=
  match o with
  | Returned s => k s
  | Raised s => Raised s
  end.

Fixpoint for_each {A S : Type} (body : A → S → outcome S) (l : list A) (s : S)
  : outcome S :=
  match l with
  | [] => Returned s
  | x :: l' => and_then (body x s) (for_each body l')
  end.

Definition datetime : Type := Z.

(** Python's [a or b] where [a] is an optional string: [b] replaces both
    [None] and the empty string. *)
Definition py_or (a : option string) (b : string) : string :=
  match a with
  | Some s => if decide (s = "") then b else s
  | None => b
  end.

(** ** Python dictionaries, in insertion order *)

Module PyDict.

Definition t (V : Type) : Type := list (string * V).

Fixpoint get {V : Type} (k : string) (d : t V) : option V :=
  match d with
  | [] => None
  | (k', v) :: d' => if decide (k = k') then Some v else get k d'
  end.

(** [d[k] = v]: an existing key keeps its position, a new key goes last. *)
Fixpoint set {V : Type} (k : string) (v : V) (d : t V) : t V :=
  match d with
  | [] => [(k, v)]
  | (k', v') :: d' =>
      if decide (k = k') then (k, v) :: d' else (k', v') :: set k v d'
  end.

Definition items {V : Type} (d : t V) : list (string * V) := d.

Definition keys {V : Type} (d : t V) : list string := d.*1.

(** Keys are unique in a dictionary. *)
Definition wf {V : Type} (d : t V) : Prop := NoDup (keys d).

End PyDict.

(** ** OCI identity objects *)

(** A compartment as [identity_client.list_compartments] returns it (and the
    stand-in some scripts build for the tenancy root).  [c_compartment_id]
    is the parent. *)
Record compartment : Type := {
  c_id : string;
  c_name : string;
  c_compartment_id : option string;
  c_lifecycle_state : string;
}.

Definition default_separator : string := " > ".

(** The body of the loop of every [build_compartment_paths] (adb_list.py
    191-202, instance_list.py 151-163, dbcs_list.py 198-209, lb_list.py
    144-154), for a compartment that is not special-cased:
    [parent_id is None or parent_id == root] gives "root > name", a parent
    found in [comp_map] gives "parent > name", anything else the bare
    name. *)
Definition two_level_path (comp_map : PyDict.t compartment)
    (root_id root_name separator : string) (c : compartment) : string :=
  match c_compartment_id c with
  | None => root_name +:+ separator +:+ c_name c
  | Some parent_id =>
      if decide (parent_id = root_id)
      then root_name +:+ separator +:+ c_name c
      else match PyDict.get parent_id comp_map with
           | Some parent => c_name parent +:+ separator +:+ c_name c
           | None => c_name c
           end
  end.

(** ** adb_list.py

    [main] (254-339) with its helpers [list_all_compartments] (165-176),
    [build_compartment_paths] (179-204), [upsert_adb_row] (209-249) and the
    statement [UPSERT_SQL] (91-125). *)

Module adb_list.

Record adb : Type := {
  id : string;
  display_name : option string;
  db_name : option string;
  db_workload : option string;
  lifecycle_state : option string;
  compute_count : option Z;
  cpu_core_count : option Z;
  data_storage_size_in_tbs : option Z;
  is_auto_scaling_enabled : bool;
  time_created : option datetime;
}.

(** The columns of [adb_inventory] other than the unique key [adb_ocid]
    (the surrogate AUTO_INCREMENT [id] carries no data and is left out). *)
Record row : Type := {
  tenancy_ocid : string;
  region : string;
  compartment_ocid : string;
  compartment_name : string;
  compartment_path : option string;
  r_display_name : string;
  r_db_name : string;
  workload : string;
  lifecycle : string;
  compute_type : string;
  r_compute_count : option Z;
  storage_gb : option Z;
  auto_scaling : Z;
  time_created_utc : option datetime;
  last_refreshed_utc : datetime;
}.

(** [adb_inventory], keyed by [adb_ocid]. *)
Abbreviation table := (gmap string row).

(** Module-level configuration: [tenancy_id], [region], [TENANCY_NAME]. *)
Record config : Type := {
  cfg_tenancy_id : string;
  cfg_region : string;
  cfg_tenancy_name : string;
}.

Definition to_dt (dt_obj : option datetime) : option datetime := dt_obj.

Definition list_all_compartments (response_data : list compartment)
  : list compartment :=
  filter (λ c, c_lifecycle_state c = "ACTIVE") response_data.

Definition comp_map_of (compartments : list compartment)
  : PyDict.t compartment :=
  fold_left (λ d c, PyDict.set (c_id c) c d) compartments [].

Definition build_compartment_paths (tenancy_name : string)
    (compartments : list compartment) (tenancy_id : string)
    (separator : string) : PyDict.t string :=
  let comp_map := comp_map_of compartments in
  fold_left
    (λ paths '(cid, c),
       PyDict.set cid (two_level_path comp_map tenancy_id tenancy_name separator c)
         paths)
    (PyDict.items comp_map) [].

(** [INSERT ... ON DUPLICATE KEY UPDATE]: the UPDATE list names every column
    of the row. *)
Definition UPSERT_SQL (adb_ocid : string) (new : row) (tbl : table) : table :=
  match tbl !! adb_ocid with
  | None => <[adb_ocid := new]> tbl
  | Some old =>
      <[adb_ocid := {|
          tenancy_ocid := tenancy_ocid new;
          region := region new;
          compartment_ocid := compartment_ocid new;
          compartment_name := compartment_name new;
          compartment_path := compartment_path new;
          r_display_name := r_display_name new;
          r_db_name := r_db_name new;
          workload := workload new;
          lifecycle := lifecycle new;
          compute_type := compute_type new;
          r_compute_count := r_compute_count new;
          storage_gb := storage_gb new;
          auto_scaling := auto_scaling new;
          time_created_utc := time_created_utc new;
          last_refreshed_utc := last_refreshed_utc new;
        |}]> tbl
  end.

(** The run state: the table and [seen_adb_ids]. *)
Definition state : Type := table * gset string.

Definition make_row (cfg : config) (a : adb) (comp : compartment)
    (comp_path : option string) (run_ts : datetime) : row :=
  let '(ctype, ccount) :=
    match compute_count a, cpu_core_count a with
    | Some ecpu, _ => ("ECPU", Some ecpu)
    | None, Some ocpu => ("OCPU", Some ocpu)
    | None, None => ("UNKNOWN", None)
    end in
  {| tenancy_ocid := cfg_tenancy_id cfg;
     region := cfg_region cfg;
     compartment_ocid := c_id comp;
     compartment_name := c_name comp;
     compartment_path := comp_path;
     r_display_name := py_or (display_name a) "";
     r_db_name := py_or (db_name a) "";
     workload := py_or (db_workload a) "UNKNOWN";
     lifecycle := py_or (lifecycle_state a) "UNKNOWN";
     compute_type := ctype;
     r_compute_count := ccount;
     storage_gb := (λ tbs, tbs * 1024) <$> data_storage_size_in_tbs a;
     auto_scaling := if is_auto_scaling_enabled a then 1 else 0;
     time_created_utc := to_dt (time_created a);
     last_refreshed_utc := run_ts |}.

Definition upsert_adb_row (cfg : config) (a : adb) (comp : compartment)
    (comp_path : option string) (run_ts : datetime) (st : state) : state :=
  (UPSERT_SQL (id a) (make_row cfg a comp comp_path run_ts) st.1,
   {[id a]} ∪ st.2).

(** One turn of [for comp in compartments]. *)
Definition collect_compartment (cfg : config)
    (list_autonomous_databases : string → operation (list adb))
    (comp_paths : PyDict.t string) (run_ts : datetime)
    (comp : compartment) (st : state) : outcome state :=
  let comp_path := PyDict.get (c_id comp) comp_paths in
  match list_autonomous_databases (c_id comp) 0%nat with
  | Ok [] => Returned st       (* if not adbs: continue *)
  | Ok adbs =>
      Returned (fold_left (λ s a, upsert_adb_row cfg a comp comp_path run_ts s)
                  adbs st)
  | ServiceError status =>
      if decide (status = 429)
      then Returned st          (* warning, sleep(3), continue *)
      else Raised st
  | OtherException => Raised st
  end.

(** [WHERE tenancy_ocid = %s AND region = %s] *)
Definition in_scope (cfg : config) (r : row) : Prop :=
  tenancy_ocid r = cfg_tenancy_id cfg ∧ region r = cfg_region cfg.

#[global] Instance in_scope_dec cfg r : Decision (in_scope cfg r).
Proof. unfold in_scope. apply _. Defined.

(** The final DELETE, in its two forms. *)
Definition sweep (cfg : config) (seen : gset string) (tbl : table) : table :=
  if decide (seen = ∅)
  then filter (λ kr, ¬ in_scope cfg kr.2) tbl
  else filter (λ kr, ¬ (in_scope cfg kr.2 ∧ kr.1 ∉ seen)) tbl.

(** [main()], from the point where the compartments have been listed
    ([response_data] is what [list_compartments] returned). *)
Definition main (cfg : config) (run_ts : datetime)
    (response_data : list compartment)
    (list_autonomous_databases : string → operation (list adb))
    (tbl : table) : outcome table :=
  let compartments := list_all_compartments response_data in
  let comp_paths :=
    build_compartment_paths (cfg_tenancy_name cfg) compartments
      (cfg_tenancy_id cfg) default_separator in
  match for_each
          (collect_compartment cfg list_autonomous_databases comp_paths run_ts)
          compartments (tbl, ∅) with
  | Returned (tbl', seen) => Returned (sweep cfg seen tbl')
  | Raised (tbl', _) => Raised tbl'
  end.

End adb_list.

(** ** instance_list.py

    [main] (258-366) with [load_compartments_with_root] (112-134),
    [build_compartment_paths] (140-165), [list_instances] (171-180),
    [get_vnic_and_ips] (186-214) and [upsert_instance] (220-252). *)

Module instance_list.

(** What [get_vnic_and_ips] needs from the network API for one instance:
    the VNIC attachments, and the VNIC behind the first of them. *)
Record vnic : Type := {
  private_ip : option string;
  public_ip : option string;
}.

Record instance : Type := {
  id : string;
  compartment_id : string;
  display_name : string;
  shape : string;
  shape_ocpus : option Z;
  shape_memory_in_gbs : option Z;
  lifecycle_state : string;
  availability_domain : option string;
  time_created : option datetime;
  vnic_attachments : response (list string);
  get_vnic : string → response vnic;
}.

(** The columns of [oci_instance_inventory] other than the primary key
    [instance_id]. *)
Record row : Type := {
  tenancy_ocid : string;
  region : string;
  r_compartment_id : string;
  compartment_name : option string;
  compartment_path : option string;
  r_display_name : string;
  r_shape : string;
  ocpus : option Z;
  memory_gbs : option Z;
  r_lifecycle_state : string;
  r_availability_domain : option string;
  primary_vnic_id : option string;
  private_ips : option string;
  public_ips : option string;
  time_created_utc : option datetime;
  last_refreshed_utc : datetime;
}.

Abbreviation table := (gmap string row).

Record config : Type := {
  cfg_tenancy_ocid : string;
  cfg_region : string;
}.

(** [comp_map = {tenancy_ocid: root}], then one entry per listed
    compartment. *)
Definition load_compartments_with_root (cfg : config) (tenancy_name : string)
    (response_data : list compartment) : PyDict.t compartment :=
  let root := {| c_id := cfg_tenancy_ocid cfg;
                 c_name := tenancy_name;
                 c_compartment_id := None;
                 c_lifecycle_state := "ACTIVE" |} in
  fold_left (λ d c, PyDict.set (c_id c) c d) response_data
    [(cfg_tenancy_ocid cfg, root)].

Definition build_compartment_paths (cfg : config)
    (comp_map : PyDict.t compartment) (separator : string) : PyDict.t string :=
  let tenancy_name :=
    match PyDict.get (cfg_tenancy_ocid cfg) comp_map with
    | Some root => c_name root
    | None => "root"
    end in
  fold_left
    (λ paths '(cid, c),
       if decide (cid = cfg_tenancy_ocid cfg)
       then PyDict.set cid tenancy_name paths
       else PyDict.set cid
              (two_level_path comp_map (cfg_tenancy_ocid cfg) tenancy_name
                 separator c) paths)
    (PyDict.items comp_map) [].

(** [list_instances]: every exception is printed and turned into []. *)
Definition list_instances (compute_list_instances : string → operation (list instance))
    (compartment_id : string) : list instance :=
  match compute_list_instances compartment_id 0%nat with
  | Ok data => data
  | ServiceError _ | OtherException => []
  end.

(** [",".join(ips)] where [ips] holds the address when it is set. *)
Definition join_ip (ip : option string) : string := default "" ip.

Definition get_vnic_and_ips (inst : instance)
  : option string * option string * option string :=
  if decide (id inst = "") then (None, None, None) else
  match vnic_attachments inst with
  | Ok [] => (None, None, None)
  | Ok (primary :: _) =>
      match get_vnic inst primary with
      | Ok v => (Some primary, Some (join_ip (private_ip v)),
                 Some (join_ip (public_ip v)))
      | ServiceError _ | OtherException => (None, None, None)
      end
  | ServiceError _ | OtherException => (None, None, None)
  end.

(** The [ON DUPLICATE KEY UPDATE] list of [upsert_instance] (237-250): it
    leaves out [tenancy_ocid], [region] and [compartment_id], which keep the
    stored values. *)
Definition on_duplicate_key_update (old new : row) : row :=
  {| tenancy_ocid := tenancy_ocid old;
     region := region old;
     r_compartment_id := r_compartment_id old;
     compartment_name := compartment_name new;
     compartment_path := compartment_path new;
     r_display_name := r_display_name new;
     r_shape := r_shape new;
     ocpus := ocpus new;
     memory_gbs := memory_gbs new;
     r_lifecycle_state := r_lifecycle_state new;
     r_availability_domain := r_availability_domain new;
     primary_vnic_id := primary_vnic_id new;
     private_ips := private_ips new;
     public_ips := public_ips new;
     time_created_utc := time_created_utc new;
     last_refreshed_utc := last_refreshed_utc new |}.

Definition upsert_instance (instance_id : string) (new : row) (tbl : table)
  : table :=
  match tbl !! instance_id with
  | None => <[instance_id := new]> tbl
  | Some old => <[instance_id := on_duplicate_key_update old new]> tbl
  end.

Definition state : Type := table * gset string.

Definition make_row (cfg : config) (inst : instance) (comp_id : string)
    (comp_name : string) (comp_path : option string) (run_ts : datetime)
  : row :=
  let '(vnic_id, priv, pub) := get_vnic_and_ips inst in
  {| tenancy_ocid := cfg_tenancy_ocid cfg;
     region := cfg_region cfg;
     r_compartment_id := comp_id;
     compartment_name := Some comp_name;
     compartment_path := comp_path;
     r_display_name := display_name inst;
     r_shape := shape inst;
     ocpus := shape_ocpus inst;
     memory_gbs := shape_memory_in_gbs inst;
     r_lifecycle_state := lifecycle_state inst;
     r_availability_domain := availability_domain inst;
     primary_vnic_id := vnic_id;
     private_ips := priv;
     public_ips := pub;
     time_created_utc := time_created inst;
     last_refreshed_utc := run_ts |}.

Definition store_instance (cfg : config) (comp_id comp_name : string)
    (comp_path : option string) (run_ts : datetime) (st : state)
    (inst : instance) : state :=
  (upsert_instance (id inst)
     (make_row cfg inst comp_id comp_name comp_path run_ts) st.1,
   {[id inst]} ∪ st.2).

(** One turn of [for comp_id, comp in active_comps.items()]. *)
Definition collect_compartment (cfg : config)
    (compute_list_instances : string → operation (list instance))
    (comp_paths : PyDict.t string) (run_ts : datetime)
    (entry : string * compartment) (st : state) : outcome state :=
  let '(comp_id, comp) := entry in
  let comp_path := PyDict.get comp_id comp_paths in
  let instances := list_instances compute_list_instances comp_id in
  Returned (fold_left (store_instance cfg comp_id (c_name comp) comp_path run_ts)
              instances st).

(** [WHERE tenancy_ocid = %s AND region = %s] *)
Definition in_scope (cfg : config) (r : row) : Prop :=
  tenancy_ocid r = cfg_tenancy_ocid cfg ∧ region r = cfg_region cfg.

#[global] Instance in_scope_dec cfg r : Decision (in_scope cfg r).
Proof. unfold in_scope. apply _. Defined.

(** The final DELETE, in its two forms. *)
Definition sweep (cfg : config) (seen : gset string) (tbl : table) : table :=
  if decide (seen = ∅)
  then filter (λ kr, ¬ in_scope cfg kr.2) tbl
  else filter (λ kr, ¬ (in_scope cfg kr.2 ∧ kr.1 ∉ seen)) tbl.

Definition active_comps (cfg : config) (comp_map : PyDict.t compartment)
  : PyDict.t compartment :=
  filter (λ e, e.1 ≠ cfg_tenancy_ocid cfg ∧ c_lifecycle_state e.2 = "ACTIVE")
    (PyDict.items comp_map).

(** [main()], from the point where the tenancy name and the compartments
    have been fetched. *)
Definition main (cfg : config) (run_ts : datetime) (tenancy_name : string)
    (response_data : list compartment)
    (compute_list_instances : string → operation (list instance))
    (tbl : table) : outcome table :=
  let comp_map := load_compartments_with_root cfg tenancy_name response_data in
  let comp_paths := build_compartment_paths cfg comp_map default_separator in
  match for_each
          (collect_compartment cfg compute_list_instances comp_paths run_ts)
          (PyDict.items (active_comps cfg comp_map)) (tbl, ∅) with
  | Returned (tbl', seen) => Returned (sweep cfg seen tbl')
  | Raised (tbl', _) => Raised tbl'
  end.

End instance_list.

(** ** adb_backup.py

    The [__main__] block (110-198) with [save_backup_to_mysql] (68-94),
    [get_adb_info] (97-100) and [get_all_backups] (102-107). *)

Module adb_backup.

Record backup : Type := {
  id : string;
  lifecycle_state : option string;
  time_started : option datetime;
  time_ended : option datetime;
}.

(** The columns of [adb_backup_status] other than the primary key
    [backup_id]. *)
Record row : Type := {
  adb_name : string;
  adb_status : option string;
  backup_status : option string;
  r_time_started : option datetime;
  r_time_ended : option datetime;
  created_at : datetime;
}.

Abbreviation table := (gmap string row).

(** The two remote calls of the script, per ADB OCID. *)
Record client : Type := {
  get_autonomous_database : string → operation (string * string);
  list_autonomous_database_backups : string → operation (list backup);
}.

(** [INSERT ... ON DUPLICATE KEY UPDATE]: [adb_name] is not in the UPDATE
    list.  [utcnow] is the clock reading that goes into [created_at]. *)
Definition save_backup_to_mysql (utcnow : datetime) (name : string)
    (status : string) (b : backup) (tbl : table) : table :=
  let new := {| adb_name := name;
                adb_status := Some status;
                backup_status := lifecycle_state b;
                r_time_started := time_started b;
                r_time_ended := time_ended b;
                created_at := utcnow |} in
  match tbl !! id b with
  | None => <[id b := new]> tbl
  | Some old =>
      <[id b := {| adb_name := adb_name old;
                   adb_status := adb_status new;
                   backup_status := backup_status new;
                   r_time_started := r_time_started new;
                   r_time_ended := r_time_ended new;
                   created_at := created_at new |}]> tbl
  end.

Definition get_adb_info (cl : client) (adb_id : string)
  : response (string * string) :=
  get_autonomous_database cl adb_id 0%nat.

Definition get_all_backups (cl : client) (adb_id : string)
  : response (list backup) :=
  list_autonomous_database_backups cl adb_id 0%nat.

Definition state : Type := table * gset string.

(** One turn of [for adb_id in ADB_OCIDS]: both lookups log the error and
    [continue] on any exception. *)
Definition collect_adb (cl : client) (utcnow : datetime) (adb_id : string)
    (st : state) : outcome state :=
  match get_adb_info cl adb_id with
  | Ok (status, name) =>
      match get_all_backups cl adb_id with
      | Ok backups =>
          Returned
            (fold_left
               (λ s b, (save_backup_to_mysql utcnow name status b s.1,
                        {[id b]} ∪ s.2))
               backups st)
      | ServiceError _ | OtherException => Returned st
      end
  | ServiceError _ | OtherException => Returned st
  end.

(** The final DELETE runs only when something was seen. *)
Definition sweep (seen : gset string) (tbl : table) : table :=
  if decide (seen = ∅)
  then tbl
  else filter (λ kr, ¬ (kr.1 ∉ seen)) tbl.

(** The [__main__] block for a non-empty [ADB_OCIDS]. *)
Definition main (cl : client) (utcnow : datetime) (ADB_OCIDS : list string)
    (tbl : table) : outcome table :=
  match for_each (collect_adb cl utcnow) ADB_OCIDS (tbl, ∅) with
  | Returned (tbl', seen) => Returned (sweep seen tbl')
  | Raised (tbl', _) => Raised tbl'
  end.

End adb_backup.

(** ** dbcs_backup.py

    [main] (143-264) with [parse_size_fields] (87-102), [to_dt] (104-112)
    and [upsert_backup] (114-138). *)

Module dbcs_backup.

Record backup : Type := {
  id : string;
  type : option string;
  time_started : option datetime;
  time_ended : option datetime;
  lifecycle_state : option string;
  size_in_bytes : option Z;
  size_in_gbs : option Z;
  size_in_mbs : option Z;
  size_in_gigabytes : option Z;
  display_name : option string;
  freeform_tags : option string;
}.

(** The columns of [dbcs_backup_status] other than the primary key [id]. *)
Record row : Type := {
  db_name : string;
  r_type : option string;
  r_time_started : option datetime;
  r_time_ended : option datetime;
  r_lifecycle_state : option string;
  size_bytes : option Z;
  r_display_name : option string;
  r_freeform_tags : option string;
}.

Abbreviation table := (gmap string row).

Record database : Type := {
  d_db_name : option string;
  d_db_unique_name : option string;
  d_display_name : option string;
}.

(** A cursor-paginated listing as the loop sees it: the items of a page and,
    when the [opc-next-page] header is set, what the next request returns;
    or the exception the request raises. *)
Inductive paged (A : Type) : Type :=
| LastPage (data : list A)
| MorePages (data : list A) (next_page : paged A)
| PageServiceError (status : Z)
| PageOtherException.

Arguments LastPage {A} data.
Arguments MorePages {A} data next_page.
Arguments PageServiceError {A} status.
Arguments PageOtherException {A}.

Record client : Type := {
  get_database : string → operation database;
  list_backups : string → paged backup;
}.

Definition LOOKBACK_DAYS : option Z := Some 14.

Definition seconds_per_day : Z := 86400.

(** [lookback_ts], given the clock reading [now]. *)
Definition lookback_ts (now : datetime) : option datetime :=
  match LOOKBACK_DAYS with
  | Some days => if decide (days = 0) then None
                 else Some (now - days * seconds_per_day)
  | None => None
  end.

(** The first attribute that is set decides; the tests are on the suffix of
    the attribute name, and "size_in_gigabytes" ends in "bytes". *)
Definition parse_size_fields (b : backup) : option Z :=
  match size_in_bytes b, size_in_gbs b, size_in_mbs b, size_in_gigabytes b with
  | Some v, _, _, _ => Some v
  | None, Some v, _, _ => Some (v * 1024 ^ 3)
  | None, None, Some v, _ => Some (v * 1024 ^ 2)
  | None, None, None, Some v => Some v
  | None, None, None, None => None
  end.

(** The same function as its loop is written: [getattr] by attribute name,
    then the [endswith] tests in their order. *)
Definition size_attrs : list string :=
  ["size_in_bytes"; "size_in_gbs"; "size_in_mbs"; "size_in_gigabytes"].

Definition getattr_size (b : backup) (attr : string) : option Z :=
  if decide (attr = "size_in_bytes") then size_in_bytes b
  else if decide (attr = "size_in_gbs") then size_in_gbs b
  else if decide (attr = "size_in_mbs") then size_in_mbs b
  else if decide (attr = "size_in_gigabytes") then size_in_gigabytes b
  else None.

(** [s.endswith(suffix)] *)
Definition endswith (s suffix : string) : bool :=
  let n := String.length s in
  let m := String.length suffix in
  bool_decide (m ≤ n)%nat && bool_decide (String.substring (n - m) m s = suffix).

Fixpoint parse_size_fields_loop (b : backup) (attrs : list string)
  : option Z :=
  match attrs with
  | [] => None
  | attr :: attrs' =>
      match getattr_size b attr with
      | None => parse_size_fields_loop b attrs'
      | Some v =>
          if endswith attr "bytes" then Some v
          else if endswith attr "gbs" || endswith attr "gigabytes"
          then Some (v * 1024 ^ 3)
          else if endswith attr "mbs" then Some (v * 1024 ^ 2)
          else parse_size_fields_loop b attrs'
      end
  end.

Definition to_dt (ts : option datetime) : option datetime := ts.

(** [INSERT ... ON DUPLICATE KEY UPDATE] naming every column but [id]. *)
Definition upsert_backup (key : string) (new : row) (tbl : table) : table :=
  match tbl !! key with
  | None => <[key := new]> tbl
  | Some old =>
      <[key := {| db_name := db_name new;
                  r_type := r_type new;
                  r_time_started := r_time_started new;
                  r_time_ended := r_time_ended new;
                  r_lifecycle_state := r_lifecycle_state new;
                  size_bytes := size_bytes new;
                  r_display_name := r_display_name new;
                  r_freeform_tags := r_freeform_tags new |}]> tbl
  end.

Definition state : Type := table * gset string.

(** [lookback_ts and ts and ts < lookback_ts] *)
Definition too_old (lookback : option datetime) (b : backup) : bool :=
  match lookback, time_started b with
  | Some lb, Some ts => bool_decide (ts < lb)
  | _, _ => false
  end.

(** The body of [for b in backups]. *)
Definition store_backup (lookback : option datetime) (name : string)
    (st : state) (b : backup) : state :=
  if too_old lookback b then st
  else
    (upsert_backup (id b)
       {| db_name := name;
          r_type := type b;
          r_time_started := to_dt (time_started b);
          r_time_ended := to_dt (time_ended b);
          r_lifecycle_state := lifecycle_state b;
          size_bytes := parse_size_fields b;
          r_display_name := display_name b;
          r_freeform_tags := freeform_tags b |} st.1,
     {[id b]} ∪ st.2).

(** The [while True] loop over the pages of one database. *)
Fixpoint drain (lookback : option datetime) (name : string)
    (resp : paged backup) (st : state) : outcome state :=
  match resp with
  | LastPage backups =>
      Returned (fold_left (store_backup lookback name) backups st)
  | MorePages backups next_page =>
      drain lookback name next_page
        (fold_left (store_backup lookback name) backups st)
  | PageServiceError _ | PageOtherException => Raised st
  end.

Definition resolve_db_name (cl : client) (db_ocid : string) : string :=
  match get_database cl db_ocid 0%nat with
  | Ok info =>
      py_or (d_db_name info)
        (py_or (d_db_unique_name info) (py_or (d_display_name info) db_ocid))
  | ServiceError _ | OtherException => db_ocid
  end.

(** One turn of [for db_ocid in DB_OCIDS]. *)
Definition collect_db (cl : client) (lookback : option datetime)
    (db_ocid : string) (st : state) : outcome state :=
  drain lookback (resolve_db_name cl db_ocid) (list_backups cl db_ocid) st.

Definition sweep (seen : gset string) (tbl : table) : table :=
  if decide (seen = ∅)
  then tbl
  else filter (λ kr, ¬ (kr.1 ∉ seen)) tbl.

(** [main()] for a non-empty [DB_OCIDS]; [now] is the clock reading that
    fixes the lookback window. *)
Definition main (cl : client) (now : datetime) (DB_OCIDS : list string)
    (tbl : table) : outcome table :=
  match for_each (collect_db cl (lookback_ts now)) DB_OCIDS (tbl, ∅) with
  | Returned (tbl', seen) => Returned (sweep seen tbl')
  | Raised (tbl', _) => Raised tbl'
  end.

End dbcs_backup.

(** ** dbcs_list.py

    The compartment map and the path builder (164-211), then [main]
    (273-365) with [list_dbcs] (216-220), [upsert_dbcs] (225-268) and the
    statement [UPSERT_SQL] (92-123). *)

Module dbcs_list.

Record config : Type := {
  cfg_tenancy_ocid : string;
  cfg_region : string;
  cfg_tenancy_name : string;
}.

Definition load_compartments_with_parents (response_data : list compartment)
  : PyDict.t compartment :=
  fold_left (λ d c, PyDict.set (c_id c) c d) response_data [].

(** The root is skipped: no entry is written for it. *)
Definition build_compartment_paths (cfg : config)
    (comp_map : PyDict.t compartment) (separator : string) : PyDict.t string :=
  fold_left
    (λ paths '(cid, c),
       if decide (cid = cfg_tenancy_ocid cfg)
       then paths
       else PyDict.set cid
              (two_level_path comp_map (cfg_tenancy_ocid cfg)
                 (cfg_tenancy_name cfg) separator c) paths)
    (PyDict.items comp_map) [].

(** A DB system as [list_db_systems] returns it. *)
Record db_system : Type := {
  id : string;
  display_name : string;
  lifecycle_state : string;
  shape : string;
  cpu_core_count : option Z;
  data_storage_size_in_gb : option Z;
  node_count : option Z;
  license_model : option string;
  time_created : option datetime;
}.

(** The columns of [dbcs_inventory] other than the primary key
    [dbsystem_id]. *)
Record row : Type := {
  tenancy_ocid : string;
  region : string;
  compartment_ocid : string;
  compartment_name : string;
  compartment_path : option string;
  r_display_name : string;
  db_home_count : Z;
  db_name_list : option string;
  r_lifecycle_state : string;
  r_shape : string;
  r_cpu_core_count : option Z;
  storage_size_gb : option Z;
  r_node_count : option Z;
  r_license_model : option string;
  time_created_utc : option datetime;
  last_refreshed_utc : datetime;
}.

Abbreviation table := (gmap string row).

(** The three calls of the database client: the DB systems of a
    compartment, the ids of the DB homes of a DB system, and the [db_name]
    of each database of a DB home. *)
Record client : Type := {
  list_db_systems : string → operation (list db_system);
  list_db_homes : string → string → operation (list string);
  list_databases : string → string → operation (list (option string));
}.

Definition to_dt (dt_obj : option datetime) : option datetime := dt_obj.

Definition list_dbcs (cl : client) (compartment_id : string)
  : response (list db_system) :=
  list_db_systems cl compartment_id 0%nat.

(** [INSERT ... ON DUPLICATE KEY UPDATE]: the UPDATE list leaves out
    [tenancy_ocid], [region] and [compartment_ocid]. *)
Definition UPSERT_SQL (dbsystem_id : string) (new : row) (tbl : table)
  : table :=
  match tbl !! dbsystem_id with
  | None => <[dbsystem_id := new]> tbl
  | Some old =>
      <[dbsystem_id := {|
          tenancy_ocid := tenancy_ocid old;
          region := region old;
          compartment_ocid := compartment_ocid old;
          compartment_name := compartment_name new;
          compartment_path := compartment_path new;
          r_display_name := r_display_name new;
          db_home_count := db_home_count new;
          db_name_list := db_name_list new;
          r_lifecycle_state := r_lifecycle_state new;
          r_shape := r_shape new;
          r_cpu_core_count := r_cpu_core_count new;
          storage_size_gb := storage_size_gb new;
          r_node_count := r_node_count new;
          r_license_model := r_license_model new;
          time_created_utc := time_created_utc new;
          last_refreshed_utc := last_refreshed_utc new;
        |}]> tbl
  end.

(** [if db.db_name: db_names.append(db.db_name)] over one DB home. *)
Definition named (db_list : list (option string)) : list string :=
  omap (λ n, match n with
             | Some s => if decide (s = "") then None else Some s
             | None => None
             end) db_list.

(** The loop over the DB homes: the first listing that fails ends it. *)
Fixpoint home_db_names (cl : client) (comp_id : string) (homes : list string)
  : response (list string) :=
  match homes with
  | [] => Ok []
  | home :: homes' =>
      match list_databases cl comp_id home 0%nat with
      | Ok db_list =>
          match home_db_names cl comp_id homes' with
          | Ok names => Ok (named db_list ++ names)
          | ServiceError s => ServiceError s
          | OtherException => OtherException
          end
      | ServiceError s => ServiceError s
      | OtherException => OtherException
      end
  end.

(** [db_names] of one DB system. *)
Definition db_names_of (cl : client) (comp_id dbsystem_id : string)
  : response (list string) :=
  match list_db_homes cl comp_id dbsystem_id 0%nat with
  | Ok homes => home_db_names cl comp_id homes
  | ServiceError s => ServiceError s
  | OtherException => OtherException
  end.

Definition make_row (cfg : config) (dbs_item : db_system)
    (db_names : list string) (comp_name comp_id : string)
    (comp_path : option string) (run_ts : datetime) : row :=
  {| tenancy_ocid := cfg_tenancy_ocid cfg;
     region := cfg_region cfg;
     compartment_ocid := comp_id;
     compartment_name := comp_name;
     compartment_path := comp_path;
     r_display_name := display_name dbs_item;
     db_home_count := Z.of_nat (length db_names);
     db_name_list :=
       match db_names with
       | [] => None
       | _ => Some (String.concat "," db_names)
       end;
     r_lifecycle_state := lifecycle_state dbs_item;
     r_shape := shape dbs_item;
     r_cpu_core_count := cpu_core_count dbs_item;
     storage_size_gb := data_storage_size_in_gb dbs_item;
     r_node_count := node_count dbs_item;
     r_license_model := license_model dbs_item;
     time_created_utc := to_dt (time_created dbs_item);
     last_refreshed_utc := run_ts |}.

(** The run state: the table and [seen_dbsystem_ids]. *)
Definition state : Type := table * gset string.

(** [upsert_dbcs] writes as it goes: it returns the state it leaves and how
    it ended, [Ok ()] or the exception of the home or database listing that
    failed. *)
Fixpoint upsert_dbcs (cfg : config) (cl : client) (dbs : list db_system)
    (comp_name comp_id : string) (comp_path : option string)
    (run_ts : datetime) (st : state) : state * response () :=
  match dbs with
  | [] => (st, Ok ())
  | dbs_item :: dbs' =>
      match db_names_of cl comp_id (id dbs_item) with
      | Ok db_names =>
          upsert_dbcs cfg cl dbs' comp_name comp_id comp_path run_ts
            (UPSERT_SQL (id dbs_item)
               (make_row cfg dbs_item db_names comp_name comp_id comp_path
                  run_ts) st.1,
             {[id dbs_item]} ∪ st.2)
      | ServiceError s => (st, ServiceError s)
      | OtherException => (st, OtherException)
      end
  end.

(** [compartments]: the values of [comp_map] but the root, if ACTIVE. *)
Definition active_compartments (cfg : config)
    (comp_map : PyDict.t compartment) : list compartment :=
  (filter (λ e, e.1 ≠ cfg_tenancy_ocid cfg ∧ c_lifecycle_state e.2 = "ACTIVE")
     (PyDict.items comp_map)).*2.

(** One turn of [for comp in compartments]: HTTP 429 from the listing or
    from inside [upsert_dbcs] moves on to the next compartment, every other
    exception is raised. *)
Definition collect_compartment (cfg : config) (cl : client)
    (comp_paths : PyDict.t string) (run_ts : datetime) (comp : compartment)
    (st : state) : outcome state :=
  let comp_path := PyDict.get (c_id comp) comp_paths in
  match list_dbcs cl (c_id comp) with
  | Ok [] => Returned st       (* if not dbs_list: continue *)
  | Ok dbs_list =>
      match upsert_dbcs cfg cl dbs_list (c_name comp) (c_id comp) comp_path
              run_ts st with
      | (st', Ok _) => Returned st'
      | (st', ServiceError status) =>
          if decide (status = 429) then Returned st' else Raised st'
      | (st', OtherException) => Raised st'
      end
  | ServiceError status =>
      if decide (status = 429) then Returned st else Raised st
  | OtherException => Raised st
  end.

(** [WHERE tenancy_ocid = %s AND region = %s] *)
Definition in_scope (cfg : config) (r : row) : Prop :=
  tenancy_ocid r = cfg_tenancy_ocid cfg ∧ region r = cfg_region cfg.

#[global] Instance in_scope_dec cfg r : Decision (in_scope cfg r).
Proof. unfold in_scope. apply _. Defined.

(** The final DELETE, in its two forms. *)
Definition sweep (cfg : config) (seen : gset string) (tbl : table) : table :=
  if decide (seen = ∅)
  then filter (λ kr, ¬ in_scope cfg kr.2) tbl
  else filter (λ kr, ¬ (in_scope cfg kr.2 ∧ kr.1 ∉ seen)) tbl.

(** [main()], from the point where the compartments have been listed. *)
Definition main (cfg : config) (cl : client) (run_ts : datetime)
    (response_data : list compartment) (tbl : table) : outcome table :=
  let comp_map := load_compartments_with_parents response_data in
  let comp_paths := build_compartment_paths cfg comp_map default_separator in
  match for_each (collect_compartment cfg cl comp_paths run_ts)
          (active_compartments cfg comp_map) (tbl, ∅) with
  | Returned (tbl', seen) => Returned (sweep cfg seen tbl')
  | Raised (tbl', _) => Raised tbl'
  end.

End dbcs_list.

(** ** filesystem_list.py

    The module-level script: the path builder (63-89, 297-309), the four
    upsert statements (189-258), the collection loop (330-500) and the final
    clean-up (508-568). *)

Module filesystem_list.

Record snapshot : Type := {
  s_id : string;
  s_name : string;
  s_lifecycle_state : string;
  s_time_created : datetime;
  s_time_ended : option datetime;
}.

Record file_system : Type := {
  fs_id : string;
  fs_display_name : string;
  fs_compartment_id : string;
  fs_availability_domain : string;
  fs_lifecycle_state : string;
  fs_time_created : option datetime;
  fs_metered_bytes : option Z;
}.

Record mount_target : Type := {
  mt_id : string;
  mt_display_name : string;
  mt_compartment_id : string;
  mt_availability_domain : string;
  mt_lifecycle_state : string;
  mt_time_created : option datetime;
  mt_subnet_id : option string;
  mt_export_set_id : option string;
}.

Record export : Type := {
  ex_id : string;
  ex_file_system_id : string;
  ex_path : string;
  ex_lifecycle_state : string;
  ex_time_created : option datetime;
}.

(** The four listings of the file storage client. *)
Record client : Type := {
  list_file_systems : string → string → operation (list file_system);
  list_mount_targets : string → string → operation (list mount_target);
  list_snapshots : string → operation (list snapshot);
  list_exports : string → string → operation (list export);
}.

(** [oci_fss_filesystems] without its key [fs_id]. *)
Record fs_row : Type := {
  display_name : string;
  compartment_id : string;
  compartment_name : string;
  compartment_path : option string;
  availability_domain : string;
  lifecycle_state : string;
  time_created : option datetime;
  metered_bytes : option Z;
  latest_snapshot_id : option string;
  latest_snapshot_name : option string;
  latest_snapshot_state : option string;
  latest_snapshot_time : option datetime;
  last_seen_at : datetime;
}.

(** [oci_fss_snapshots] without its key [snapshot_id]. *)
Record snap_row : Type := {
  sn_fs_id : string;
  sn_name : string;
  sn_lifecycle_state : string;
  sn_time_created : datetime;
  sn_time_ended : option datetime;
  sn_deleted_at : option datetime;
  sn_last_seen_at : datetime;
}.

(** [oci_fss_mount_targets] without its key [mt_id]. *)
Record mt_row : Type := {
  m_display_name : string;
  m_compartment_id : string;
  m_compartment_path : option string;
  m_availability_domain : string;
  m_lifecycle_state : string;
  m_time_created : option datetime;
  m_subnet_id : option string;
  m_export_set_id : option string;
  m_last_seen_at : datetime;
}.

(** [oci_fss_exports] without its key [export_id]. *)
Record export_row : Type := {
  e_fs_id : string;
  e_mt_id : string;
  e_path : string;
  e_lifecycle_state : string;
  e_time_created : option datetime;
  e_last_seen_at : datetime;
}.

(** The database and the four seen-sets. *)
Record state : Type := {
  filesystems : gmap string fs_row;
  snapshots : gmap string snap_row;
  mount_targets : gmap string mt_row;
  exports : gmap string export_row;
  seen_fs_ids : gset string;
  seen_snapshot_ids : gset string;
  seen_mt_ids : gset string;
  seen_export_ids : gset string;
}.

Record config : Type := {
  cfg_tenancy_id : string;
  cfg_tenancy_name : string;
}.

Definition as_naive_utc (dt : option datetime) : option datetime := dt.

Definition build_2level_compartment_path (comp_id : string)
    (comp_map : PyDict.t compartment) (tenancy_id tenancy_name sep : string)
  : option string :=
  match PyDict.get comp_id comp_map with
  | None => None
  | Some comp =>
      match c_compartment_id comp with
      | None => Some tenancy_name
      | Some parent_id =>
          if decide (comp_id = tenancy_id) then Some tenancy_name
          else if decide (parent_id = tenancy_id)
          then Some (tenancy_name +:+ sep +:+ c_name comp)
          else match PyDict.get parent_id comp_map with
               | None => Some (c_name comp)
               | Some parent => Some (c_name parent +:+ sep +:+ c_name comp)
               end
      end
  end.

Definition list_all_compartments (response_data : list compartment)
  : list compartment :=
  filter (λ c, c_lifecycle_state c = "ACTIVE") response_data.

Definition comp_by_id (compartments : list compartment)
  : PyDict.t compartment :=
  fold_left (λ d c, PyDict.set (c_id c) c d) compartments [].

Definition build_compartment_path (cfg : config)
    (compartments : list compartment) (comp_id : string) : option string :=
  build_2level_compartment_path comp_id (comp_by_id compartments)
    (cfg_tenancy_id cfg) (cfg_tenancy_name cfg) " > ".

(** [max(snaps, key=lambda s: s.time_created)]: the first of the latest. *)
Fixpoint max_by_time_created (best : snapshot) (l : list snapshot) : snapshot :=
  match l with
  | [] => best
  | s :: l' =>
      if bool_decide (s_time_created best < s_time_created s)
      then max_by_time_created s l'
      else max_by_time_created best l'
  end.

Definition latest_snapshot (snaps : list snapshot) : option snapshot :=
  match snaps with
  | [] => None
  | s :: l => Some (max_by_time_created s l)
  end.

(** UPSERT_FS_SQL: every column but the key is in the UPDATE list. *)
Definition UPSERT_FS_SQL (key : string) (new : fs_row)
    (tbl : gmap string fs_row) : gmap string fs_row :=
  <[key := new]> tbl.

(** UPSERT_SNAP_SQL: [fs_id] is not in the UPDATE list, and [deleted_at] is
    never written. *)
Definition UPSERT_SNAP_SQL (key : string) (new : snap_row)
    (tbl : gmap string snap_row) : gmap string snap_row :=
  match tbl !! key with
  | None => <[key := new]> tbl
  | Some old =>
      <[key := {| sn_fs_id := sn_fs_id old;
                  sn_name := sn_name new;
                  sn_lifecycle_state := sn_lifecycle_state new;
                  sn_time_created := sn_time_created new;
                  sn_time_ended := sn_time_ended new;
                  sn_deleted_at := sn_deleted_at old;
                  sn_last_seen_at := sn_last_seen_at new |}]> tbl
  end.

(** UPSERT_MT_SQL and UPSERT_EXPORT_SQL: every column but the key. *)
Definition UPSERT_MT_SQL (key : string) (new : mt_row)
    (tbl : gmap string mt_row) : gmap string mt_row :=
  <[key := new]> tbl.

Definition UPSERT_EXPORT_SQL (key : string) (new : export_row)
    (tbl : gmap string export_row) : gmap string export_row :=
  <[key := new]> tbl.

Definition store_snapshot (run_ts : datetime) (fs : file_system) (st : state)
    (s : snapshot) : state :=
  {| filesystems := filesystems st;
     snapshots :=
       UPSERT_SNAP_SQL (s_id s)
         {| sn_fs_id := fs_id fs;
            sn_name := s_name s;
            sn_lifecycle_state := s_lifecycle_state s;
            sn_time_created := s_time_created s;
            sn_time_ended := as_naive_utc (s_time_ended s);
            sn_deleted_at := None;
            sn_last_seen_at := run_ts |} (snapshots st);
     mount_targets := mount_targets st;
     exports := exports st;
     seen_fs_ids := seen_fs_ids st;
     seen_snapshot_ids := {[s_id s]} ∪ seen_snapshot_ids st;
     seen_mt_ids := seen_mt_ids st;
     seen_export_ids := seen_export_ids st |}.

Definition store_file_system (run_ts : datetime) (comp : compartment)
    (comp_path : option string) (fs : file_system) (snaps : list snapshot)
    (st : state) : state :=
  let latest := latest_snapshot snaps in
  let st1 :=
    {| filesystems :=
         UPSERT_FS_SQL (fs_id fs)
           {| display_name := fs_display_name fs;
              compartment_id := fs_compartment_id fs;
              compartment_name := c_name comp;
              compartment_path := comp_path;
              availability_domain := fs_availability_domain fs;
              lifecycle_state := fs_lifecycle_state fs;
              time_created := as_naive_utc (fs_time_created fs);
              metered_bytes := fs_metered_bytes fs;
              latest_snapshot_id := s_id <$> latest;
              latest_snapshot_name := s_name <$> latest;
              latest_snapshot_state := s_lifecycle_state <$> latest;
              latest_snapshot_time := s_time_created <$> latest;
              last_seen_at := run_ts |} (filesystems st);
       snapshots := snapshots st;
       mount_targets := mount_targets st;
       exports := exports st;
       seen_fs_ids := {[fs_id fs]} ∪ seen_fs_ids st;
       seen_snapshot_ids := seen_snapshot_ids st;
       seen_mt_ids := seen_mt_ids st;
       seen_export_ids := seen_export_ids st |} in
  fold_left (store_snapshot run_ts fs) snaps st1.

(** The body of [for fs in fs_list]: 404 and 429 on the snapshot listing
    both mean "no snapshots"; any other failure is raised. *)
Definition collect_file_system (cl : client) (run_ts : datetime)
    (comp : compartment) (comp_path : option string) (fs : file_system)
    (st : state) : outcome state :=
  match list_snapshots cl (fs_id fs) 0%nat with
  | Ok snaps => Returned (store_file_system run_ts comp comp_path fs snaps st)
  | ServiceError status =>
      if decide (status = 404)
      then Returned (store_file_system run_ts comp comp_path fs [] st)
      else if decide (status = 429)
      then Returned (store_file_system run_ts comp comp_path fs [] st)
      else Raised st
  | OtherException => Raised st
  end.

Definition store_mount_target (run_ts : datetime) (comp_path : option string)
    (mt : mount_target) (st : state) : state :=
  {| filesystems := filesystems st;
     snapshots := snapshots st;
     mount_targets :=
       UPSERT_MT_SQL (mt_id mt)
         {| m_display_name := mt_display_name mt;
            m_compartment_id := mt_compartment_id mt;
            m_compartment_path := comp_path;
            m_availability_domain := mt_availability_domain mt;
            m_lifecycle_state := mt_lifecycle_state mt;
            m_time_created := as_naive_utc (mt_time_created mt);
            m_subnet_id := mt_subnet_id mt;
            m_export_set_id := mt_export_set_id mt;
            m_last_seen_at := run_ts |} (mount_targets st);
     exports := exports st;
     seen_fs_ids := seen_fs_ids st;
     seen_snapshot_ids := seen_snapshot_ids st;
     seen_mt_ids := {[mt_id mt]} ∪ seen_mt_ids st;
     seen_export_ids := seen_export_ids st |}.

Definition store_export (run_ts : datetime) (mt : mount_target) (st : state)
    (ex : export) : state :=
  {| filesystems := filesystems st;
     snapshots := snapshots st;
     mount_targets := mount_targets st;
     exports :=
       UPSERT_EXPORT_SQL (ex_id ex)
         {| e_fs_id := ex_file_system_id ex;
            e_mt_id := mt_id mt;
            e_path := ex_path ex;
            e_lifecycle_state := ex_lifecycle_state ex;
            e_time_created := as_naive_utc (ex_time_created ex);
            e_last_seen_at := run_ts |} (exports st);
     seen_fs_ids := seen_fs_ids st;
     seen_snapshot_ids := seen_snapshot_ids st;
     seen_mt_ids := seen_mt_ids st;
     seen_export_ids := {[ex_id ex]} ∪ seen_export_ids st |}.

(** The body of [for mt in mt_list]: the export listing is skipped on 429
    and raised on every other failure. *)
Definition collect_mount_target (cl : client) (run_ts : datetime)
    (comp : compartment) (comp_path : option string) (mt : mount_target)
    (st : state) : outcome state :=
  let st1 := store_mount_target run_ts comp_path mt st in
  match mt_export_set_id mt with
  | None => Returned st1
  | Some export_set_id =>
      if decide (export_set_id = "") then Returned st1 else
      match list_exports cl (c_id comp) export_set_id 0%nat with
      | Ok ex_list => Returned (fold_left (store_export run_ts mt) ex_list st1)
      | ServiceError status =>
          if decide (status = 429) then Returned st1 else Raised st1
      | OtherException => Raised st1
      end
  end.

(** The body of [for ad in ads], [ad] being the availability domain name. *)
Definition collect_ad (cl : client) (run_ts : datetime) (comp : compartment)
    (comp_path : option string) (ad : string) (st : state) : outcome state :=
  match list_file_systems cl ad (c_id comp) 0%nat with
  | Ok fs_list =>
      match list_mount_targets cl ad (c_id comp) 0%nat with
      | Ok mt_list =>
          and_then
            (for_each (collect_file_system cl run_ts comp comp_path) fs_list st)
            (for_each (collect_mount_target cl run_ts comp comp_path) mt_list)
      | ServiceError status =>
          if decide (status = 429) then Returned st else Raised st
      | OtherException => Raised st
      end
  | ServiceError status =>
      if decide (status = 429) then Returned st else Raised st
  | OtherException => Raised st
  end.

Definition collect_compartment (cfg : config) (cl : client) (run_ts : datetime)
    (compartments : list compartment) (ads : list string) (comp : compartment)
    (st : state) : outcome state :=
  for_each
    (collect_ad cl run_ts comp (build_compartment_path cfg compartments (c_id comp)))
    ads st.

(** [DELETE ... WHERE key NOT IN (seen)], or the whole table when nothing was
    seen. *)
Definition sweep_table {R : Type} (seen : gset string) (tbl : gmap string R)
  : gmap string R :=
  if decide (seen = ∅) then ∅ else filter (λ kr, ¬ (kr.1 ∉ seen)) tbl.

Definition sweep (st : state) : state :=
  {| filesystems := sweep_table (seen_fs_ids st) (filesystems st);
     snapshots := sweep_table (seen_snapshot_ids st) (snapshots st);
     mount_targets := sweep_table (seen_mt_ids st) (mount_targets st);
     exports := sweep_table (seen_export_ids st) (exports st);
     seen_fs_ids := seen_fs_ids st;
     seen_snapshot_ids := seen_snapshot_ids st;
     seen_mt_ids := seen_mt_ids st;
     seen_export_ids := seen_export_ids st |}.

(** A database [db] before the run, with empty seen-sets. *)
Definition start (db : state) : state :=
  {| filesystems := filesystems db;
     snapshots := snapshots db;
     mount_targets := mount_targets db;
     exports := exports db;
     seen_fs_ids := ∅;
     seen_snapshot_ids := ∅;
     seen_mt_ids := ∅;
     seen_export_ids := ∅ |}.

(** The script, from the point where the compartments and the availability
    domains have been listed. *)
Definition main (cfg : config) (cl : client) (run_ts : datetime)
    (response_data : list compartment) (ads : list string) (db : state)
  : outcome state :=
  let compartments := list_all_compartments response_data in
  match for_each (collect_compartment cfg cl run_ts compartments ads)
          compartments (start db) with
  | Returned st => Returned (sweep st)
  | Raised st => Raised st
  end.

End filesystem_list.

(** ** instance_volume.py

    The [__main__] loop (357-417) with the attachment listings (61-117),
    [list_backups] (120-174) and the table helpers (225-310). *)

Module instance_volume.

Record volume : Type := {
  v_id : string;
  v_display_name : string;
  v_size_in_gbs : option Z;
  v_lifecycle_state : string;
  v_time_created : option datetime;
  v_compartment_id : string;
}.

(** A (boot) volume attachment; [a_volume_id] is [volume_id] or
    [boot_volume_id]. *)
Record attachment : Type := {
  a_id : string;
  a_lifecycle_state : string;
  a_volume_id : string;
  a_attachment_type : option string;
  a_device : option string;
}.

Record volume_backup : Type := {
  b_id : string;
  b_display_name : option string;
  b_type : option string;
  b_lifecycle_state : option string;
  b_size_in_gbs : option Z;
  b_time_created : option datetime;
  b_expiration_time : option datetime;
}.

Record instance_info : Type := {
  i_display_name : string;
  i_compartment_id : string;
  i_availability_domain : string;
}.

Record client : Type := {
  get_instance : string → operation instance_info;
  list_volume_attachments : string → string → operation (list attachment);
  list_boot_volume_attachments :
    string → string → string → operation (list attachment);
  get_volume : string → operation volume;
  get_boot_volume : string → operation volume;
  list_volume_backups : string → string → operation (list volume_backup);
  list_boot_volume_backups : string → string → operation (list volume_backup);
  search_resources : string → operation (list string);
  get_volume_backup : string → operation volume_backup;
  get_boot_volume_backup : string → operation volume_backup;
}.

(** The dictionaries the two attachment listings build. *)
Record attached : Type := {
  attachment_id : string;
  attachment_state : string;
  volume_id : string;
  volume_name : string;
  size_gbs : option Z;
  attachment_type : option string;
  device : option string;
  attach_state : string;
  volume_state : string;
  volume_type : string;
  time_created : option datetime;
  volume_compartment_id : string;
  is_boot : bool;
}.

(** The dictionaries [list_backups] builds. *)
Record backup_info : Type := {
  backup_id : string;
  backup_name : string;
  backup_type : option string;
  bk_lifecycle_state : option string;
  bk_size_gbs : option Z;
  bk_time_created : option datetime;
  expiration_time : option datetime;
}.

(** [instance_volume_latest] without its key (instance_id, volume_id). *)
Record volume_row : Type := {
  instance_name : string;
  r_volume_name : string;
  r_volume_type : string;
  r_size_gbs : option Z;
  r_attachment_type : option string;
  r_device : option string;
  lifecycle_state : string;
  r_volume_state : string;
  r_time_created : option datetime;
  updated_at : datetime;
  r_attachment_id : option string;
  r_attachment_state : option string;
  last_seen_attached_at : option datetime;
}.

(** [volume_backup_latest] without its key [backup_id]. *)
Record backup_row : Type := {
  br_instance_id : string;
  br_volume_id : string;
  br_backup_name : string;
  br_backup_type : option string;
  br_lifecycle_state : option string;
  br_size_gbs : option Z;
  br_time_created : option datetime;
  br_expiration_time : option datetime;
  br_updated_at : datetime;
}.

(** The two tables, and how many statements the server has executed on the
    connection so far: [UTC_TIMESTAMP()] is evaluated by the server in each
    statement, so the n-th statement of a run sees [utc_timestamp n]. *)
Record database : Type := {
  instance_volume_latest : gmap (string * string) volume_row;
  volume_backup_latest : gmap string backup_row;
  executed : nat;
}.

Definition ATTACH_OK : list string := ["ATTACHED"; "ATTACHING"].

Definition utc_naive (dt : option datetime) : option datetime := dt.

(** An uncaught exception inside a helper: [Ok] or the failure to re-raise. *)
Fixpoint resolve_volumes (get : string → operation volume) (boot : bool)
    (atts : list attachment) : response (list attached) :=
  match atts with
  | [] => Ok []
  | a :: atts' =>
      match get (a_volume_id a) 0%nat with
      | Ok v =>
          match resolve_volumes get boot atts' with
          | Ok out =>
              Ok ({| attachment_id := a_id a;
                     attachment_state := a_lifecycle_state a;
                     volume_id := v_id v;
                     volume_name := v_display_name v;
                     size_gbs := v_size_in_gbs v;
                     attachment_type :=
                       if boot then Some "BOOT"
                       else Some (default "BLOCK" (a_attachment_type a));
                     device := if boot then None else a_device a;
                     attach_state := a_lifecycle_state a;
                     volume_state := v_lifecycle_state v;
                     volume_type := if boot then "boot" else "block";
                     time_created := utc_naive (v_time_created v);
                     volume_compartment_id := v_compartment_id v;
                     is_boot := boot |} :: out)
          | ServiceError s => ServiceError s
          | OtherException => OtherException
          end
      | ServiceError s => ServiceError s
      | OtherException => OtherException
      end
  end.

Definition list_block_attachments (cl : client)
    (instance_id compartment_id : string) : response (list attached) :=
  match list_volume_attachments cl compartment_id instance_id 0%nat with
  | Ok atts => resolve_volumes (get_volume cl) false atts
  | ServiceError s => ServiceError s
  | OtherException => OtherException
  end.

Definition list_boot_attachments (cl : client)
    (instance_id compartment_id ad : string) : response (list attached) :=
  match list_boot_volume_attachments cl ad compartment_id instance_id 0%nat with
  | Ok atts => resolve_volumes (get_boot_volume cl) true atts
  | ServiceError s => ServiceError s
  | OtherException => OtherException
  end.

Definition search_query (boot : bool) (vol_id : string) : string :=
  if boot
  then "query bootvolumebackup resources where bootVolumeId = '" +:+ vol_id +:+ "'"
  else "query volumebackup resources where volumeId = '" +:+ vol_id +:+ "'".

(** The fallback loop over the search hits: a [ServiceError] on one hit is
    passed over, any other exception escapes. *)
Fixpoint fetch_hits (get : string → operation volume_backup)
    (identifiers : list string) : response (list volume_backup) :=
  match identifiers with
  | [] => Ok []
  | i :: rest =>
      match get i 0%nat with
      | OtherException => OtherException
      | r =>
          match fetch_hits get rest with
          | Ok backs => Ok (match r with Ok b => b :: backs | _ => backs end)
          | e => e
          end
      end
  end.

Definition datetime_min : datetime := -62135596800.

Definition sort_key (b : backup_info) : datetime :=
  default datetime_min (bk_time_created b).

(** [norm.sort(key=..., reverse=True)]: stable, latest first. *)
Fixpoint insert_desc (x : backup_info) (l : list backup_info)
  : list backup_info :=
  match l with
  | [] => [x]
  | y :: l' =>
      if bool_decide (sort_key y < sort_key x) then x :: y :: l'
      else y :: insert_desc x l'
  end.

Definition sort_desc (l : list backup_info) : list backup_info :=
  fold_left (λ acc x, insert_desc x acc) l [].

Definition normalize (b : volume_backup) : backup_info :=
  {| backup_id := b_id b;
     backup_name := py_or (b_display_name b) "-";
     backup_type := b_type b;
     bk_lifecycle_state := b_lifecycle_state b;
     bk_size_gbs := b_size_in_gbs b;
     bk_time_created := utc_naive (b_time_created b);
     expiration_time := utc_naive (b_expiration_time b) |}.

Definition list_backups (cl : client) (vol_id : string) (boot : bool)
    (compartment_id : string) : response (list backup_info) :=
  let listed :=
    if boot then list_boot_volume_backups cl compartment_id vol_id 0%nat
    else list_volume_backups cl compartment_id vol_id 0%nat in
  let first_try : response (list volume_backup) :=
    match listed with
    | Ok backs => Ok backs
    | ServiceError _ => Ok []
    | OtherException => OtherException
    end in
  let backs : response (list volume_backup) :=
    match first_try with
    | Ok [] =>
        match search_resources cl (search_query boot vol_id) 0%nat with
        | Ok identifiers =>
            match fetch_hits
                    (if boot then get_boot_volume_backup cl
                     else get_volume_backup cl) identifiers with
            | ServiceError _ => Ok []
            | r => r
            end
        | ServiceError _ => Ok []
        | OtherException => OtherException
        end
    | r => r
    end in
  match backs with
  | Ok l => Ok (sort_desc (normalize <$> l))
  | ServiceError s => ServiceError s
  | OtherException => OtherException
  end.

(** The rows [DELETE FROM {table} WHERE instance_id=%s] leaves in either
    table. *)
Definition delete_volume_rows (instance_id : string)
    (tbl : gmap (string * string) volume_row) : gmap (string * string) volume_row :=
  filter (λ kr, kr.1.1 ≠ instance_id) tbl.

Definition delete_backup_rows (instance_id : string)
    (tbl : gmap string backup_row) : gmap string backup_row :=
  filter (λ kr, br_instance_id kr.2 ≠ instance_id) tbl.

Inductive table_name : Type :=
  | instance_volume_latest_table
  | volume_backup_latest_table.

Definition delete_instance_rows (table : table_name) (instance_id : string)
    (db : database) : database :=
  match table with
  | instance_volume_latest_table =>
      {| instance_volume_latest :=
           delete_volume_rows instance_id (instance_volume_latest db);
         volume_backup_latest := volume_backup_latest db;
         executed := S (executed db) |}
  | volume_backup_latest_table =>
      {| instance_volume_latest := instance_volume_latest db;
         volume_backup_latest :=
           delete_backup_rows instance_id (volume_backup_latest db);
         executed := S (executed db) |}
  end.

(** Both upserts name every column in their UPDATE list. Each is one
    statement: the two [UTC_TIMESTAMP()] of the first are evaluated in the
    same statement, and the next statement evaluates it anew. *)
Definition insert_attached_volume (utc_timestamp : nat → datetime)
    (name : string) (instance_id : string) (v : attached) (db : database)
  : database :=
  {| instance_volume_latest :=
       <[(instance_id, volume_id v) :=
           {| instance_name := name;
              r_volume_name := volume_name v;
              r_volume_type := volume_type v;
              r_size_gbs := size_gbs v;
              r_attachment_type := attachment_type v;
              r_device := device v;
              lifecycle_state := attach_state v;
              r_volume_state := volume_state v;
              r_time_created := time_created v;
              updated_at := utc_timestamp (executed db);
              r_attachment_id := Some (attachment_id v);
              r_attachment_state := Some (attachment_state v);
              last_seen_attached_at := Some (utc_timestamp (executed db)) |}]>
         (instance_volume_latest db);
     volume_backup_latest := volume_backup_latest db;
     executed := S (executed db) |}.

Definition upsert_backup_latest (utc_timestamp : nat → datetime)
    (instance_id vol_id : string) (b : backup_info) (db : database)
  : database :=
  {| instance_volume_latest := instance_volume_latest db;
     volume_backup_latest :=
       <[backup_id b :=
           {| br_instance_id := instance_id;
              br_volume_id := vol_id;
              br_backup_name := backup_name b;
              br_backup_type := backup_type b;
              br_lifecycle_state := bk_lifecycle_state b;
              br_size_gbs := bk_size_gbs b;
              br_time_created := bk_time_created b;
              br_expiration_time := expiration_time b;
              br_updated_at := utc_timestamp (executed db) |}]>
         (volume_backup_latest db);
     executed := S (executed db) |}.

(** The last loop of a turn: the backups of each attached volume. *)
Definition store_backups (cl : client) (utc_timestamp : nat → datetime)
    (inst_id : string) (v : attached) (db : database) : outcome database :=
  match list_backups cl (volume_id v) (is_boot v) (volume_compartment_id v) with
  | Ok backs =>
      Returned
        (fold_left
           (λ d b, upsert_backup_latest utc_timestamp inst_id (volume_id v) b d)
           backs db)
  | ServiceError _ | OtherException => Raised db
  end.

(** What follows a successful [get_instance_info] in a turn. *)
Definition refresh_instance (cl : client) (utc_timestamp : nat → datetime)
    (inst_id : string) (info : instance_info) (db : database)
  : outcome database :=
  match list_boot_attachments cl inst_id (i_compartment_id info)
          (i_availability_domain info) with
  | Ok boots =>
      match list_block_attachments cl inst_id (i_compartment_id info) with
      | Ok blks =>
          let vols := boots ++ blks in
          let db1 :=
            delete_instance_rows instance_volume_latest_table inst_id db in
          let attached_now :=
            filter (λ v, attach_state v ∈ ATTACH_OK) vols in
          let db2 :=
            fold_left
              (λ d v, insert_attached_volume utc_timestamp
                        (i_display_name info) inst_id v d)
              attached_now db1 in
          let db3 :=
            delete_instance_rows volume_backup_latest_table inst_id db2 in
          for_each (store_backups cl utc_timestamp inst_id) attached_now db3
      | ServiceError _ | OtherException => Raised db
      end
  | ServiceError _ | OtherException => Raised db
  end.

(** One turn of [for inst_id in INSTANCE_OCIDS]: a 404 on the instance
    lookup skips the instance, every other failure is raised. *)
Definition refresh (cl : client) (utc_timestamp : nat → datetime)
    (inst_id : string) (db : database) : outcome database :=
  match get_instance cl inst_id 0%nat with
  | Ok info => refresh_instance cl utc_timestamp inst_id info db
  | ServiceError status =>
      if decide (status = 404) then Returned db else Raised db
  | OtherException => Raised db
  end.

Definition main (cl : client) (utc_timestamp : nat → datetime)
    (INSTANCE_OCIDS : list string) (db : database) : outcome database :=
  for_each (refresh cl utc_timestamp) INSTANCE_OCIDS db.

End instance_volume.

(** ** lb_list.py

    [main] (228-347) with [load_compartments_with_parents] (111-128),
    [build_compartment_paths] (131-156), [list_lbs] (161-170) and
    [upsert_lb] (175-223). *)

Module lb_list.

(** An address of a load balancer: the id of its reserved IP, when it has
    one. *)
Record ip_address : Type := {
  reserved_ip : option string;
}.

Record load_balancer : Type := {
  id : string;
  display_name : string;
  shape_name : string;
  is_private : option bool;
  ip_mode : option string;
  lifecycle_state : string;
  subnet_ids : option (list string);
  ip_addresses : option (list ip_address);
  time_created : option datetime;
}.

(** The columns of [oci_lb_inventory] other than the primary key [lb_id]. *)
Record row : Type := {
  tenancy_ocid : string;
  region : string;
  compartment_id : string;
  compartment_name : option string;
  compartment_path : option string;
  r_display_name : string;
  r_shape_name : string;
  r_is_private : Z;
  r_ip_mode : option string;
  r_lifecycle_state : string;
  r_subnet_ids : option string;
  reserved_ips : option string;
  time_created_utc : option datetime;
  last_refreshed_utc : datetime;
}.

Abbreviation table := (gmap string row).

Record config : Type := {
  cfg_tenancy_ocid : string;
  cfg_region : string;
  cfg_tenancy_name : string;
}.

Definition load_compartments_with_parents (response_data : list compartment)
  : PyDict.t compartment :=
  fold_left (λ d c, PyDict.set (c_id c) c d) response_data [].

(** The root is skipped: no entry is written for it. *)
Definition build_compartment_paths (cfg : config)
    (comp_map : PyDict.t compartment) (separator : string) : PyDict.t string :=
  fold_left
    (λ paths '(cid, c),
       if decide (cid = cfg_tenancy_ocid cfg)
       then paths
       else PyDict.set cid
              (two_level_path comp_map (cfg_tenancy_ocid cfg)
                 (cfg_tenancy_name cfg) separator c) paths)
    (PyDict.items comp_map) [].

(** [list_lbs]: every exception is printed and turned into []. *)
Definition list_lbs (list_load_balancers : string → operation (list load_balancer))
    (compartment_id : string) : list load_balancer :=
  match list_load_balancers compartment_id 0%nat with
  | Ok data => data
  | ServiceError _ | OtherException => []
  end.

(** The [ON DUPLICATE KEY UPDATE] list of [upsert_lb]: it leaves out
    [tenancy_ocid], [region] and [compartment_id]. *)
Definition upsert_lb (lb_id : string) (new : row) (tbl : table) : table :=
  match tbl !! lb_id with
  | None => <[lb_id := new]> tbl
  | Some old =>
      <[lb_id := {|
          tenancy_ocid := tenancy_ocid old;
          region := region old;
          compartment_id := compartment_id old;
          compartment_name := compartment_name new;
          compartment_path := compartment_path new;
          r_display_name := r_display_name new;
          r_shape_name := r_shape_name new;
          r_is_private := r_is_private new;
          r_ip_mode := r_ip_mode new;
          r_lifecycle_state := r_lifecycle_state new;
          r_subnet_ids := r_subnet_ids new;
          reserved_ips := reserved_ips new;
          time_created_utc := time_created_utc new;
          last_refreshed_utc := last_refreshed_utc new;
        |}]> tbl
  end.

(** [",".join(lb.subnet_ids) if lb.subnet_ids else None] *)
Definition subnet_ids_of (lb : load_balancer) : option string :=
  match subnet_ids lb with
  | None | Some [] => None
  | Some ids => Some (String.concat "," ids)
  end.

(** The ids of the reserved IPs among the addresses, joined; None when
    there is no address or no reserved IP. *)
Definition reserved_ips_of (lb : load_balancer) : option string :=
  match ip_addresses lb with
  | None | Some [] => None
  | Some ips =>
      match omap reserved_ip ips with
      | [] => None
      | rp => Some (String.concat "," rp)
      end
  end.

Definition make_row (cfg : config) (lb : load_balancer)
    (comp_id comp_name : string) (comp_path : option string)
    (run_ts : datetime) : row :=
  {| tenancy_ocid := cfg_tenancy_ocid cfg;
     region := cfg_region cfg;
     compartment_id := comp_id;
     compartment_name := Some comp_name;
     compartment_path := comp_path;
     r_display_name := display_name lb;
     r_shape_name := shape_name lb;
     r_is_private := match is_private lb with Some true => 1 | _ => 0 end;
     r_ip_mode := ip_mode lb;
     r_lifecycle_state := lifecycle_state lb;
     r_subnet_ids := subnet_ids_of lb;
     reserved_ips := reserved_ips_of lb;
     time_created_utc := time_created lb;
     last_refreshed_utc := run_ts |}.

Definition state : Type := table * gset string.

Definition store_lb (cfg : config) (comp_id comp_name : string)
    (comp_path : option string) (run_ts : datetime) (st : state)
    (lb : load_balancer) : state :=
  (upsert_lb (id lb) (make_row cfg lb comp_id comp_name comp_path run_ts) st.1,
   {[id lb]} ∪ st.2).

(** [compartments]: the values of [comp_map] but the root, if ACTIVE. *)
Definition active_compartments (cfg : config)
    (comp_map : PyDict.t compartment) : list compartment :=
  (filter (λ e, e.1 ≠ cfg_tenancy_ocid cfg ∧ c_lifecycle_state e.2 = "ACTIVE")
     (PyDict.items comp_map)).*2.

(** One turn of [for comp in compartments]. *)
Definition collect_compartment (cfg : config)
    (list_load_balancers : string → operation (list load_balancer))
    (comp_paths : PyDict.t string) (run_ts : datetime) (comp : compartment)
    (st : state) : outcome state :=
  let comp_path := PyDict.get (c_id comp) comp_paths in
  let lbs := list_lbs list_load_balancers (c_id comp) in
  Returned (fold_left (store_lb cfg (c_id comp) (c_name comp) comp_path run_ts)
              lbs st).

(** [WHERE tenancy_ocid = %s AND region = %s] *)
Definition in_scope (cfg : config) (r : row) : Prop :=
  tenancy_ocid r = cfg_tenancy_ocid cfg ∧ region r = cfg_region cfg.

#[global] Instance in_scope_dec cfg r : Decision (in_scope cfg r).
Proof. unfold in_scope. apply _. Defined.

(** The final DELETE, in its two forms. *)
Definition sweep (cfg : config) (seen : gset string) (tbl : table) : table :=
  if decide (seen = ∅)
  then filter (λ kr, ¬ in_scope cfg kr.2) tbl
  else filter (λ kr, ¬ (in_scope cfg kr.2 ∧ kr.1 ∉ seen)) tbl.

(** [main()], from the point where the compartments have been listed. *)
Definition main (cfg : config) (run_ts : datetime)
    (response_data : list compartment)
    (list_load_balancers : string → operation (list load_balancer))
    (tbl : table) : outcome table :=
  let comp_map := load_compartments_with_parents response_data in
  let comp_paths := build_compartment_paths cfg comp_map " > " in
  match for_each
          (collect_compartment cfg list_load_balancers comp_paths run_ts)
          (active_compartments cfg comp_map) (tbl, ∅) with
  | Returned (tbl', seen) => Returned (sweep cfg seen tbl')
  | Raised (tbl', _) => Raised tbl'
  end.

End lb_list.

(** ** insert_usage.py

    The pre-processing of the Usage API response and the summing of
    duplicate services (89-111), up to the list [parsed] that the script
    then writes to the database.  The amounts are floats: they are kept
    abstract, with the [0] the sums start from and Python's [+]; [strip] is
    [str.strip].  A date is a day number.  The constant currency of the
    entries is left out. *)

Module insert_usage.

Section script.

Context {A : Type} (zero : A) (add : A → A → A) (strip : string → string).

Definition date : Type := Z.

(** An item of [response.data.items]. *)
Record usage_item : Type := {
  service : option string;
  computed_amount : option A;
}.

(** [raw_items]: the key (usage_date, service) and the amount of each
    item. *)
Definition raw_items (target_date : date) (items : list usage_item)
  : list (date * string * A) :=
  (λ item, (target_date, strip (py_or (service item) "Unknown"),
            default zero (computed_amount item))) <$> items.

(** The dictionary [aggregated], keyed by (usage_date, service), in
    insertion order. *)
Fixpoint agg_get (k : date * string) (d : list (date * string * A))
  : option A :=
  match d with
  | [] => None
  | (k', v) :: d' => if decide (k = k') then Some v else agg_get k d'
  end.

Fixpoint agg_set (k : date * string) (v : A) (d : list (date * string * A))
  : list (date * string * A) :=
  match d with
  | [] => [(k, v)]
  | (k', v') :: d' =>
      if decide (k = k') then (k, v) :: d' else (k', v') :: agg_set k v d'
  end.

(** [aggregated[key] = aggregated.get(key, 0) + r["computed_amount"]] *)
Definition aggregate (raw : list (date * string * A))
  : list (date * string * A) :=
  fold_left (λ d r, agg_set r.1 (add (default zero (agg_get r.1 d)) r.2) d)
    raw [].

Definition parsed (target_date : date) (items : list usage_item)
  : list (date * string * A) :=
  aggregate (raw_items target_date items).

End script.

End insert_usage.


(** * Vocabulary of the statements *)

(** What the listing calls of a run of adb_list.py hand to the loop, in the
    order in which it is stored: a throttled compartment contributes
    nothing. *)
Definition adb_listing (api : string → operation (list adb_list.adb))
    (comps : list compartment) : list (compartment * adb_list.adb) :=
  comps ≫= λ c, match api (c_id c) 0%nat with
                | Ok adbs => (λ a, (c, a)) <$> adbs
                | ServiceError _ | OtherException => []
                end.

Definition adb_listed_ids (api : string → operation (list adb_list.adb))
    (comps : list compartment) : gset string :=
  list_to_set ((λ p, adb_list.id p.2) <$> adb_listing api comps).

(** The ids of the rows that belong to the (tenancy, region) of [cfg]. *)
Definition adb_ids_in_scope (cfg : adb_list.config)
    (tbl : gmap string adb_list.row) : gset string :=
  dom (filter (λ kr, adb_list.in_scope cfg kr.2) tbl).

(** The same for instance_list.py; a compartment whose listing fails
    contributes nothing. *)
Definition instance_listing
    (api : string → operation (list instance_list.instance))
    (comps : list (string * compartment))
  : list (string * compartment * instance_list.instance) :=
  comps ≫= λ e, (λ i, (e, i)) <$> instance_list.list_instances api e.1.

Definition instance_listed_ids
    (api : string → operation (list instance_list.instance))
    (comps : list (string * compartment)) : gset string :=
  list_to_set ((λ p, instance_list.id p.2) <$> instance_listing api comps).

Definition instance_ids_in_scope (cfg : instance_list.config)
    (tbl : gmap string instance_list.row) : gset string :=
  dom (filter (λ kr, instance_list.in_scope cfg kr.2) tbl).

(** The name [instance_list.build_compartment_paths] uses for the root. *)
Definition instance_list_root_name (cfg : instance_list.config)
    (comp_map : PyDict.t compartment) : string :=
  match PyDict.get (instance_list.cfg_tenancy_ocid cfg) comp_map with
  | Some root => c_name root
  | None => "root"
  end.

(** A response that adb_list.py survives: a payload, or a throttling error
    (HTTP 429), which makes it skip the compartment. *)
Definition survivable {A : Type} (r : response A) : Prop :=
  match r with
  | Ok _ => True
  | ServiceError status => status = 429
  | OtherException => False
  end.

#[global] Instance survivable_dec {A : Type} (r : response A) :
  Decision (survivable r).
Proof. destruct r; simpl; apply _. Defined.

Definition succeeded {A : Type} (r : response A) : Prop :=
  match r with Ok _ => True | ServiceError _ | OtherException => False end.

#[global] Instance succeeded_dec {A : Type} (r : response A) :
  Decision (succeeded r).
Proof. destruct r; simpl; apply _. Defined.

(** One stored item of [adb_listing]. *)
Definition adb_store (cfg : adb_list.config) (paths : PyDict.t string)
    (run_ts : datetime) (st : adb_list.state)
    (p : compartment * adb_list.adb) : adb_list.state :=
  adb_list.upsert_adb_row cfg p.2 p.1 (PyDict.get (c_id p.1) paths) run_ts st.

(** The row that the last item with id [k] leaves, if there is one. *)
Definition adb_last_row (cfg : adb_list.config) (paths : PyDict.t string)
    (run_ts : datetime) (k : string)
    (items : list (compartment * adb_list.adb)) : option adb_list.row :=
  (λ p, adb_list.make_row cfg p.2 p.1 (PyDict.get (c_id p.1) paths) run_ts)
    <$> last (filter (λ p, adb_list.id p.2 = k) items).

(** The path map and the stored items of one run of adb_list.py. *)
Definition adb_paths (cfg : adb_list.config) (response_data : list compartment)
  : PyDict.t string :=
  adb_list.build_compartment_paths (adb_list.cfg_tenancy_name cfg)
    (adb_list.list_all_compartments response_data)
    (adb_list.cfg_tenancy_id cfg) default_separator.

Definition adb_run_items (response_data : list compartment)
    (api : string → operation (list adb_list.adb))
  : list (compartment * adb_list.adb) :=
  adb_listing api (adb_list.list_all_compartments response_data).

(** What [upsert_instance] leaves under a key that held [old]. *)
Definition instance_merge (old : option instance_list.row)
    (new : instance_list.row) : instance_list.row :=
  match old with
  | None => new
  | Some o => instance_list.on_duplicate_key_update o new
  end.

(** The path map, the visited compartments and the stored items of one run
    of instance_list.py. *)
Definition instance_comp_map (cfg : instance_list.config)
    (tenancy_name : string) (response_data : list compartment)
  : PyDict.t compartment :=
  instance_list.load_compartments_with_root cfg tenancy_name response_data.

Definition instance_paths (cfg : instance_list.config) (tenancy_name : string)
    (response_data : list compartment) : PyDict.t string :=
  instance_list.build_compartment_paths cfg
    (instance_comp_map cfg tenancy_name response_data) default_separator.

Definition instance_visited (cfg : instance_list.config)
    (tenancy_name : string) (response_data : list compartment)
  : list (string * compartment) :=
  PyDict.items
    (instance_list.active_comps cfg
       (instance_comp_map cfg tenancy_name response_data)).

Definition instance_new_row (cfg : instance_list.config)
    (paths : PyDict.t string) (run_ts : datetime)
    (p : string * compartment * instance_list.instance) : instance_list.row :=
  instance_list.make_row cfg p.2 p.1.1 (c_name p.1.2)
    (PyDict.get p.1.1 paths) run_ts.

Definition instance_store (cfg : instance_list.config)
    (paths : PyDict.t string) (run_ts : datetime) (st : instance_list.state)
    (p : string * compartment * instance_list.instance) : instance_list.state :=
  instance_list.store_instance cfg p.1.1 (c_name p.1.2)
    (PyDict.get p.1.1 paths) run_ts st p.2.

(** The content of the cell of key [k] after the items have been stored. *)
Definition instance_cell (cfg : instance_list.config)
    (paths : PyDict.t string) (run_ts : datetime) (k : string)
    (items : list (string * compartment * instance_list.instance))
    (old : option instance_list.row) : option instance_list.row :=
  fold_left
    (λ o p, if decide (instance_list.id p.2 = k)
            then Some (instance_merge o (instance_new_row cfg paths run_ts p))
            else o)
    items old.

(** The columns that [upsert_instance] never rewrites. *)
Definition instance_kept (r : instance_list.row) : string * string * string :=
  (instance_list.tenancy_ocid r, instance_list.region r,
   instance_list.r_compartment_id r).

(** What [get_vnic_and_ips] can return: nothing at all, or the VNIC id with
    both address strings. *)
Definition get_vnic_and_ips_spec
    (t : option string * option string * option string) : Prop :=
  let '(vnic_id, priv, pub) := t in
  (vnic_id = None ∧ priv = None ∧ pub = None)
  ∨ (is_Some vnic_id ∧ is_Some priv ∧ is_Some pub).

(** What the lookups of a run of adb_backup.py hand to the loop: each
    backup with the status and the name of its database; a database whose
    lookup or listing fails contributes nothing. *)
Definition adb_backup_listing (cl : adb_backup.client)
    (ADB_OCIDS : list string) : list (string * string * adb_backup.backup) :=
  ADB_OCIDS ≫= λ a,
    match adb_backup.get_adb_info cl a, adb_backup.get_all_backups cl a with
    | Ok (status, name), Ok backups => (λ b, (status, name, b)) <$> backups
    | _, _ => []
    end.


Definition adb_backup_store (utcnow : datetime) (st : adb_backup.state)
    (p : string * string * adb_backup.backup) : adb_backup.state :=
  (adb_backup.save_backup_to_mysql utcnow p.1.2 p.1.1 p.2 st.1,
   {[adb_backup.id p.2]} ∪ st.2).

(** The backups on the pages of a listing, up to the first failure. *)
Fixpoint paged_data {A : Type} (p : dbcs_backup.paged A) : list A :=
  match p with
  | dbcs_backup.LastPage data => data
  | dbcs_backup.MorePages data next_page => data ++ paged_data next_page
  | dbcs_backup.PageServiceError _ | dbcs_backup.PageOtherException => []
  end.

(** What the listings of a run of dbcs_backup.py hand to the loop: each
    backup with the name resolved for its database. *)
Definition dbcs_listing (cl : dbcs_backup.client) (DB_OCIDS : list string)
  : list (string * dbcs_backup.backup) :=
  DB_OCIDS ≫= λ d, (λ b, (dbcs_backup.resolve_db_name cl d, b))
                     <$> paged_data (dbcs_backup.list_backups cl d).

Definition dbcs_store (lookback : option datetime) (st : dbcs_backup.state)
    (p : string * dbcs_backup.backup) : dbcs_backup.state :=
  dbcs_backup.store_backup lookback p.1 st p.2.

(** The ids of the listed backups that are not older than the window. *)
Definition dbcs_seen_ids (cl : dbcs_backup.client) (now : datetime)
    (DB_OCIDS : list string) : gset string :=
  list_to_set
    ((λ p, dbcs_backup.id p.2)
       <$> filter (λ p, dbcs_backup.too_old (dbcs_backup.lookback_ts now) p.2
                        = false)
             (dbcs_listing cl DB_OCIDS)).

(** Every page of a listing arrives. *)
Fixpoint paged_ok {A : Type} (p : dbcs_backup.paged A) : bool :=
  match p with
  | dbcs_backup.LastPage _ => true
  | dbcs_backup.MorePages _ next_page => paged_ok next_page
  | dbcs_backup.PageServiceError _ | dbcs_backup.PageOtherException => false
  end.

(** The row that dbcs_backup.py builds for backup [b] of the database it
    calls [name]. *)
Definition dbcs_new_row (name : string) (b : dbcs_backup.backup)
  : dbcs_backup.row :=
  {| dbcs_backup.db_name := name;
     dbcs_backup.r_type := dbcs_backup.type b;
     dbcs_backup.r_time_started := dbcs_backup.to_dt (dbcs_backup.time_started b);
     dbcs_backup.r_time_ended := dbcs_backup.to_dt (dbcs_backup.time_ended b);
     dbcs_backup.r_lifecycle_state := dbcs_backup.lifecycle_state b;
     dbcs_backup.size_bytes := dbcs_backup.parse_size_fields b;
     dbcs_backup.r_display_name := dbcs_backup.display_name b;
     dbcs_backup.r_freeform_tags := dbcs_backup.freeform_tags b |}.

(** A stored row that lies in the window that starts at [from]. *)
Definition in_window (from : datetime) (r : dbcs_backup.row) : Prop :=
  match dbcs_backup.r_time_started r with
  | Some ts => from ≤ ts
  | None => True
  end.

(** What the loop of filesystem_list.py keeps true of its state at run
    timestamp [ts]: every seen id has a row written in this run; a seen file
    system points to a seen snapshot, if to any; a seen export belongs to a
    seen mount target. *)
Definition filesystem_seen_rows (ts : datetime) (st : filesystem_list.state)
  : Prop :=
  (∀ k, k ∈ filesystem_list.seen_fs_ids st →
        ∃ r, filesystem_list.filesystems st !! k = Some r
             ∧ filesystem_list.last_seen_at r = ts
             ∧ ∀ sid, filesystem_list.latest_snapshot_id r = Some sid →
                      sid ∈ filesystem_list.seen_snapshot_ids st)
  ∧ (∀ k, k ∈ filesystem_list.seen_snapshot_ids st →
          ∃ r, filesystem_list.snapshots st !! k = Some r
               ∧ filesystem_list.sn_last_seen_at r = ts)
  ∧ (∀ k, k ∈ filesystem_list.seen_mt_ids st →
          ∃ r, filesystem_list.mount_targets st !! k = Some r
               ∧ filesystem_list.m_last_seen_at r = ts)
  ∧ (∀ k, k ∈ filesystem_list.seen_export_ids st →
          ∃ r, filesystem_list.exports st !! k = Some r
               ∧ filesystem_list.e_last_seen_at r = ts
               ∧ filesystem_list.e_mt_id r
                 ∈ filesystem_list.seen_mt_ids st).






(** instance_volume.py: [attached_now] of a turn, and the order
    [list_backups] returns. *)
Definition attached_now (boots blks : list instance_volume.attached)
  : list instance_volume.attached :=
  filter (λ v, instance_volume.attach_state v ∈ instance_volume.ATTACH_OK)
    (boots ++ blks).

Definition latest_first (l : list instance_volume.backup_info) : Prop :=
  StronglySorted
    (λ a b, instance_volume.sort_key b ≤ instance_volume.sort_key a) l.

(** dbcs_list.py: a row whose two database columns were computed from one
    list of non-empty names, at timestamp [ts]. *)
Definition dbcs_row_written (ts : datetime) (r : dbcs_list.row) : Prop :=
  dbcs_list.last_refreshed_utc r = ts
  ∧ ∃ names : list string,
      Forall (λ n, n ≠ "") names
      ∧ dbcs_list.db_home_count r = Z.of_nat (length names)
      ∧ dbcs_list.db_name_list r
        = match names with
          | [] => None
          | _ => Some (String.concat "," names)
          end.


(** * The Retry Policy of the design document

    This is not code of the repository: it is the [execute] contract as the
    design document words it, kept apart so that the scripts' handling of
    HTTP 429 can be compared with it.  [max_attempts] bounds the number of
    invocations; [k] is the index of the next one. *)

Inductive retry_outcome (A : Type) : Type :=
| RetryOk (a : A)
| ThrottleExceeded
| Propagated (failure : response A).

Arguments RetryOk {A} a.
Arguments ThrottleExceeded {A}.
Arguments Propagated {A} failure.

Fixpoint design_retry_execute {A : Type} (max_attempts : nat) (k : nat)
    (op : operation A) : retry_outcome A :=
  match max_attempts with
  | O => ThrottleExceeded
  | S n =>
      match op k with
      | Ok a => RetryOk a
      | ServiceError status =>
          if decide (status = 429) then design_retry_execute n (S k) op
          else Propagated (ServiceError status)
      | OtherException => Propagated OtherException
      end
  end.

(** * Concrete runs *)

Module Scenario.

Definition tenancy : string := "ocid1.tenancy.oc1..acme".

Definition team_a : compartment :=
  {| c_id := "c1"; c_name := "teamA"; c_compartment_id := Some tenancy;
     c_lifecycle_state := "ACTIVE" |}.

Definition sub_1 : compartment :=
  {| c_id := "c2"; c_name := "sub1"; c_compartment_id := Some "c1";
     c_lifecycle_state := "ACTIVE" |}.

(** The nodes of the design document's example: [c1] has a null parent. *)
Definition team_a_null_parent : compartment :=
  {| c_id := "c1"; c_name := "teamA"; c_compartment_id := None;
     c_lifecycle_state := "ACTIVE" |}.

Definition nodes : list compartment := [team_a_null_parent; sub_1].

Definition compartments : list compartment := [team_a; sub_1].

(** adb_list.py *)

Definition adb_cfg : adb_list.config :=
  {| adb_list.cfg_tenancy_id := tenancy;
     adb_list.cfg_region := "ap-seoul-1";
     adb_list.cfg_tenancy_name := "acme" |}.

Definition adb (k : string) : adb_list.adb :=
  {| adb_list.id := k;
     adb_list.display_name := Some k;
     adb_list.db_name := Some k;
     adb_list.db_workload := Some "OLTP";
     adb_list.lifecycle_state := Some "AVAILABLE";
     adb_list.compute_count := Some 2;
     adb_list.cpu_core_count := None;
     adb_list.data_storage_size_in_tbs := Some 1;
     adb_list.is_auto_scaling_enabled := false;
     adb_list.time_created := Some 1700000000 |}.

(** Run 1 sees a and b in c1 and c in c2; run 2 no longer sees b. *)
Definition adb_api_1 : string → operation (list adb_list.adb) :=
  λ cid, always (if decide (cid = "c1") then Ok [adb "a"; adb "b"]
                 else Ok [adb "c"]).

Definition adb_api_2 : string → operation (list adb_list.adb) :=
  λ cid, always (if decide (cid = "c1") then Ok [adb "a"]
                 else Ok [adb "c"]).

Definition adb_table_1 : gmap string adb_list.row :=
  final_state (adb_list.main adb_cfg 1000 compartments adb_api_1 ∅).

Definition adb_table_2 : gmap string adb_list.row :=
  final_state (adb_list.main adb_cfg 2000 compartments adb_api_2 adb_table_1).

(** instance_list.py *)

Definition inst_cfg : instance_list.config :=
  {| instance_list.cfg_tenancy_ocid := tenancy;
     instance_list.cfg_region := "ap-seoul-1" |}.

Definition inst (k comp : string) : instance_list.instance :=
  {| instance_list.id := k;
     instance_list.compartment_id := comp;
     instance_list.display_name := k;
     instance_list.shape := "VM.Standard.E4.Flex";
     instance_list.shape_ocpus := Some 2;
     instance_list.shape_memory_in_gbs := Some 16;
     instance_list.lifecycle_state := "RUNNING";
     instance_list.availability_domain := Some "AD-1";
     instance_list.time_created := Some 1700000000;
     instance_list.vnic_attachments := Ok [];
     instance_list.get_vnic := λ _, OtherException |}.

Definition inst_api_1 : string → operation (list instance_list.instance) :=
  λ cid, always (if decide (cid = "c1") then Ok [inst "a" "c1"; inst "b" "c1"]
                 else Ok [inst "c" "c2"]).

Definition inst_api_2 : string → operation (list instance_list.instance) :=
  λ cid, always (if decide (cid = "c1") then Ok [inst "a" "c1"]
                 else Ok [inst "c" "c2"]).

Definition inst_table_1 : gmap string instance_list.row :=
  final_state
    (instance_list.main inst_cfg 1000 "acme" compartments inst_api_1 ∅).

Definition inst_table_2 : gmap string instance_list.row :=
  final_state
    (instance_list.main inst_cfg 2000 "acme" compartments inst_api_2
       inst_table_1).

(** adb_backup.py: one monitored database, one stored backup. *)

Definition backup_row (name : string) : adb_backup.row :=
  {| adb_backup.adb_name := name;
     adb_backup.adb_status := Some "AVAILABLE";
     adb_backup.backup_status := Some "ACTIVE";
     adb_backup.r_time_started := Some 1700000000;
     adb_backup.r_time_ended := Some 1700003600;
     adb_backup.created_at := 1700007200 |}.

Definition adb_backup_of (k : string) : adb_backup.backup :=
  {| adb_backup.id := k;
     adb_backup.lifecycle_state := Some "ACTIVE";
     adb_backup.time_started := Some 1700000000;
     adb_backup.time_ended := Some 1700003600 |}.

(** The backup listing of every database is empty. *)
Definition quiet_backup_client : adb_backup.client :=
  {| adb_backup.get_autonomous_database := λ _, always (Ok ("AVAILABLE", "ADB1"));
     adb_backup.list_autonomous_database_backups := λ _, always (Ok []) |}.

(** The backup listing of [adb1] fails, that of [adb2] returns [bk2]. *)
Definition failing_backup_client : adb_backup.client :=
  {| adb_backup.get_autonomous_database :=
       λ k, always (Ok ("AVAILABLE", if decide (k = "adb1") then "ADB1" else "ADB2"));
     adb_backup.list_autonomous_database_backups :=
       λ k, always (if decide (k = "adb1") then ServiceError 500
                    else Ok [adb_backup_of "bk2"]) |}.

Definition backup_table : gmap string adb_backup.row :=
  <["bk1" := backup_row "ADB1"]> (<["bk2" := backup_row "ADB2"]> ∅).

(** instance_list.py: the listing of c1 fails, that of c2 returns c. *)
Definition inst_api_failing : string → operation (list instance_list.instance) :=
  λ cid, always (if decide (cid = "c1") then ServiceError 500
                 else Ok [inst "c" "c2"]).

(** Upstreams with nothing to list. *)
Definition adb_api_empty : string → operation (list adb_list.adb) :=
  λ _, always (Ok []).

Definition inst_api_empty : string → operation (list instance_list.instance) :=
  λ _, always (Ok []).

(** dbcs_backup.py *)

Definition dbcs_row (name : string) (started : datetime) : dbcs_backup.row :=
  {| dbcs_backup.db_name := name;
     dbcs_backup.r_type := Some "FULL";
     dbcs_backup.r_time_started := Some started;
     dbcs_backup.r_time_ended := Some (started + 3600);
     dbcs_backup.r_lifecycle_state := Some "ACTIVE";
     dbcs_backup.size_bytes := Some 1024;
     dbcs_backup.r_display_name := Some "nightly";
     dbcs_backup.r_freeform_tags := None |}.

Definition dbcs_backup_of (k : string) (started : datetime)
  : dbcs_backup.backup :=
  {| dbcs_backup.id := k;
     dbcs_backup.type := Some "FULL";
     dbcs_backup.time_started := Some started;
     dbcs_backup.time_ended := Some (started + 3600);
     dbcs_backup.lifecycle_state := Some "ACTIVE";
     dbcs_backup.size_in_bytes := Some 1024;
     dbcs_backup.size_in_gbs := None;
     dbcs_backup.size_in_mbs := None;
     dbcs_backup.size_in_gigabytes := None;
     dbcs_backup.display_name := Some "nightly";
     dbcs_backup.freeform_tags := None |}.

Definition dbcs_database (name : string) : dbcs_backup.database :=
  {| dbcs_backup.d_db_name := Some name;
     dbcs_backup.d_db_unique_name := None;
     dbcs_backup.d_display_name := None |}.

Definition quiet_dbcs_client : dbcs_backup.client :=
  {| dbcs_backup.get_database := λ _, always (Ok (dbcs_database "DBA"));
     dbcs_backup.list_backups := λ _, dbcs_backup.LastPage [] |}.

(** The clock of the dbcs_backup.py runs, and a backup of another database
    stored by an earlier run. *)
Definition dbcs_now : datetime := 1700000000.

Definition dbcs_table : gmap string dbcs_backup.row :=
  <["old" := dbcs_row "DBB" (dbcs_now - 86400)]> ∅.

(** Database [dba] has one recent backup [x] and one, [y], that started 20
    days before the run. *)
Definition dbcs_client : dbcs_backup.client :=
  {| dbcs_backup.get_database := λ _, always (Ok (dbcs_database "DBA"));
     dbcs_backup.list_backups :=
       λ _, dbcs_backup.MorePages [dbcs_backup_of "x" (dbcs_now - 86400)]
              (dbcs_backup.LastPage
                 [dbcs_backup_of "y" (dbcs_now - 20 * 86400)]) |}.

(** The listing of c1 is throttled on its first two invocations and
    succeeds on the third; c2 answers at once. *)
Definition throttled_twice : operation (list adb_list.adb) :=
  λ k, if decide (k < 2)%nat then ServiceError 429 else Ok [adb "a"; adb "b"].

Definition adb_api_throttled : string → operation (list adb_list.adb) :=
  λ cid, if decide (cid = "c1") then throttled_twice else always (Ok [adb "c"]).

(** Every listing is throttled, whatever the invocation. *)
Definition adb_api_all_throttled : string → operation (list adb_list.adb) :=
  λ _, always (ServiceError 429).

(** Instance a, stored under compartment c1, is listed again after it has
    been moved to compartment c2. *)
Definition inst_row_in (comp : compartment) (k : string) (ts : datetime)
  : instance_list.row :=
  instance_list.make_row inst_cfg (inst k (c_id comp)) (c_id comp)
    (c_name comp) (Some ("acme > " +:+ c_name comp)) ts.

Definition inst_table_a : gmap string instance_list.row :=
  <["a" := inst_row_in team_a "a" 1000]> ∅.

(** filesystem_list.py: compartment c1, one availability domain. *)

Definition fs_cfg : filesystem_list.config :=
  {| filesystem_list.cfg_tenancy_id := tenancy;
     filesystem_list.cfg_tenancy_name := "acme" |}.

Definition fs1 : filesystem_list.file_system :=
  {| filesystem_list.fs_id := "fs1";
     filesystem_list.fs_display_name := "data";
     filesystem_list.fs_compartment_id := "c1";
     filesystem_list.fs_availability_domain := "AD-1";
     filesystem_list.fs_lifecycle_state := "ACTIVE";
     filesystem_list.fs_time_created := Some 1700000000;
     filesystem_list.fs_metered_bytes := Some 4096 |}.

Definition mt1 : filesystem_list.mount_target :=
  {| filesystem_list.mt_id := "mt1";
     filesystem_list.mt_display_name := "mount";
     filesystem_list.mt_compartment_id := "c1";
     filesystem_list.mt_availability_domain := "AD-1";
     filesystem_list.mt_lifecycle_state := "ACTIVE";
     filesystem_list.mt_time_created := Some 1700000000;
     filesystem_list.mt_subnet_id := Some "subnet1";
     filesystem_list.mt_export_set_id := Some "es1" |}.

Definition fs_empty_db : filesystem_list.state :=
  {| filesystem_list.filesystems := ∅;
     filesystem_list.snapshots := ∅;
     filesystem_list.mount_targets := ∅;
     filesystem_list.exports := ∅;
     filesystem_list.seen_fs_ids := ∅;
     filesystem_list.seen_snapshot_ids := ∅;
     filesystem_list.seen_mt_ids := ∅;
     filesystem_list.seen_export_ids := ∅ |}.

(** The file system fs1 has been deleted between its listing and the
    listing of its snapshots. *)
Definition fs_client_snapshots_404 : filesystem_list.client :=
  {| filesystem_list.list_file_systems := λ _ _, always (Ok [fs1]);
     filesystem_list.list_mount_targets := λ _ _, always (Ok []);
     filesystem_list.list_snapshots := λ _, always (ServiceError 404);
     filesystem_list.list_exports := λ _ _, always (Ok []) |}.

(** The mount target mt1 has been deleted between its listing and the
    listing of its exports. *)
Definition fs_client_exports_404 : filesystem_list.client :=
  {| filesystem_list.list_file_systems := λ _ _, always (Ok []);
     filesystem_list.list_mount_targets := λ _ _, always (Ok [mt1]);
     filesystem_list.list_snapshots := λ _, always (Ok []);
     filesystem_list.list_exports := λ _ _, always (ServiceError 404) |}.

(** adb_list.py: a row that belongs to the same tenancy in another region,
    and an upstream whose listing of c1 fails with HTTP 500. *)
Definition adb_row_phoenix : adb_list.row :=
  adb_list.make_row
    {| adb_list.cfg_tenancy_id := tenancy;
       adb_list.cfg_region := "us-phoenix-1";
       adb_list.cfg_tenancy_name := "acme" |}
    (adb "z") team_a None 1000.

Definition adb_api_failing : string → operation (list adb_list.adb) :=
  λ cid, always (if decide (cid = "c1") then ServiceError 500
                 else Ok [adb "c"]).

(** adb_backup.py: the database adb2 has been renamed since its backup bk2
    was stored. *)
Definition renaming_backup_client : adb_backup.client :=
  {| adb_backup.get_autonomous_database :=
       λ _, always (Ok ("AVAILABLE", "RENAMED"));
     adb_backup.list_autonomous_database_backups :=
       λ _, always (Ok [adb_backup_of "bk2"]) |}.

(** dbcs_backup.py: the second page of the listing of [dba] fails. *)
Definition dbcs_client_page_failure : dbcs_backup.client :=
  {| dbcs_backup.get_database := λ _, always (Ok (dbcs_database "DBA"));
     dbcs_backup.list_backups :=
       λ _, dbcs_backup.MorePages [dbcs_backup_of "x" (dbcs_now - 86400)]
              (dbcs_backup.PageServiceError 500) |}.

(** A backup that reports its size in gigabytes only, under either of the
    two attribute names. *)
Definition dbcs_backup_sized (gbs gigabytes : option Z) : dbcs_backup.backup :=
  {| dbcs_backup.id := "s";
     dbcs_backup.type := Some "FULL";
     dbcs_backup.time_started := None;
     dbcs_backup.time_ended := None;
     dbcs_backup.lifecycle_state := Some "ACTIVE";
     dbcs_backup.size_in_bytes := None;
     dbcs_backup.size_in_gbs := gbs;
     dbcs_backup.size_in_mbs := None;
     dbcs_backup.size_in_gigabytes := gigabytes;
     dbcs_backup.display_name := None;
     dbcs_backup.freeform_tags := None |}.

(** filesystem_list.py: a snapshot created at [created]. *)
Definition snap (k : string) (created : datetime) : filesystem_list.snapshot :=
  {| filesystem_list.s_id := k;
     filesystem_list.s_name := k;
     filesystem_list.s_lifecycle_state := "ACTIVE";
     filesystem_list.s_time_created := created;
     filesystem_list.s_time_ended := None |}.

(** A healthy upstream: file system fs1 with two snapshots, mount target
    mt1 with one export; and the database that a run against it leaves. *)
Definition ex1 : filesystem_list.export :=
  {| filesystem_list.ex_id := "ex1";
     filesystem_list.ex_file_system_id := "fs1";
     filesystem_list.ex_path := "/data";
     filesystem_list.ex_lifecycle_state := "ACTIVE";
     filesystem_list.ex_time_created := Some 1700000000 |}.

Definition fs_client_healthy : filesystem_list.client :=
  {| filesystem_list.list_file_systems :=
       λ _ cid, always (Ok (if decide (cid = "c1") then [fs1] else []));
     filesystem_list.list_mount_targets :=
       λ _ cid, always (Ok (if decide (cid = "c1") then [mt1] else []));
     filesystem_list.list_snapshots :=
       λ _, always (Ok [snap "s1" 10; snap "s2" 20]);
     filesystem_list.list_exports := λ _ _, always (Ok [ex1]) |}.

Definition fs_db_1 : filesystem_list.state :=
  final_state
    (filesystem_list.main fs_cfg fs_client_healthy 1000 compartments ["AD-1"]
       fs_empty_db).

(** instance_volume.py: instance i1 has a boot volume and two block
    volumes, one of them detached; the backup listing works for vol1 only,
    and the resource search is down. *)
Definition vol (k : string) : instance_volume.volume :=
  {| instance_volume.v_id := k;
     instance_volume.v_display_name := k;
     instance_volume.v_size_in_gbs := Some 50;
     instance_volume.v_lifecycle_state := "AVAILABLE";
     instance_volume.v_time_created := Some 1700000000;
     instance_volume.v_compartment_id := "c1" |}.

Definition att (k state vol_id : string) : instance_volume.attachment :=
  {| instance_volume.a_id := k;
     instance_volume.a_lifecycle_state := state;
     instance_volume.a_volume_id := vol_id;
     instance_volume.a_attachment_type := Some "paravirtualized";
     instance_volume.a_device := None |}.

Definition vol_backup (k : string) (created : option datetime)
  : instance_volume.volume_backup :=
  {| instance_volume.b_id := k;
     instance_volume.b_display_name := Some k;
     instance_volume.b_type := Some "FULL";
     instance_volume.b_lifecycle_state := Some "AVAILABLE";
     instance_volume.b_size_in_gbs := Some 50;
     instance_volume.b_time_created := created;
     instance_volume.b_expiration_time := None |}.

Definition vol_info : instance_volume.instance_info :=
  {| instance_volume.i_display_name := "web-1";
     instance_volume.i_compartment_id := "c1";
     instance_volume.i_availability_domain := "AD-1" |}.

Definition vol_client : instance_volume.client :=
  {| instance_volume.get_instance := λ _, always (Ok vol_info);
     instance_volume.list_volume_attachments :=
       λ _ _, always (Ok [att "att1" "ATTACHED" "vol1";
                          att "att2" "DETACHED" "vol2"]);
     instance_volume.list_boot_volume_attachments :=
       λ _ _ _, always (Ok [att "att0" "ATTACHED" "boot1"]);
     instance_volume.get_volume := λ k, always (Ok (vol k));
     instance_volume.get_boot_volume := λ k, always (Ok (vol k));
     instance_volume.list_volume_backups :=
       λ _ v, always (if decide (v = "vol1")
                      then Ok [vol_backup "b1" (Some 10);
                               vol_backup "b2" (Some 20)]
                      else ServiceError 404);
     instance_volume.list_boot_volume_backups := λ _ _, always (Ok []);
     instance_volume.search_resources := λ _, always (ServiceError 500);
     instance_volume.get_volume_backup := λ _, always OtherException;
     instance_volume.get_boot_volume_backup := λ _, always OtherException |}.

(** What an earlier run left: a volume that i1 no longer has, and a volume
    of an instance that is not monitored any more. *)
Definition vol_row (name : string) : instance_volume.volume_row :=
  {| instance_volume.instance_name := name;
     instance_volume.r_volume_name := "old";
     instance_volume.r_volume_type := "block";
     instance_volume.r_size_gbs := Some 50;
     instance_volume.r_attachment_type := Some "paravirtualized";
     instance_volume.r_device := None;
     instance_volume.lifecycle_state := "ATTACHED";
     instance_volume.r_volume_state := "AVAILABLE";
     instance_volume.r_time_created := Some 1600000000;
     instance_volume.updated_at := 1000;
     instance_volume.r_attachment_id := Some "att9";
     instance_volume.r_attachment_state := Some "ATTACHED";
     instance_volume.last_seen_attached_at := Some 1000 |}.

Definition vol_db : instance_volume.database :=
  {| instance_volume.instance_volume_latest :=
       <[("i1", "vol9") := vol_row "web-1"]>
         (<[("i0", "vol0") := vol_row "gone"]> ∅);
     instance_volume.volume_backup_latest := ∅;
     instance_volume.executed := 0 |}.

(** A server clock that advances by a second with each statement. *)
Definition vol_clock (n : nat) : datetime := 2000 + Z.of_nat n.

(** dbcs_list.py: compartment c1 holds the DB systems d1 and d2; d1 has
    one home with two named databases and one that has no name yet; the
    listing of the homes of d2 is throttled. *)
Definition dbcs_cfg : dbcs_list.config :=
  {| dbcs_list.cfg_tenancy_ocid := tenancy;
     dbcs_list.cfg_region := "ap-seoul-1";
     dbcs_list.cfg_tenancy_name := "acme" |}.

Definition db_system (k : string) : dbcs_list.db_system :=
  {| dbcs_list.id := k;
     dbcs_list.display_name := k;
     dbcs_list.lifecycle_state := "AVAILABLE";
     dbcs_list.shape := "VM.Standard2.4";
     dbcs_list.cpu_core_count := Some 4;
     dbcs_list.data_storage_size_in_gb := Some 256;
     dbcs_list.node_count := Some 1;
     dbcs_list.license_model := Some "LICENSE_INCLUDED";
     dbcs_list.time_created := Some 1700000000 |}.

Definition dbcs_client_throttled : dbcs_list.client :=
  {| dbcs_list.list_db_systems :=
       λ cid, always (Ok (if decide (cid = "c1")
                          then [db_system "d1"; db_system "d2"] else []));
     dbcs_list.list_db_homes :=
       λ _ d, always (if decide (d = "d1") then Ok ["h1"]
                      else ServiceError 429);
     dbcs_list.list_databases :=
       λ _ _, always (Ok [Some "ORCL"; None; Some "TEST"]) |}.

Definition dbcs_list_table : gmap string dbcs_list.row :=
  <["d2" := dbcs_list.make_row dbcs_cfg (db_system "d2") ["PROD"] "teamA" "c1"
              (Some "acme > teamA") 1000]> ∅.

(** The same upstream when the home listing of d2 fails with HTTP 500. *)
Definition dbcs_client_failing : dbcs_list.client :=
  {| dbcs_list.list_db_systems :=
       λ cid, always (Ok (if decide (cid = "c1")
                          then [db_system "d1"; db_system "d2"] else []));
     dbcs_list.list_db_homes :=
       λ _ d, always (if decide (d = "d1") then Ok ["h1"]
                      else ServiceError 500);
     dbcs_list.list_databases :=
       λ _ _, always (Ok [Some "ORCL"; None; Some "TEST"]) |}.

(** instance_list.py: instance a is stored as a row of another region. *)
Definition inst_cfg_phoenix : instance_list.config :=
  {| instance_list.cfg_tenancy_ocid := tenancy;
     instance_list.cfg_region := "us-phoenix-1" |}.

Definition inst_table_phoenix : gmap string instance_list.row :=
  <["a" := instance_list.make_row inst_cfg_phoenix (inst "a" "c9") "c9"
             "other" None 1000]> ∅.

(** The same snapshots, now listed under a file system fs2. *)
Definition fs2 : filesystem_list.file_system :=
  {| filesystem_list.fs_id := "fs2";
     filesystem_list.fs_display_name := "data2";
     filesystem_list.fs_compartment_id := "c1";
     filesystem_list.fs_availability_domain := "AD-1";
     filesystem_list.fs_lifecycle_state := "ACTIVE";
     filesystem_list.fs_time_created := Some 1700000000;
     filesystem_list.fs_metered_bytes := Some 4096 |}.

Definition fs_client_moved : filesystem_list.client :=
  {| filesystem_list.list_file_systems :=
       λ _ cid, always (Ok (if decide (cid = "c1") then [fs2] else []));
     filesystem_list.list_mount_targets := λ _ _, always (Ok []);
     filesystem_list.list_snapshots :=
       λ _, always (Ok [snap "s1" 10; snap "s2" 20]);
     filesystem_list.list_exports := λ _ _, always (Ok []) |}.




(** insert_usage.py with integer amounts: the response for day 19000 names
    Compute three times and carries an item without a service name. *)
Definition usage_items : list (@insert_usage.usage_item Z) :=
  [{| insert_usage.service := Some "Compute";
      insert_usage.computed_amount := Some 10 |};
   {| insert_usage.service := None;
      insert_usage.computed_amount := Some 2 |};
   {| insert_usage.service := Some "Compute";
      insert_usage.computed_amount := None |};
   {| insert_usage.service := Some "Compute";
      insert_usage.computed_amount := Some 5 |}].

End Scenario.

(** * Properties *)

Set Warnings "-clear-no-such-hyp".

(** ** Dictionaries *)

Section pydict_facts.
Context {V : Type}.
Implicit Types (d : PyDict.t V) (k : string) (v : V).

Lemma pydict_get_set d k k' v :
  PyDict.get k (PyDict.set k' v d)
  = if decide (k = k') then Some v else PyDict.get k d.
Proof.
  induction d as [|[k0 v0] d IH]; simpl.
  - repeat case_decide; congruence.
  - destruct (decide (k' = k0)) as [->|Hne]; simpl.
    + repeat case_decide; congruence.
    + rewrite IH. repeat case_decide; congruence.
Qed.

Lemma pydict_get_set_eq d k v : PyDict.get k (PyDict.set k v d) = Some v.
Proof. rewrite pydict_get_set. by case_decide. Qed.

Lemma pydict_get_set_ne d k k' v :
  k ≠ k' → PyDict.get k (PyDict.set k' v d) = PyDict.get k d.
Proof. intros. rewrite pydict_get_set. by case_decide. Qed.

Lemma pydict_elem_keys_set d k v x :
  x ∈ PyDict.keys (PyDict.set k v d) ↔ x = k ∨ x ∈ PyDict.keys d.
Proof.
  unfold PyDict.keys. induction d as [|[k0 v0] d IH]; simpl.
  - rewrite list_elem_of_singleton, elem_of_nil. tauto.
  - case_decide; subst; simpl; rewrite ?elem_of_cons, ?IH; tauto.
Qed.

Lemma pydict_set_wf d k v : PyDict.wf d → PyDict.wf (PyDict.set k v d).
Proof.
  unfold PyDict.wf, PyDict.keys.
  induction d as [|[k0 v0] d IH]; simpl; intros Hnd.
  - apply NoDup_singleton.
  - apply NoDup_cons in Hnd as [Hnotin Hnd].
    case_decide; subst; simpl; apply NoDup_cons; split; auto.
    intros Hin. apply (pydict_elem_keys_set d k v k0) in Hin. naive_solver.
Qed.

Lemma pydict_get_None d k : PyDict.get k d = None ↔ k ∉ PyDict.keys d.
Proof.
  unfold PyDict.keys. induction d as [|[k0 v0] d IH]; simpl.
  - split; [intros _; apply not_elem_of_nil | done].
  - rewrite not_elem_of_cons. case_decide; subst; [naive_solver|].
    rewrite IH. tauto.
Qed.

Lemma pydict_get_is_Some d k : is_Some (PyDict.get k d) ↔ k ∈ PyDict.keys d.
Proof.
  rewrite <-not_eq_None_Some, pydict_get_None.
  split; [apply dec_stable | auto].
Qed.

Lemma pydict_of_list_wf (key : V → string) (l : list V) d :
  PyDict.wf d → PyDict.wf (fold_left (λ d c, PyDict.set (key c) c d) l d).
Proof.
  revert d. induction l as [|c l IH]; simpl; auto using pydict_set_wf.
Qed.

Lemma pydict_of_list_keys (key : V → string) (l : list V) d k :
  k ∈ PyDict.keys d →
  k ∈ PyDict.keys (fold_left (λ d c, PyDict.set (key c) c d) l d).
Proof.
  revert d. induction l as [|c l IH]; simpl; auto.
  intros d Hk. apply IH, pydict_elem_keys_set. auto.
Qed.

End pydict_facts.

(** A loop over the items of a dictionary that writes at most the entry of
    the key it visits. *)
Lemma pydict_get_fold_items {V W : Type} (g : string → V → option W)
    (step : PyDict.t W → string * V → PyDict.t W) (d : PyDict.t V)
    (init : PyDict.t W) (k : string) :
  (∀ p cid c, step p (cid, c)
              = match g cid c with Some w => PyDict.set cid w p | None => p end) →
  PyDict.wf d →
  PyDict.get k (fold_left step (PyDict.items d) init)
  = match PyDict.get k d with
    | Some c => match g k c with Some w => Some w | None => PyDict.get k init end
    | None => PyDict.get k init
    end.
Proof.
  intros Hstep. unfold PyDict.items, PyDict.wf, PyDict.keys.
  revert init. induction d as [|[k0 c0] d IH]; simpl; intros init Hnd; [done|].
  apply NoDup_cons in Hnd as [Hnotin Hnd].
  rewrite IH, Hstep by done.
  destruct (decide (k = k0)) as [->|Hne].
  - assert (PyDict.get k0 d = None) as -> by (by apply pydict_get_None).
    destruct (g k0 c0); [apply pydict_get_set_eq | done].
  - destruct (PyDict.get k d) as [c|]; destruct (g k0 c0);
      rewrite ?pydict_get_set_ne by done; done.
Qed.


(** ** The two-level compartment paths *)

Lemma adb_list_comp_map_wf (compartments : list compartment) :
  PyDict.wf (adb_list.comp_map_of compartments).
Proof. apply pydict_of_list_wf, NoDup_nil_2. Qed.

Lemma adb_list_paths_get (tname : string) (compartments : list compartment)
    (tid sep cid : string) :
  PyDict.get cid (adb_list.build_compartment_paths tname compartments tid sep)
  = two_level_path (adb_list.comp_map_of compartments) tid tname sep
      <$> PyDict.get cid (adb_list.comp_map_of compartments).
Proof.
  unfold adb_list.build_compartment_paths.
  rewrite (pydict_get_fold_items
             (λ _ c, Some (two_level_path (adb_list.comp_map_of compartments)
                             tid tname sep c)));
    [| by intros p k c | apply adb_list_comp_map_wf].
  by destruct (PyDict.get cid _).
Qed.

Lemma dbcs_list_paths_get (cfg : dbcs_list.config)
    (comp_map : PyDict.t compartment) (sep cid : string) :
  PyDict.wf comp_map →
  PyDict.get cid (dbcs_list.build_compartment_paths cfg comp_map sep)
  = if decide (cid = dbcs_list.cfg_tenancy_ocid cfg) then None
    else two_level_path comp_map (dbcs_list.cfg_tenancy_ocid cfg)
           (dbcs_list.cfg_tenancy_name cfg) sep <$> PyDict.get cid comp_map.
Proof.
  intros Hwf. unfold dbcs_list.build_compartment_paths.
  rewrite (pydict_get_fold_items
             (λ k c, if decide (k = dbcs_list.cfg_tenancy_ocid cfg) then None
                     else Some (two_level_path comp_map
                                  (dbcs_list.cfg_tenancy_ocid cfg)
                                  (dbcs_list.cfg_tenancy_name cfg) sep c)));
    [| by intros p k c; case_decide | done].
  destruct (PyDict.get cid comp_map); by case_decide.
Qed.

Lemma instance_list_paths_get (cfg : instance_list.config)
    (comp_map : PyDict.t compartment) (sep cid : string) :
  PyDict.wf comp_map →
  PyDict.get cid (instance_list.build_compartment_paths cfg comp_map sep)
  = (λ c, if decide (cid = instance_list.cfg_tenancy_ocid cfg)
          then instance_list_root_name cfg comp_map
          else two_level_path comp_map (instance_list.cfg_tenancy_ocid cfg)
                 (instance_list_root_name cfg comp_map) sep c)
      <$> PyDict.get cid comp_map.
Proof.
  intros Hwf. unfold instance_list.build_compartment_paths.
  fold (instance_list_root_name cfg comp_map).
  rewrite (pydict_get_fold_items
             (λ k c, Some (if decide (k = instance_list.cfg_tenancy_ocid cfg)
                           then instance_list_root_name cfg comp_map
                           else two_level_path comp_map
                                  (instance_list.cfg_tenancy_ocid cfg)
                                  (instance_list_root_name cfg comp_map) sep c)));
    [| by intros p k c; case_decide | done].
  by destruct (PyDict.get cid comp_map).
Qed.

(** The scenario of the design document, on the builder of adb_list.py. *)
Example adb_list_paths_scenario :
  PyDict.get "c1"
    (adb_list.build_compartment_paths "acme" Scenario.nodes Scenario.tenancy
       " > ") = Some "acme > teamA"
  ∧ PyDict.get "c2"
      (adb_list.build_compartment_paths "acme" Scenario.nodes Scenario.tenancy
         " > ") = Some "teamA > sub1".
Proof. split; reflexivity. Qed.

(** C7, as stated, fails on filesystem_list.py: the compartment c1 of the
    scenario, whose parent is null, is labelled with the root name alone and
    not with "acme > teamA". *)
Lemma filesystem_list_null_parent_path :
  filesystem_list.build_compartment_path Scenario.fs_cfg
    (filesystem_list.list_all_compartments Scenario.nodes) "c1" = Some "acme"
  ∧ filesystem_list.build_compartment_path Scenario.fs_cfg
      (filesystem_list.list_all_compartments Scenario.nodes) "c1"
    ≠ Some "acme > teamA"
  ∧ filesystem_list.build_compartment_path Scenario.fs_cfg
      (filesystem_list.list_all_compartments Scenario.nodes) "c2"
    = Some "teamA > sub1".
Proof. split; [reflexivity | split; [discriminate | reflexivity]]. Qed.

(** C7 (amended): for a node [c] stored under [cid] in the node map, the
    builder of adb_list.py yields "root_name > name" when the parent is null
    or the root, "parent.name > name" when the parent is in the map, and the
    bare name when the parent is outside the map; the builder of
    filesystem_list.py agrees for a non-root node whose parent is set, and
    yields the root name alone when the parent is null. *)
Theorem two_level_paths_by_builder (root_name root_id cid : string)
    (nodes : list compartment) (c : compartment) :
  let comp_map := adb_list.comp_map_of nodes in
  let paths := adb_list.build_compartment_paths root_name nodes root_id " > " in
  let fs_path :=
    filesystem_list.build_2level_compartment_path cid
      (filesystem_list.comp_by_id nodes) root_id root_name " > " in
  PyDict.get cid comp_map = Some c →
  ((c_compartment_id c = None ∨ c_compartment_id c = Some root_id) →
     PyDict.get cid paths = Some (root_name +:+ " > " +:+ c_name c))
  ∧ (∀ pid parent,
       c_compartment_id c = Some pid → pid ≠ root_id →
       PyDict.get pid comp_map = Some parent →
       PyDict.get cid paths = Some (c_name parent +:+ " > " +:+ c_name c)
       ∧ (cid ≠ root_id →
          fs_path = Some (c_name parent +:+ " > " +:+ c_name c)))
  ∧ (∀ pid,
       c_compartment_id c = Some pid → pid ≠ root_id →
       PyDict.get pid comp_map = None →
       PyDict.get cid paths = Some (c_name c)
       ∧ (cid ≠ root_id → fs_path = Some (c_name c)))
  ∧ (c_compartment_id c = Some root_id → cid ≠ root_id →
       fs_path = Some (root_name +:+ " > " +:+ c_name c))
  ∧ (c_compartment_id c = None → fs_path = Some root_name).
Proof.
  intros comp_map paths fs_path Hc.
  assert (Hp : PyDict.get cid paths
               = Some (two_level_path comp_map root_id root_name " > " c)).
  { unfold paths. rewrite adb_list_paths_get. fold comp_map. by rewrite Hc. }
  assert (Hf : filesystem_list.comp_by_id nodes = comp_map) by done.
  unfold fs_path, filesystem_list.build_2level_compartment_path.
  rewrite Hf, Hc, Hp. unfold two_level_path.
  split; [|split; [|split; [|split]]].
  - intros [-> | ->]; [done | by case_decide].
  - intros pid parent -> Hne ->.
    rewrite !(decide_False (P := pid = root_id)) by done.
    split; [done|]. intros Hcid. by rewrite decide_False.
  - intros pid -> Hne ->.
    rewrite !(decide_False (P := pid = root_id)) by done.
    split; [done|]. intros Hcid. by rewrite decide_False.
  - intros -> Hcid. rewrite decide_False by done. by rewrite decide_True.
  - by intros ->.
Qed.

(** The scenario of the design document, through the theorem. *)
Lemma two_level_paths_by_builder_witness :
  PyDict.get "c1"
    (adb_list.build_compartment_paths "acme" Scenario.nodes Scenario.tenancy
       " > ") = Some "acme > teamA".
Proof.
  refine (proj1 (two_level_paths_by_builder "acme" Scenario.tenancy "c1"
                   Scenario.nodes Scenario.team_a_null_parent _) _).
  - reflexivity.
  - left. reflexivity.
Defined.

(** ** Folds *)

Lemma fold_left_fmap_list {A B S : Type} (f : S → B → S) (g : A → B)
    (l : list A) (s : S) :
  fold_left f (g <$> l) s = fold_left (λ s x, f s (g x)) l s.
Proof. revert s. induction l as [|x l IH]; intros s; simpl; auto. Qed.

(** ** adb_list.py: what a run leaves in the table *)

Lemma adb_UPSERT_SQL_insert (k : string) (new : adb_list.row)
    (tbl : gmap string adb_list.row) :
  adb_list.UPSERT_SQL k new tbl = <[k := new]> tbl.
Proof.
  unfold adb_list.UPSERT_SQL. destruct (tbl !! k); [|done]. by destruct new.
Qed.

Lemma adb_collect_compartment_survivable cfg api paths ts c st :
  survivable (api (c_id c) 0%nat) →
  adb_list.collect_compartment cfg api paths ts c st
  = Returned (fold_left (adb_store cfg paths ts) (adb_listing api [c]) st).
Proof.
  unfold adb_list.collect_compartment, adb_listing, survivable; simpl.
  destruct (api (c_id c) 0%nat) as [adbs|s|]; [| |done].
  - intros _. rewrite app_nil_r, fold_left_fmap_list. by destruct adbs.
  - intros ->. by case_decide.
Qed.

Lemma adb_collect_compartment_fatal cfg api paths ts c st :
  ¬ survivable (api (c_id c) 0%nat) →
  adb_list.collect_compartment cfg api paths ts c st = Raised st.
Proof.
  unfold adb_list.collect_compartment, survivable.
  destruct (api (c_id c) 0%nat) as [adbs|s|]; [done| |done].
  intros. by case_decide.
Qed.

Lemma adb_listing_cons api c comps :
  adb_listing api (c :: comps) = adb_listing api [c] ++ adb_listing api comps.
Proof. unfold adb_listing. simpl. by rewrite app_nil_r. Qed.

Lemma adb_collect_survivable cfg api paths ts comps st :
  Forall (λ c, survivable (api (c_id c) 0%nat)) comps →
  for_each (adb_list.collect_compartment cfg api paths ts) comps st
  = Returned (fold_left (adb_store cfg paths ts) (adb_listing api comps) st).
Proof.
  intros Hall. revert st.
  induction Hall as [|c comps Hc _ IH]; intros st; [done|].
  cbn [for_each].
  rewrite (adb_collect_compartment_survivable cfg api paths ts c st Hc).
  cbn [and_then]. by rewrite IH, (adb_listing_cons api c comps), fold_left_app.
Qed.

Lemma adb_store_table cfg paths ts (st : adb_list.state) p :
  (adb_store cfg paths ts st p).1
  = <[adb_list.id p.2 :=
        adb_list.make_row cfg p.2 p.1 (PyDict.get (c_id p.1) paths) ts]> st.1.
Proof. apply adb_UPSERT_SQL_insert. Qed.

Lemma adb_store_seen cfg paths ts (st : adb_list.state) p :
  (adb_store cfg paths ts st p).2 = {[adb_list.id p.2]} ∪ st.2.
Proof. done. Qed.

(** The state after storing a list of items, key by key. *)
Lemma adb_store_fold_seen cfg paths ts items (st : adb_list.state) :
  (fold_left (adb_store cfg paths ts) items st).2
  = list_to_set ((λ p, adb_list.id p.2) <$> items) ∪ st.2.
Proof.
  revert st. induction items as [|p items IH]; intros st; simpl.
  - set_solver.
  - rewrite IH, adb_store_seen. set_solver.
Qed.

Lemma adb_store_fold_lookup cfg paths ts items (st : adb_list.state) k :
  (fold_left (adb_store cfg paths ts) items st).1 !! k
  = match adb_last_row cfg paths ts k items with
    | Some r => Some r
    | None => st.1 !! k
    end.
Proof.
  unfold adb_last_row. revert st.
  induction items as [|p items IH]; intros st; simpl; [done|].
  rewrite IH, adb_store_table, filter_cons.
  case_decide as Hk.
  - subst k. rewrite lookup_insert_eq, last_cons.
    by destruct (last _).
  - by rewrite lookup_insert_ne.
Qed.

Lemma adb_last_row_in_scope cfg paths ts k items r :
  adb_last_row cfg paths ts k items = Some r → adb_list.in_scope cfg r.
Proof.
  unfold adb_last_row. destruct (last _) as [p|]; [|done].
  intros [= <-]. unfold adb_list.make_row.
  by destruct (adb_list.compute_count p.2), (adb_list.cpu_core_count p.2).
Qed.

Lemma adb_last_row_is_Some cfg paths ts k items :
  is_Some (adb_last_row cfg paths ts k items)
  ↔ k ∈ (list_to_set ((λ p, adb_list.id p.2) <$> items) : gset string).
Proof.
  unfold adb_last_row. rewrite fmap_is_Some, elem_of_list_to_set, list_elem_of_fmap.
  rewrite last_is_Some. split.
  - intros Hne. destruct (filter _ items) as [|p l] eqn:Hf; [done|].
    assert (p ∈ filter (λ p, adb_list.id p.2 = k) items) as Hp
      by (rewrite Hf; left).
    apply list_elem_of_filter in Hp as [? ?]. eauto.
  - intros (p & -> & Hp) Hf.
    assert (p ∈ filter (λ q, adb_list.id q.2 = adb_list.id p.2) items) as Hin
      by (by apply list_elem_of_filter).
    rewrite Hf in Hin. by apply elem_of_nil in Hin.
Qed.

Lemma adb_sweep_lookup cfg seen (tbl : gmap string adb_list.row) k :
  adb_list.sweep cfg seen tbl !! k
  = match tbl !! k with
    | Some r => if decide (adb_list.in_scope cfg r ∧ k ∉ seen) then None
                else Some r
    | None => None
    end.
Proof.
  unfold adb_list.sweep.
  case_decide as Hseen; rewrite map_lookup_filter;
    destruct (tbl !! k) as [r|]; simpl; try done;
    case_guard; case_decide; try done; subst; set_solver.
Qed.

(** A run in which no listing fails fatally returns, and leaves under each
    key either the row of the last item listed with that id or, for an id
    that was not listed, the old row unless it belonged to the scope. *)
Lemma adb_main_lookup cfg ts resp api (tbl : gmap string adb_list.row) :
  Forall (λ c, survivable (api (c_id c) 0%nat))
    (adb_list.list_all_compartments resp) →
  ∃ tbl', adb_list.main cfg ts resp api tbl = Returned tbl'
    ∧ ∀ k, tbl' !! k
           = match adb_last_row cfg (adb_paths cfg resp) ts k
                     (adb_run_items resp api) with
             | Some r => Some r
             | None =>
                 match tbl !! k with
                 | Some r => if decide (adb_list.in_scope cfg r) then None
                             else Some r
                 | None => None
                 end
             end.
Proof.
  intros Hall. unfold adb_list.main.
  rewrite (adb_collect_survivable cfg api _ ts _ _ Hall).
  fold (adb_paths cfg resp). fold (adb_run_items resp api).
  destruct (fold_left _ _ _) as [tbl' seen] eqn:Hfold.
  eexists; split; [done|]. intros k.
  assert (Htbl := adb_store_fold_lookup cfg (adb_paths cfg resp) ts
                    (adb_run_items resp api) (tbl, ∅) k).
  assert (Hseen := adb_store_fold_seen cfg (adb_paths cfg resp) ts
                     (adb_run_items resp api) (tbl, ∅)).
  rewrite Hfold in Htbl, Hseen. simpl in Htbl, Hseen.
  rewrite adb_sweep_lookup, Htbl.
  pose proof (adb_last_row_is_Some cfg (adb_paths cfg resp) ts k
                (adb_run_items resp api)) as Hlast.
  destruct (adb_last_row _ _ _ _ _) as [r|] eqn:Hr.
  - rewrite decide_False; [done|].
    intros [_ Hk]. apply Hk. rewrite Hseen.
    apply elem_of_union_l, Hlast. eauto.
  - destruct (tbl !! k) as [r|]; [|done].
    assert (k ∉ seen).
    { rewrite Hseen. intros [Hk|Hk]%elem_of_union; [|set_solver].
      apply Hlast in Hk as [? ?]. done. }
    repeat case_decide; naive_solver.
Qed.

(** ** instance_list.py: what a run leaves in the table *)

Lemma instance_upsert_insert (k : string) (new : instance_list.row)
    (tbl : gmap string instance_list.row) :
  instance_list.upsert_instance k new tbl
  = <[k := instance_merge (tbl !! k) new]> tbl.
Proof. unfold instance_list.upsert_instance. by destruct (tbl !! k). Qed.

Lemma instance_collect_fold cfg api paths ts comps st :
  for_each (instance_list.collect_compartment cfg api paths ts) comps st
  = Returned (fold_left (instance_store cfg paths ts)
                (instance_listing api comps) st).
Proof.
  revert st. induction comps as [|[cid c] comps IH]; intros st; [done|].
  cbn [for_each]. unfold instance_list.collect_compartment at 1.
  cbn [and_then]. rewrite IH. f_equal.
  unfold instance_listing. cbn [mbind list_bind].
  fold (instance_listing api comps).
  by rewrite fold_left_app, fold_left_fmap_list.
Qed.

Lemma instance_store_table cfg paths ts (st : instance_list.state) p :
  (instance_store cfg paths ts st p).1
  = <[instance_list.id p.2 :=
        instance_merge (st.1 !! instance_list.id p.2)
          (instance_new_row cfg paths ts p)]> st.1.
Proof. apply instance_upsert_insert. Qed.

Lemma instance_store_seen cfg paths ts (st : instance_list.state) p :
  (instance_store cfg paths ts st p).2 = {[instance_list.id p.2]} ∪ st.2.
Proof. done. Qed.

Lemma instance_store_fold_seen cfg paths ts items (st : instance_list.state) :
  (fold_left (instance_store cfg paths ts) items st).2
  = list_to_set ((λ p, instance_list.id p.2) <$> items) ∪ st.2.
Proof.
  revert st. induction items as [|p items IH]; intros st; simpl.
  - set_solver.
  - rewrite IH, instance_store_seen. set_solver.
Qed.

Lemma instance_store_fold_lookup cfg paths ts items
    (st : instance_list.state) k :
  (fold_left (instance_store cfg paths ts) items st).1 !! k
  = instance_cell cfg paths ts k items (st.1 !! k).
Proof.
  unfold instance_cell. revert st.
  induction items as [|p items IH]; intros st; simpl; [done|].
  rewrite IH, instance_store_table. f_equal.
  case_decide as Hk.
  - subst k. by rewrite lookup_insert_eq.
  - by rewrite lookup_insert_ne.
Qed.

Lemma instance_cell_unlisted cfg paths ts k items old :
  k ∉ (list_to_set ((λ p, instance_list.id p.2) <$> items) : gset string) →
  instance_cell cfg paths ts k items old = old.
Proof.
  unfold instance_cell. revert old.
  induction items as [|p items IH]; intros old Hk; simpl; [done|].
  simpl in Hk. rewrite decide_False by set_solver. apply IH. set_solver.
Qed.

Lemma instance_new_row_in_scope cfg paths ts p :
  instance_list.in_scope cfg (instance_new_row cfg paths ts p).
Proof.
  unfold instance_new_row, instance_list.make_row.
  by destruct (instance_list.get_vnic_and_ips p.2) as [[? ?] ?].
Qed.

Lemma instance_merge_in_scope cfg old new :
  instance_list.in_scope cfg new →
  from_option (instance_list.in_scope cfg) True old →
  instance_list.in_scope cfg (instance_merge old new).
Proof. by destruct old. Qed.

(** A listed id ends up with a row, and that row belongs to the scope as
    soon as the row it replaced did. *)
Lemma instance_cell_listed cfg paths ts k items old :
  k ∈ (list_to_set ((λ p, instance_list.id p.2) <$> items) : gset string) →
  from_option (instance_list.in_scope cfg) True old →
  ∃ r, instance_cell cfg paths ts k items old = Some r
       ∧ instance_list.in_scope cfg r.
Proof.
  unfold instance_cell. revert old.
  induction items as [|p items IH]; intros old Hk Hold; simpl.
  - set_solver.
  - simpl in Hk. case_decide as Hp.
    + destruct (decide (k ∈ (list_to_set ((λ p, instance_list.id p.2) <$> items)
                              : gset string))) as [Hin|Hout].
      * apply IH; [done|]. simpl.
        apply instance_merge_in_scope; auto using instance_new_row_in_scope.
      * fold (instance_cell cfg paths ts k items
                (Some (instance_merge old (instance_new_row cfg paths ts p)))).
        rewrite instance_cell_unlisted by done.
        eexists; split; [done|].
        apply instance_merge_in_scope; auto using instance_new_row_in_scope.
    + apply IH; [set_solver | done].
Qed.

Lemma instance_sweep_lookup cfg seen (tbl : gmap string instance_list.row) k :
  instance_list.sweep cfg seen tbl !! k
  = match tbl !! k with
    | Some r => if decide (instance_list.in_scope cfg r ∧ k ∉ seen) then None
                else Some r
    | None => None
    end.
Proof.
  unfold instance_list.sweep.
  case_decide as Hseen; rewrite map_lookup_filter;
    destruct (tbl !! k) as [r|]; simpl; try done;
    case_guard; case_decide; try done; subst; set_solver.
Qed.

(** Every run of instance_list.py returns; key by key, it leaves the cell
    the items make of the old one, unless that is a row of the scope whose
    id was not listed. *)
Lemma instance_main_lookup cfg ts tname resp api
    (tbl : gmap string instance_list.row) :
  let items := instance_listing api (instance_visited cfg tname resp) in
  let seen : gset string :=
    list_to_set ((λ p, instance_list.id p.2) <$> items) in
  ∃ tbl', instance_list.main cfg ts tname resp api tbl = Returned tbl'
    ∧ ∀ k, tbl' !! k
           = match instance_cell cfg (instance_paths cfg tname resp) ts k
                     items (tbl !! k) with
             | Some r => if decide (instance_list.in_scope cfg r ∧ k ∉ seen)
                         then None else Some r
             | None => None
             end.
Proof.
  intros items seen. unfold instance_list.main.
  rewrite instance_collect_fold.
  fold (instance_comp_map cfg tname resp).
  fold (instance_paths cfg tname resp).
  fold (instance_visited cfg tname resp). fold items.
  destruct (fold_left _ _ _) as [tbl' seen'] eqn:Hfold.
  eexists; split; [done|]. intros k.
  assert (Htbl := instance_store_fold_lookup cfg (instance_paths cfg tname resp)
                    ts items (tbl, ∅) k).
  assert (Hseen := instance_store_fold_seen cfg (instance_paths cfg tname resp)
                     ts items (tbl, ∅)).
  rewrite Hfold in Htbl, Hseen. simpl in Htbl, Hseen.
  rewrite instance_sweep_lookup, Htbl.
  rewrite (right_id_L ∅ (∪)) in Hseen. by subst seen'.
Qed.

(** The columns an upsert keeps, and the cell of a key. *)

Lemma instance_kept_merge_Some o n :
  instance_kept (instance_merge (Some o) n) = instance_kept o.
Proof. done. Qed.

Lemma instance_merge_ext a b n :
  instance_kept a = instance_kept b →
  instance_merge (Some a) n = instance_merge (Some b) n.
Proof.
  unfold instance_kept. intros [= Ht Hr Hc].
  unfold instance_merge, instance_list.on_duplicate_key_update.
  by rewrite Ht, Hr, Hc.
Qed.

Lemma instance_merge_Some_same_kept r n :
  instance_kept r = instance_kept n → instance_merge (Some r) n = n.
Proof.
  unfold instance_kept. intros [= Ht Hr Hc].
  unfold instance_merge, instance_list.on_duplicate_key_update.
  rewrite Ht, Hr, Hc. by destruct n.
Qed.

Lemma instance_kept_new_row cfg paths ts ts' p :
  instance_kept (instance_new_row cfg paths ts p)
  = instance_kept (instance_new_row cfg paths ts' p).
Proof.
  unfold instance_new_row, instance_list.make_row.
  by destruct (instance_list.get_vnic_and_ips p.2) as [[? ?] ?].
Qed.

Lemma instance_cell_cons cfg paths ts k p items old :
  instance_cell cfg paths ts k (p :: items) old
  = instance_cell cfg paths ts k items
      (if decide (instance_list.id p.2 = k)
       then Some (instance_merge old (instance_new_row cfg paths ts p))
       else old).
Proof. done. Qed.

Lemma instance_cell_Some_kept cfg paths ts k items o :
  ∃ r, instance_cell cfg paths ts k items (Some o) = Some r
       ∧ instance_kept r = instance_kept o.
Proof.
  revert o. induction items as [|p items IH]; intros o; [by eexists|].
  rewrite instance_cell_cons. case_decide; [|apply IH].
  destruct (IH (instance_merge (Some o) (instance_new_row cfg paths ts p)))
    as (r & Hr & Hk).
  exists r. split; [done|]. by rewrite Hk.
Qed.

(** What a run made of a cell is forgotten by the next run, except for the
    columns that the upsert keeps. *)
Lemma instance_cell_absorb cfg paths ts1 ts2 k items old r1 :
  instance_cell cfg paths ts1 k items old = Some r1 →
  instance_cell cfg paths ts2 k items (Some r1)
  = instance_cell cfg paths ts2 k items old.
Proof.
  revert old. induction items as [|p items IH]; intros old.
  - by intros <-.
  - rewrite !instance_cell_cons. case_decide as Hp; [|apply IH].
    intros Hcell. f_equal. f_equal.
    destruct (instance_cell_Some_kept cfg paths ts1 k items
                (instance_merge old (instance_new_row cfg paths ts1 p)))
      as (r & Hr & Hk).
    assert (r = r1) as -> by congruence.
    destruct old as [o|].
    + apply instance_merge_ext. by rewrite Hk.
    + simpl in *. apply instance_merge_Some_same_kept.
      rewrite Hk. apply instance_kept_new_row.
Qed.

Lemma instance_cell_listed_is_Some cfg paths ts k items old :
  k ∈ (list_to_set ((λ p, instance_list.id p.2) <$> items) : gset string) →
  is_Some (instance_cell cfg paths ts k items old).
Proof.
  revert old. induction items as [|p items IH]; intros old Hk.
  - by apply elem_of_empty in Hk.
  - rewrite instance_cell_cons. case_decide as Hp.
    + destruct (instance_cell_Some_kept cfg paths ts k items
                  (instance_merge old (instance_new_row cfg paths ts p)))
        as (r & -> & _). eauto.
    + apply IH. set_solver.
Qed.

(** ** Mark and sweep *)

Lemma elem_of_adb_ids_in_scope cfg (tbl : gmap string adb_list.row) k :
  k ∈ adb_ids_in_scope cfg tbl
  ↔ ∃ r, tbl !! k = Some r ∧ adb_list.in_scope cfg r.
Proof.
  unfold adb_ids_in_scope. rewrite elem_of_dom. unfold is_Some.
  setoid_rewrite map_lookup_filter_Some. done.
Qed.

Lemma elem_of_instance_ids_in_scope cfg (tbl : gmap string instance_list.row) k :
  k ∈ instance_ids_in_scope cfg tbl
  ↔ ∃ r, tbl !! k = Some r ∧ instance_list.in_scope cfg r.
Proof.
  unfold instance_ids_in_scope. rewrite elem_of_dom. unfold is_Some.
  setoid_rewrite map_lookup_filter_Some. done.
Qed.

Lemma succeeded_survivable {A : Type} (r : response A) :
  succeeded r → survivable r.
Proof. by destruct r. Qed.

(** The scenario of the design document: run 1 stores a, b and c, run 2 sees
    only a and c, and b is gone afterwards. *)
Example adb_scenario_abc :
  dom Scenario.adb_table_1 = {["a"; "b"; "c"]}
  ∧ dom Scenario.adb_table_2 = {["a"; "c"]}
  ∧ Scenario.adb_table_2 !! "b" = None.
Proof. vm_compute. done. Qed.

Example instance_scenario_abc :
  dom Scenario.inst_table_1 = {["a"; "b"; "c"]}
  ∧ dom Scenario.inst_table_2 = {["a"; "c"]}
  ∧ Scenario.inst_table_2 !! "b" = None.
Proof. vm_compute. done. Qed.

(** C1, as stated, fails on instance_list.py: the table holds a row for the
    instance a under the region us-phoenix-1; a run for ap-seoul-1 in which
    every listing succeeds lists a and c, updates the row of a without
    moving it to its own region, and ends with c as the only id stored for
    its scope. *)
Lemma instance_list_foreign_row_breaks_mirror :
  Forall (λ e, succeeded (Scenario.inst_api_2 e.1 0%nat))
    (instance_visited Scenario.inst_cfg "acme" Scenario.compartments)
  ∧ ∃ itbl',
      instance_list.main Scenario.inst_cfg 2000 "acme" Scenario.compartments
        Scenario.inst_api_2 Scenario.inst_table_phoenix = Returned itbl'
      ∧ instance_listed_ids Scenario.inst_api_2
          (instance_visited Scenario.inst_cfg "acme" Scenario.compartments)
        = {["a"; "c"]}
      ∧ instance_ids_in_scope Scenario.inst_cfg itbl' = {["c"]}
      ∧ instance_list.region <$> itbl' !! "a" = Some "us-phoenix-1"
      ∧ instance_ids_in_scope Scenario.inst_cfg itbl'
        ≠ instance_listed_ids Scenario.inst_api_2
            (instance_visited Scenario.inst_cfg "acme" Scenario.compartments).
Proof.
  split; [repeat constructor|].
  eexists. split; [vm_compute; reflexivity|].
  assert (instance_listed_ids Scenario.inst_api_2
            (instance_visited Scenario.inst_cfg "acme" Scenario.compartments)
          = {["a"; "c"]}) as Hlisted by (vm_compute; reflexivity).
  split; [exact Hlisted|]. rewrite Hlisted.
  match goal with
  | |- ?ids = _ ∧ _ => assert (ids = {["c"]}) as Hids by (vm_compute; reflexivity)
  end.
  split; [exact Hids|]. split; [vm_compute; reflexivity|].
  rewrite Hids. intros Heq.
  assert ("a" ∈ ({["c"]} : gset string)) as Ha by (rewrite Heq; set_solver).
  set_solver.
Qed.

(** C1 (amended): after a run of adb_list.py or instance_list.py in which
    every listing call succeeded, every listed id has a row and a row of
    the run's (tenancy, region) whose id was not listed is gone.  For
    adb_list.py the ids stored for that (tenancy, region) are exactly the
    ids the listings returned.  For instance_list.py, whose upsert leaves
    tenancy_ocid and region as stored, the ids stored for the (tenancy,
    region) are among the listed ids, and they are exactly the listed ids
    when no stored row with a listed id lies outside the (tenancy,
    region). *)
Theorem mirror_ids_equal_listed_ids
    (cfg : adb_list.config) (ts : datetime) (resp : list compartment)
    (api : string → operation (list adb_list.adb))
    (tbl : gmap string adb_list.row)
    (icfg : instance_list.config) (its : datetime) (tname : string)
    (iresp : list compartment)
    (iapi : string → operation (list instance_list.instance))
    (itbl : gmap string instance_list.row) :
  let comps := adb_list.list_all_compartments resp in
  let icomps := instance_visited icfg tname iresp in
  Forall (λ c, succeeded (api (c_id c) 0%nat)) comps →
  Forall (λ e, succeeded (iapi e.1 0%nat)) icomps →
  (∃ tbl', adb_list.main cfg ts resp api tbl = Returned tbl'
     ∧ (∀ k, k ∈ adb_listed_ids api comps → is_Some (tbl' !! k))
     ∧ (∀ k r, tbl !! k = Some r → adb_list.in_scope cfg r →
               k ∉ adb_listed_ids api comps → tbl' !! k = None)
     ∧ adb_ids_in_scope cfg tbl' = adb_listed_ids api comps)
  ∧ (∃ itbl', instance_list.main icfg its tname iresp iapi itbl = Returned itbl'
     ∧ (∀ k, k ∈ instance_listed_ids iapi icomps → is_Some (itbl' !! k))
     ∧ (∀ k r, itbl !! k = Some r → instance_list.in_scope icfg r →
               k ∉ instance_listed_ids iapi icomps → itbl' !! k = None)
     ∧ instance_ids_in_scope icfg itbl' ⊆ instance_listed_ids iapi icomps
     ∧ ((∀ k r, itbl !! k = Some r → k ∈ instance_listed_ids iapi icomps →
                instance_list.in_scope icfg r) →
        instance_ids_in_scope icfg itbl' = instance_listed_ids iapi icomps)).
Proof.
  intros comps icomps Hok _. split.
  - destruct (adb_main_lookup cfg ts resp api tbl) as (tbl' & Hmain & Hlook).
    { eapply Forall_impl; [exact Hok|]. intros c. apply succeeded_survivable. }
    exists tbl'. split; [done|].
    assert (Hlast : ∀ k, is_Some (adb_last_row cfg (adb_paths cfg resp) ts k
                                    (adb_run_items resp api))
                         ↔ k ∈ adb_listed_ids api comps)
      by (intros k; apply adb_last_row_is_Some).
    split; [|split].
    + intros k [r Hr]%Hlast. rewrite Hlook, Hr. eauto.
    + intros k r Hk Hin Hun. rewrite Hlook.
      destruct (adb_last_row _ _ _ _ _) as [r'|] eqn:Hr.
      * exfalso. apply Hun, Hlast. eauto.
      * rewrite Hk. by rewrite decide_True.
    + apply set_eq. intros k. rewrite elem_of_adb_ids_in_scope, Hlook, <-Hlast.
      destruct (adb_last_row _ _ _ _ _) as [r|] eqn:Hr.
      * split; [eauto|]. intros _. exists r. split; [done|].
        by eapply adb_last_row_in_scope.
      * split; [|by intros [? ?]]. intros (r & Hk & Hin).
        destruct (tbl !! k); [|done]. case_decide; naive_solver.
  - destruct (instance_main_lookup icfg its tname iresp iapi itbl)
      as (tbl' & Hmain & Hlook).
    fold icomps in Hlook. exists tbl'. split; [done|].
    fold (instance_listed_ids iapi icomps) in Hlook.
    assert (Hsub : instance_ids_in_scope icfg tbl'
                   ⊆ instance_listed_ids iapi icomps).
    { intros k. rewrite elem_of_instance_ids_in_scope, Hlook.
      destruct (decide (k ∈ instance_listed_ids iapi icomps)) as [Hin|Hout];
        [done|].
      rewrite instance_cell_unlisted by done. intros (r & Hk & Hin).
      destruct (itbl !! k); [|done]. case_decide; naive_solver. }
    split; [|split; [|split; [done|]]].
    + intros k Hin. rewrite Hlook.
      destruct (instance_cell_listed_is_Some icfg
                  (instance_paths icfg tname iresp) its k
                  (instance_listing iapi icomps) (itbl !! k) Hin) as [r ->].
      rewrite decide_False; [eauto | tauto].
    + intros k r Hk Hin Hun. rewrite Hlook.
      rewrite instance_cell_unlisted, Hk by done. by rewrite decide_True.
    + intros Hown. apply set_eq. intros k. split; [apply Hsub|]. intros Hin.
      rewrite elem_of_instance_ids_in_scope, Hlook.
      destruct (instance_cell_listed icfg (instance_paths icfg tname iresp)
                  its k (instance_listing iapi icomps) (itbl !! k) Hin)
        as (r & -> & Hr).
      { destruct (itbl !! k) eqn:Hk; simpl; eauto. }
      exists r. split; [|done]. rewrite decide_False; [done|]. tauto.
Qed.

Lemma mirror_ids_equal_listed_ids_witness :
  adb_ids_in_scope Scenario.adb_cfg Scenario.adb_table_2 = {["a"; "c"]}
  ∧ instance_ids_in_scope Scenario.inst_cfg Scenario.inst_table_2
    = {["a"; "c"]}.
Proof.
  destruct (mirror_ids_equal_listed_ids
              Scenario.adb_cfg 2000 Scenario.compartments Scenario.adb_api_2
              Scenario.adb_table_1
              Scenario.inst_cfg 2000 "acme" Scenario.compartments
              Scenario.inst_api_2 Scenario.inst_table_1)
    as [(tbl' & Hmain & _ & _ & Hids) (itbl' & Himain & _ & _ & _ & Hiids)].
  - repeat constructor.
  - repeat constructor.
  - unfold Scenario.adb_table_2, Scenario.inst_table_2.
    rewrite Hmain, Himain. simpl. rewrite Hids, Hiids.
    + split; vm_compute; reflexivity.
    + intros k r Hk _. revert k r Hk.
      apply (bool_decide_unpack
               (map_Forall (λ _ r, instance_list.in_scope Scenario.inst_cfg r)
                  Scenario.inst_table_1)).
      vm_compute. reflexivity.
Defined.

(** ** Empty results *)

Lemma adb_listing_empty api comps :
  Forall (λ c, api (c_id c) 0%nat = Ok []) comps → adb_listing api comps = [].
Proof.
  induction 1 as [|c comps Hc _ IH]; [done|].
  rewrite adb_listing_cons, IH. unfold adb_listing. simpl. by rewrite Hc.
Qed.

Lemma instance_listing_empty api (comps : list (string * compartment)) :
  Forall (λ e, api e.1 0%nat = Ok []) comps → instance_listing api comps = [].
Proof.
  induction 1 as [|e comps He _ IH]; [done|].
  change (instance_listing api (e :: comps))
    with (((λ i, (e, i)) <$> instance_list.list_instances api e.1)
          ++ instance_listing api comps).
  rewrite IH. unfold instance_list.list_instances. by rewrite He.
Qed.

Lemma adb_backup_collect_empty cl now ocids st :
  Forall (λ a, adb_backup.list_autonomous_database_backups cl a 0%nat = Ok [])
    ocids →
  for_each (adb_backup.collect_adb cl now) ocids st = Returned st.
Proof.
  induction 1 as [|a ocids Ha _ IH]; [done|].
  cbn [for_each]. unfold adb_backup.collect_adb at 1.
  unfold adb_backup.get_all_backups. rewrite Ha.
  by destruct (adb_backup.get_adb_info cl a) as [[? ?]| |].
Qed.

Lemma dbcs_backup_collect_empty cl lookback ocids st :
  Forall (λ d, dbcs_backup.list_backups cl d = dbcs_backup.LastPage []) ocids →
  for_each (dbcs_backup.collect_db cl lookback) ocids st = Returned st.
Proof.
  induction 1 as [|d ocids Hd _ IH]; [done|].
  cbn [for_each]. unfold dbcs_backup.collect_db at 1. by rewrite Hd.
Qed.

(** C2, as stated, fails on adb_backup.py: the listing is empty, the run
    completes, and the stored rows are all still there. *)
Lemma adb_backup_empty_run_keeps_rows :
  adb_backup.get_all_backups Scenario.quiet_backup_client "adb1" = Ok []
  ∧ adb_backup.main Scenario.quiet_backup_client 1700010000 ["adb1"]
      Scenario.backup_table
    = Returned Scenario.backup_table
  ∧ dom Scenario.backup_table = {["bk1"; "bk2"]}.
Proof. split; [reflexivity|]. split; [reflexivity|]. by vm_compute. Qed.

(** C2 (amended): when every listing of a run comes back empty, adb_list.py
    and instance_list.py return and leave no row for their (tenancy,
    region); adb_backup.py and dbcs_backup.py return too, but skip the
    DELETE and leave their table as it was. *)
Theorem empty_result_by_script
    (cfg : adb_list.config) (ts : datetime) (resp : list compartment)
    (api : string → operation (list adb_list.adb))
    (tbl : gmap string adb_list.row)
    (icfg : instance_list.config) (its : datetime) (tname : string)
    (iresp : list compartment)
    (iapi : string → operation (list instance_list.instance))
    (itbl : gmap string instance_list.row)
    (bcl : adb_backup.client) (bnow : datetime) (ADB_OCIDS : list string)
    (btbl : gmap string adb_backup.row)
    (dcl : dbcs_backup.client) (dnow : datetime) (DB_OCIDS : list string)
    (dtbl : gmap string dbcs_backup.row) :
  Forall (λ c, api (c_id c) 0%nat = Ok [])
    (adb_list.list_all_compartments resp) →
  Forall (λ e, iapi e.1 0%nat = Ok []) (instance_visited icfg tname iresp) →
  Forall (λ a, adb_backup.list_autonomous_database_backups bcl a 0%nat = Ok [])
    ADB_OCIDS →
  Forall (λ d, dbcs_backup.list_backups dcl d = dbcs_backup.LastPage [])
    DB_OCIDS →
  (∃ tbl', adb_list.main cfg ts resp api tbl = Returned tbl'
           ∧ adb_ids_in_scope cfg tbl' = ∅)
  ∧ (∃ itbl', instance_list.main icfg its tname iresp iapi itbl = Returned itbl'
              ∧ instance_ids_in_scope icfg itbl' = ∅)
  ∧ adb_backup.main bcl bnow ADB_OCIDS btbl = Returned btbl
  ∧ dbcs_backup.main dcl dnow DB_OCIDS dtbl = Returned dtbl.
Proof.
  intros Hadb Hinst Hbk Hdb. repeat split.
  - destruct (adb_main_lookup cfg ts resp api tbl) as (tbl' & Hmain & Hlook).
    { eapply Forall_impl; [exact Hadb|]. by intros c ->. }
    exists tbl'. split; [done|]. apply set_eq. intros k.
    rewrite elem_of_adb_ids_in_scope, Hlook.
    unfold adb_run_items. rewrite (adb_listing_empty api _ Hadb).
    split; [|by intros ?%elem_of_empty]. intros (r & Hk & Hin). simpl in Hk.
    destruct (tbl !! k); [|done]. case_decide; naive_solver.
  - destruct (instance_main_lookup icfg its tname iresp iapi itbl)
      as (itbl' & Hmain & Hlook).
    exists itbl'. split; [done|]. apply set_eq. intros k.
    rewrite elem_of_instance_ids_in_scope, Hlook.
    rewrite (instance_listing_empty iapi _ Hinst).
    split; [|by intros ?%elem_of_empty]. intros (r & Hk & Hin).
    unfold instance_cell in Hk. cbn [fold_left] in Hk.
    destruct (itbl !! k); [|done]. case_decide as Hd; [done|].
    injection Hk as ->. destruct Hd. split; [done|]. apply not_elem_of_empty.
  - unfold adb_backup.main. by rewrite adb_backup_collect_empty.
  - unfold dbcs_backup.main. by rewrite dbcs_backup_collect_empty.
Qed.

Lemma empty_result_by_script_witness :
  adb_ids_in_scope Scenario.adb_cfg
    (final_state (adb_list.main Scenario.adb_cfg 2000 Scenario.compartments
                    Scenario.adb_api_empty Scenario.adb_table_1)) = ∅
  ∧ adb_backup.main Scenario.quiet_backup_client 1700010000 ["adb1"]
      Scenario.backup_table = Returned Scenario.backup_table.
Proof.
  destruct (empty_result_by_script
              Scenario.adb_cfg 2000 Scenario.compartments
              Scenario.adb_api_empty Scenario.adb_table_1
              Scenario.inst_cfg 2000 "acme" Scenario.compartments
              Scenario.inst_api_empty Scenario.inst_table_1
              Scenario.quiet_backup_client 1700010000 ["adb1"]
              Scenario.backup_table
              Scenario.quiet_dbcs_client Scenario.dbcs_now ["dba"]
              Scenario.dbcs_table)
    as ((tbl' & Hmain & Hids) & _ & Hbk & _).
  - repeat constructor.
  - repeat constructor.
  - repeat constructor.
  - repeat constructor.
  - split; [|exact Hbk]. rewrite Hmain. exact Hids.
Defined.

(** ** Failed collection *)

Lemma adb_store_fold_dom cfg paths ts items (st : adb_list.state) :
  dom st.1 ⊆ dom (fold_left (adb_store cfg paths ts) items st).1.
Proof.
  revert st. induction items as [|p items IH]; intros st; simpl; [done|].
  etrans; [|apply IH]. rewrite adb_store_table, dom_insert. set_solver.
Qed.

Lemma adb_collect_compartment_dom cfg api paths ts c st :
  dom st.1
  ⊆ dom (final_state (adb_list.collect_compartment cfg api paths ts c st)).1.
Proof.
  destruct (decide (survivable (api (c_id c) 0%nat))) as [Hs|Hf].
  - rewrite adb_collect_compartment_survivable by done.
    apply adb_store_fold_dom.
  - by rewrite adb_collect_compartment_fatal.
Qed.

Lemma adb_collect_dom cfg api paths ts comps st :
  dom st.1
  ⊆ dom (final_state
           (for_each (adb_list.collect_compartment cfg api paths ts) comps st)).1.
Proof.
  revert st. induction comps as [|c comps IH]; intros st; [done|].
  cbn [for_each].
  pose proof (adb_collect_compartment_dom cfg api paths ts c st) as Hc.
  destruct (adb_list.collect_compartment cfg api paths ts c st) as [st'|st'];
    simpl in *; [|done].
  etrans; [exact Hc | apply IH].
Qed.

Lemma adb_collect_fatal cfg api paths ts comps st :
  Exists (λ c, ¬ survivable (api (c_id c) 0%nat)) comps →
  ∃ st', for_each (adb_list.collect_compartment cfg api paths ts) comps st
         = Raised st'.
Proof.
  intros Hex. revert st.
  induction comps as [|c comps IH]; intros st; [by apply Exists_nil in Hex|].
  cbn [for_each].
  destruct (decide (survivable (api (c_id c) 0%nat))) as [Hs|Hf].
  - rewrite (adb_collect_compartment_survivable cfg api paths ts c st Hs).
    cbn [and_then]. apply IH. by apply Exists_cons in Hex as [?|?].
  - rewrite adb_collect_compartment_fatal by done. eauto.
Qed.

(** The sibling adb_list.py does stop before its DELETE: a listing that
    fails with anything but HTTP 429 makes [main] raise, and every key that
    was stored before the run is still stored. *)
Lemma adb_list_failure_skips_sweep cfg ts resp api
    (tbl : gmap string adb_list.row) :
  Exists (λ c, ¬ survivable (api (c_id c) 0%nat))
    (adb_list.list_all_compartments resp) →
  ∃ tbl', adb_list.main cfg ts resp api tbl = Raised tbl' ∧ dom tbl ⊆ dom tbl'.
Proof.
  intros Hex. unfold adb_list.main.
  pose proof (adb_collect_dom cfg api (adb_paths cfg resp) ts
                (adb_list.list_all_compartments resp) (tbl, ∅)) as Hdom.
  destruct (adb_collect_fatal cfg api (adb_paths cfg resp) ts _ (tbl, ∅) Hex)
    as [[tbl' seen] Hraise].
  fold (adb_paths cfg resp). rewrite Hraise in *. eauto.
Qed.

(** C3 fails on the code.  In instance_list.py the listing of compartment
    c1 raises; [list_instances] turns that into an empty list, the run goes
    on to the DELETE and completes, and the rows a and b of c1, stored by the
    previous run, are deleted.  In adb_backup.py the backup listing of adb1
    raises; the loop continues with adb2, the DELETE runs on the ids seen
    for adb2 alone, and the stored backup bk1 of adb1 is deleted. *)
Theorem partial_failure_still_sweeps :
  (completed (instance_list.main Scenario.inst_cfg 2000 "acme"
                Scenario.compartments Scenario.inst_api_failing
                Scenario.inst_table_1) = true
   ∧ dom Scenario.inst_table_1 = {["a"; "b"; "c"]}
   ∧ dom (final_state
            (instance_list.main Scenario.inst_cfg 2000 "acme"
               Scenario.compartments Scenario.inst_api_failing
               Scenario.inst_table_1)) = {["c"]})
  ∧ (completed (adb_backup.main Scenario.failing_backup_client 1700010000
                  ["adb1"; "adb2"] Scenario.backup_table) = true
     ∧ dom Scenario.backup_table = {["bk1"; "bk2"]}
     ∧ dom (final_state
              (adb_backup.main Scenario.failing_backup_client 1700010000
                 ["adb1"; "adb2"] Scenario.backup_table)) = {["bk2"]}).
Proof. vm_compute. done. Qed.

(** ** The scope of the DELETE *)

Lemma unscoped_sweep_lookup {R : Type} (seen : gset string)
    (tbl : gmap string R) (k : string) :
  filter (λ kr : string * R, ¬ (kr.1 ∉ seen)) tbl !! k
  = if decide (k ∈ seen) then tbl !! k else None.
Proof.
  rewrite map_lookup_filter. destruct (tbl !! k) as [r|]; simpl.
  - case_guard; case_decide; naive_solver.
  - by case_decide.
Qed.

(** C4, as stated, fails on dbcs_backup.py: the run for database dba sees
    its backup x, and its DELETE removes the stored row "old", which belongs
    to another database (DBB). *)
Lemma dbcs_backup_sweep_crosses_databases :
  dbcs_backup.db_name <$> Scenario.dbcs_table !! "old" = Some "DBB"
  ∧ ∃ tbl', dbcs_backup.main Scenario.dbcs_client Scenario.dbcs_now ["dba"]
              Scenario.dbcs_table = Returned tbl'
            ∧ dbcs_backup.db_name <$> tbl' !! "x" = Some "DBA"
            ∧ tbl' !! "old" = None.
Proof. split; [reflexivity|]. eexists. split; [reflexivity|]. by vm_compute. Qed.

(** C4 (amended): the DELETE of adb_list.py and of instance_list.py tests
    tenancy_ocid and region for equality with the run's own, so a row that
    differs in either column is left as it is, and a row is removed exactly
    when it is in the scope and its id was not seen; the DELETE of
    dbcs_backup.py, adb_backup.py and filesystem_list.py has no scope
    condition and removes every row whose id was not seen, whatever
    database, compartment or region it belongs to. *)
Theorem sweep_scope_by_script :
  (∀ cfg seen (tbl : gmap string adb_list.row) k r,
     tbl !! k = Some r →
     (adb_list.tenancy_ocid r ≠ adb_list.cfg_tenancy_id cfg
      ∨ adb_list.region r ≠ adb_list.cfg_region cfg →
      adb_list.sweep cfg seen tbl !! k = Some r)
     ∧ (adb_list.sweep cfg seen tbl !! k = None
        ↔ adb_list.tenancy_ocid r = adb_list.cfg_tenancy_id cfg
          ∧ adb_list.region r = adb_list.cfg_region cfg ∧ k ∉ seen))
  ∧ (∀ cfg seen (tbl : gmap string instance_list.row) k r,
       tbl !! k = Some r →
       (instance_list.tenancy_ocid r ≠ instance_list.cfg_tenancy_ocid cfg
        ∨ instance_list.region r ≠ instance_list.cfg_region cfg →
        instance_list.sweep cfg seen tbl !! k = Some r)
       ∧ (instance_list.sweep cfg seen tbl !! k = None
          ↔ instance_list.tenancy_ocid r = instance_list.cfg_tenancy_ocid cfg
            ∧ instance_list.region r = instance_list.cfg_region cfg
            ∧ k ∉ seen))
  ∧ (∀ seen (tbl : gmap string dbcs_backup.row) k,
       seen ≠ ∅ → k ∉ seen → dbcs_backup.sweep seen tbl !! k = None)
  ∧ (∀ seen (tbl : gmap string adb_backup.row) k,
       seen ≠ ∅ → k ∉ seen → adb_backup.sweep seen tbl !! k = None)
  ∧ (∀ seen (tbl : gmap string filesystem_list.fs_row) k,
       k ∉ seen → filesystem_list.sweep_table seen tbl !! k = None).
Proof.
  split; [|split; [|split; [|split]]].
  - intros cfg seen tbl k r Hk. rewrite adb_sweep_lookup, Hk.
    unfold adb_list.in_scope. split.
    + intros Hne. rewrite decide_False; [done|]. naive_solver.
    + case_decide; naive_solver.
  - intros cfg seen tbl k r Hk. rewrite instance_sweep_lookup, Hk.
    unfold instance_list.in_scope. split.
    + intros Hne. rewrite decide_False; [done|]. naive_solver.
    + case_decide; naive_solver.
  - intros seen tbl k Hne Hk. unfold dbcs_backup.sweep.
    rewrite decide_False by done. rewrite unscoped_sweep_lookup.
    by rewrite decide_False.
  - intros seen tbl k Hne Hk. unfold adb_backup.sweep.
    rewrite decide_False by done. rewrite unscoped_sweep_lookup.
    by rewrite decide_False.
  - intros seen tbl k Hk. unfold filesystem_list.sweep_table.
    case_decide; [apply lookup_empty|].
    rewrite unscoped_sweep_lookup. by rewrite decide_False.
Qed.

(** A row of another region survives the DELETE of adb_list.py. *)
Lemma sweep_scope_by_script_witness :
  adb_list.sweep Scenario.adb_cfg {["a"]}
    (<["z" := adb_list.make_row
                {| adb_list.cfg_tenancy_id := Scenario.tenancy;
                   adb_list.cfg_region := "us-phoenix-1";
                   adb_list.cfg_tenancy_name := "acme" |}
                (Scenario.adb "z") Scenario.team_a None 1000]> ∅) !! "z"
  = Some (adb_list.make_row
            {| adb_list.cfg_tenancy_id := Scenario.tenancy;
               adb_list.cfg_region := "us-phoenix-1";
               adb_list.cfg_tenancy_name := "acme" |}
            (Scenario.adb "z") Scenario.team_a None 1000).
Proof.
  refine (proj1 (proj1 sweep_scope_by_script Scenario.adb_cfg {["a"]} _ "z" _ _) _).
  - reflexivity.
  - right. discriminate.
Defined.

(** ** Throttling *)

(** A listing whose first invocation is throttled is never invoked again:
    the compartment is passed over, whatever a second invocation would have
    returned. *)
Lemma adb_list_throttled_compartment_skipped cfg api paths ts c st :
  api (c_id c) 0%nat = ServiceError 429 →
  adb_list.collect_compartment cfg api paths ts c st = Returned st.
Proof.
  intros H429. unfold adb_list.collect_compartment. rewrite H429.
  by rewrite decide_True.
Qed.

(** A failure other than HTTP 429 is raised at once. *)
Lemma adb_list_other_failure_raised cfg api paths ts c st status :
  api (c_id c) 0%nat = ServiceError status → status ≠ 429 →
  adb_list.collect_compartment cfg api paths ts c st = Raised st.
Proof.
  intros Herr Hne. unfold adb_list.collect_compartment. rewrite Herr.
  by rewrite decide_False.
Qed.

(** C5 fails on the code.  The listing of c1 is throttled twice and would
    succeed on the third invocation: the Retry Policy of the design document
    returns its two databases, adb_list.py sleeps and moves on to c2 without
    a second invocation, completes, and its DELETE removes the rows a and b
    of c1.  When every listing is throttled the run still completes, with no
    ThrottleExceeded, and the DELETE empties the scope. *)
Theorem throttled_listing_not_retried :
  design_retry_execute 3 0 Scenario.throttled_twice
  = RetryOk [Scenario.adb "a"; Scenario.adb "b"]
  ∧ adb_list.collect_compartment Scenario.adb_cfg Scenario.adb_api_throttled
      (adb_paths Scenario.adb_cfg Scenario.compartments) 2000 Scenario.team_a
      (Scenario.adb_table_1, ∅)
    = Returned (Scenario.adb_table_1, ∅)
  ∧ completed (adb_list.main Scenario.adb_cfg 2000 Scenario.compartments
                 Scenario.adb_api_throttled Scenario.adb_table_1) = true
  ∧ dom Scenario.adb_table_1 = {["a"; "b"; "c"]}
  ∧ dom (final_state
           (adb_list.main Scenario.adb_cfg 2000 Scenario.compartments
              Scenario.adb_api_throttled Scenario.adb_table_1)) = {["c"]}
  ∧ design_retry_execute 3 0 (Scenario.adb_api_all_throttled "c1")
    = ThrottleExceeded
  ∧ adb_list.main Scenario.adb_cfg 2000 Scenario.compartments
      Scenario.adb_api_all_throttled Scenario.adb_table_1 = Returned ∅.
Proof.
  split; [reflexivity|]. split; [reflexivity|]. by vm_compute.
Qed.

(** ** Upserts *)

(** C6, as stated, fails on instance_list.py: instance a is stored under
    compartment c1 and is upserted again from compartment c2; the stored
    compartment_id is still c1, not the new record's c2, while
    compartment_name is the new one. *)
Lemma instance_upsert_keeps_compartment_id :
  ∃ r, instance_list.upsert_instance "a"
         (Scenario.inst_row_in Scenario.sub_1 "a" 2000) Scenario.inst_table_a
       !! "a" = Some r
       ∧ instance_list.r_compartment_id r = "c1"
       ∧ instance_list.r_compartment_id
           (Scenario.inst_row_in Scenario.sub_1 "a" 2000) = "c2"
       ∧ instance_list.compartment_name r = Some "sub1"
       ∧ r ≠ Scenario.inst_row_in Scenario.sub_1 "a" 2000.
Proof.
  eexists. split; [reflexivity|]. repeat split. discriminate.
Qed.

Lemma instance_upsert_idem k new (tbl : gmap string instance_list.row) :
  instance_list.upsert_instance k new (instance_list.upsert_instance k new tbl)
  = instance_list.upsert_instance k new tbl.
Proof.
  rewrite !instance_upsert_insert, lookup_insert_eq, insert_insert_eq.
  f_equal. destruct (tbl !! k); [done | by destruct new].
Qed.

Lemma adb_upsert_idem k new (tbl : gmap string adb_list.row) :
  adb_list.UPSERT_SQL k new (adb_list.UPSERT_SQL k new tbl)
  = adb_list.UPSERT_SQL k new tbl.
Proof. by rewrite !adb_UPSERT_SQL_insert, insert_insert_eq. Qed.

(** ** Running twice *)

Lemma adb_main_returned_survivable cfg ts resp api
    (tbl tbl' : gmap string adb_list.row) :
  adb_list.main cfg ts resp api tbl = Returned tbl' →
  Forall (λ c, survivable (api (c_id c) 0%nat))
    (adb_list.list_all_compartments resp).
Proof.
  intros Hmain.
  destruct (decide (Forall (λ c, survivable (api (c_id c) 0%nat))
                      (adb_list.list_all_compartments resp)))
    as [Hall|Hex]; [done|].
  apply not_Forall_Exists in Hex; [|apply _].
  destruct (adb_list_failure_skips_sweep cfg ts resp api tbl Hex)
    as (tbl'' & Hraise & _).
  congruence.
Qed.

Lemma adb_last_row_None_ts cfg paths ts ts' k items :
  adb_last_row cfg paths ts k items = None →
  adb_last_row cfg paths ts' k items = None.
Proof.
  unfold adb_last_row. by destruct (last _).
Qed.

(** A second run of adb_list.py over the same upstream leaves what a single
    run with its timestamp would have left. *)
Lemma adb_main_twice cfg ts1 ts2 resp api (tbl tbl1 : gmap string adb_list.row) :
  adb_list.main cfg ts1 resp api tbl = Returned tbl1 →
  adb_list.main cfg ts2 resp api tbl1 = adb_list.main cfg ts2 resp api tbl.
Proof.
  intros Hmain1.
  pose proof (adb_main_returned_survivable _ _ _ _ _ _ Hmain1) as Hall.
  destruct (adb_main_lookup cfg ts1 resp api tbl Hall) as (t1 & Ht1 & Hl1).
  destruct (adb_main_lookup cfg ts2 resp api tbl Hall) as (t2 & Ht2 & Hl2).
  destruct (adb_main_lookup cfg ts2 resp api tbl1 Hall) as (t3 & Ht3 & Hl3).
  assert (t1 = tbl1) as -> by congruence.
  rewrite Ht2, Ht3. f_equal. apply map_eq. intros k.
  rewrite Hl3, Hl2, Hl1.
  destruct (adb_last_row cfg _ ts2 k _) as [r|] eqn:Hr2; [done|].
  rewrite (adb_last_row_None_ts _ _ ts2 ts1 _ _ Hr2).
  destruct (tbl !! k) as [r|]; [|done].
  case_decide as Hin; [done|]. by rewrite decide_False.
Qed.

(** A second run of instance_list.py over the same upstream leaves what a
    single run with its timestamp would have left. *)
Lemma instance_main_twice cfg ts1 ts2 tname resp api
    (tbl : gmap string instance_list.row) :
  instance_list.main cfg ts2 tname resp api
    (final_state (instance_list.main cfg ts1 tname resp api tbl))
  = instance_list.main cfg ts2 tname resp api tbl.
Proof.
  destruct (instance_main_lookup cfg ts1 tname resp api tbl)
    as (t1 & Ht1 & Hl1).
  destruct (instance_main_lookup cfg ts2 tname resp api tbl)
    as (t2 & Ht2 & Hl2).
  destruct (instance_main_lookup cfg ts2 tname resp api t1)
    as (t3 & Ht3 & Hl3).
  rewrite Ht1. simpl. rewrite Ht2, Ht3. f_equal. apply map_eq. intros k.
  rewrite Hl3, Hl2, Hl1.
  set (items := instance_listing api (instance_visited cfg tname resp)).
  set (paths := instance_paths cfg tname resp).
  destruct (decide (k ∈ (list_to_set ((λ p, instance_list.id p.2) <$> items)
                         : gset string))) as [Hin|Hout].
  - destruct (instance_cell_listed_is_Some cfg paths ts1 k items (tbl !! k) Hin)
      as [r1 Hr1].
    rewrite Hr1. rewrite decide_False by tauto.
    by rewrite (instance_cell_absorb cfg paths ts1 ts2 k items _ r1 Hr1).
  - rewrite !instance_cell_unlisted by done.
    destruct (tbl !! k) as [r|]; [|done].
    case_decide as Hd; [done|]. by rewrite decide_False.
Qed.

(** C6 (amended): an upsert inserts the record when its key is new.  When
    the key is stored, adb_list.py overwrites every column with the record's
    value, and instance_list.py overwrites every column but tenancy_ocid,
    region and compartment_id, which keep their stored values; in both the
    last-refreshed timestamp becomes the record's, no other row is touched,
    and repeating the upsert changes nothing.  A second run over the same
    upstream leaves the table that a single run with the second timestamp
    would have left, so with equal timestamps the table is unchanged. *)
Theorem upsert_columns_and_idempotence :
  (∀ k new (tbl : gmap string adb_list.row),
     adb_list.UPSERT_SQL k new tbl !! k = Some new
     ∧ (∀ k', k' ≠ k → adb_list.UPSERT_SQL k new tbl !! k' = tbl !! k')
     ∧ adb_list.UPSERT_SQL k new (adb_list.UPSERT_SQL k new tbl)
       = adb_list.UPSERT_SQL k new tbl)
  ∧ (∀ k new (tbl : gmap string instance_list.row),
       (tbl !! k = None →
        instance_list.upsert_instance k new tbl !! k = Some new)
       ∧ (∀ old, tbl !! k = Some old →
            ∃ r, instance_list.upsert_instance k new tbl !! k = Some r
              ∧ instance_list.tenancy_ocid r = instance_list.tenancy_ocid old
              ∧ instance_list.region r = instance_list.region old
              ∧ instance_list.r_compartment_id r
                = instance_list.r_compartment_id old
              ∧ instance_list.compartment_name r
                = instance_list.compartment_name new
              ∧ instance_list.compartment_path r
                = instance_list.compartment_path new
              ∧ instance_list.r_display_name r
                = instance_list.r_display_name new
              ∧ instance_list.r_shape r = instance_list.r_shape new
              ∧ instance_list.ocpus r = instance_list.ocpus new
              ∧ instance_list.memory_gbs r = instance_list.memory_gbs new
              ∧ instance_list.r_lifecycle_state r
                = instance_list.r_lifecycle_state new
              ∧ instance_list.r_availability_domain r
                = instance_list.r_availability_domain new
              ∧ instance_list.primary_vnic_id r
                = instance_list.primary_vnic_id new
              ∧ instance_list.private_ips r = instance_list.private_ips new
              ∧ instance_list.public_ips r = instance_list.public_ips new
              ∧ instance_list.time_created_utc r
                = instance_list.time_created_utc new
              ∧ instance_list.last_refreshed_utc r
                = instance_list.last_refreshed_utc new)
       ∧ (∀ k', k' ≠ k →
            instance_list.upsert_instance k new tbl !! k' = tbl !! k')
       ∧ instance_list.upsert_instance k new
           (instance_list.upsert_instance k new tbl)
         = instance_list.upsert_instance k new tbl)
  ∧ (∀ cfg ts1 ts2 resp api (tbl tbl1 : gmap string adb_list.row),
       adb_list.main cfg ts1 resp api tbl = Returned tbl1 →
       adb_list.main cfg ts2 resp api tbl1 = adb_list.main cfg ts2 resp api tbl
       ∧ adb_list.main cfg ts1 resp api tbl1 = Returned tbl1)
  ∧ (∀ cfg ts1 ts2 tname resp api (tbl tbl1 : gmap string instance_list.row),
       instance_list.main cfg ts1 tname resp api tbl = Returned tbl1 →
       instance_list.main cfg ts2 tname resp api tbl1
       = instance_list.main cfg ts2 tname resp api tbl
       ∧ instance_list.main cfg ts1 tname resp api tbl1 = Returned tbl1).
Proof.
  split; [|split; [|split]].
  - intros k new tbl. rewrite adb_upsert_idem, adb_UPSERT_SQL_insert.
    split; [apply lookup_insert_eq|]. split; [|done].
    intros k' Hne. by rewrite lookup_insert_ne.
  - intros k new tbl. rewrite instance_upsert_idem, instance_upsert_insert.
    split; [|split; [|split; [|done]]].
    + intros ->. apply lookup_insert_eq.
    + intros old ->. eexists. split; [apply lookup_insert_eq|]. by repeat split.
    + intros k' Hne. by rewrite lookup_insert_ne.
  - intros cfg ts1 ts2 resp api tbl tbl1 Hmain.
    split; [by apply (adb_main_twice cfg ts1)|].
    by rewrite (adb_main_twice cfg ts1 ts1 resp api tbl tbl1 Hmain).
  - intros cfg ts1 ts2 tname resp api tbl tbl1 Hmain.
    pose proof (instance_main_twice cfg ts1 ts2 tname resp api tbl) as H2.
    pose proof (instance_main_twice cfg ts1 ts1 tname resp api tbl) as H1.
    rewrite Hmain in H1, H2. simpl in H1, H2. by rewrite H1, H2.
Qed.

(** The third run of the scenario, over the upstream of the second. *)
Lemma upsert_columns_and_idempotence_witness :
  adb_list.main Scenario.adb_cfg 2000 Scenario.compartments
    Scenario.adb_api_2 Scenario.adb_table_2 = Returned Scenario.adb_table_2.
Proof.
  refine (proj2 (proj1 (proj2 (proj2 upsert_columns_and_idempotence))
                   Scenario.adb_cfg 2000 2000 Scenario.compartments
                   Scenario.adb_api_2 Scenario.adb_table_1
                   Scenario.adb_table_2 _)).
  reflexivity.
Defined.

(** ** The root compartment *)

Lemma pydict_get_fold_skip {V W : Type}
    (step : PyDict.t W → string * V → PyDict.t W)
    (items : list (string * V)) (init : PyDict.t W) (k : string) :
  (∀ p e, PyDict.get k (step p e) = PyDict.get k p) →
  PyDict.get k (fold_left step items init) = PyDict.get k init.
Proof.
  intros Hstep. revert init.
  induction items as [|e items IH]; intros init; simpl; [done|].
  by rewrite IH, Hstep.
Qed.

Lemma instance_comp_map_wf cfg tname resp :
  PyDict.wf (instance_comp_map cfg tname resp).
Proof.
  apply pydict_of_list_wf. unfold PyDict.wf, PyDict.keys. simpl.
  apply NoDup_singleton.
Qed.

Lemma instance_comp_map_has_root cfg tname resp :
  is_Some (PyDict.get (instance_list.cfg_tenancy_ocid cfg)
             (instance_comp_map cfg tname resp)).
Proof.
  apply pydict_get_is_Some, pydict_of_list_keys.
  unfold PyDict.keys. simpl. apply list_elem_of_singleton. done.
Qed.

(** C8, as stated, fails on instance_list.py: the path map has an entry for
    the root, which maps the tenancy OCID to the tenancy name. *)
Lemma instance_list_root_has_path :
  PyDict.get Scenario.tenancy
    (instance_list.build_compartment_paths Scenario.inst_cfg
       (instance_list.load_compartments_with_root Scenario.inst_cfg "acme"
          Scenario.compartments) " > ") = Some "acme"
  ∧ PyDict.get Scenario.tenancy
      (instance_list.build_compartment_paths Scenario.inst_cfg
         (instance_list.load_compartments_with_root Scenario.inst_cfg "acme"
            Scenario.compartments) " > ") ≠ None.
Proof. split; [reflexivity | discriminate]. Qed.

(** C8 (amended): the path map of dbcs_list.py never has an entry for the
    root, whatever the node map; the path map that instance_list.py builds
    from its node map, which always holds the root, maps the root id to the
    root's name. *)
Theorem root_entry_by_builder :
  (∀ cfg (comp_map : PyDict.t compartment) sep,
     PyDict.get (dbcs_list.cfg_tenancy_ocid cfg)
       (dbcs_list.build_compartment_paths cfg comp_map sep) = None)
  ∧ (∀ cfg tname resp sep,
       PyDict.get (instance_list.cfg_tenancy_ocid cfg)
         (instance_list.build_compartment_paths cfg
            (instance_list.load_compartments_with_root cfg tname resp) sep)
       = Some (instance_list_root_name cfg
                 (instance_list.load_compartments_with_root cfg tname resp))).
Proof.
  split.
  - intros cfg comp_map sep. unfold dbcs_list.build_compartment_paths.
    rewrite pydict_get_fold_skip; [done|].
    intros p [cid c]. case_decide as Hc; [done|].
    by rewrite pydict_get_set_ne.
  - intros cfg tname resp sep.
    fold (instance_comp_map cfg tname resp).
    rewrite instance_list_paths_get by apply instance_comp_map_wf.
    destruct (instance_comp_map_has_root cfg tname resp) as [root ->].
    simpl. by rewrite decide_True.
Qed.

(** ** Not found *)

(** C9, as stated, fails on the export listing of filesystem_list.py: the
    mount target mt1 is gone when its exports are listed, the HTTP 404 is
    raised, and the run dies before its DELETE; the same 404 on a snapshot
    listing lets the run complete. *)
Lemma filesystem_list_export_404_aborts :
  filesystem_list.list_exports Scenario.fs_client_exports_404 "c1" "es1" 0%nat
  = ServiceError 404
  ∧ filesystem_list.collect_mount_target Scenario.fs_client_exports_404 2000
      Scenario.team_a (Some "acme > teamA") Scenario.mt1 Scenario.fs_empty_db
    = Raised
        (filesystem_list.store_mount_target 2000 (Some "acme > teamA")
           Scenario.mt1 Scenario.fs_empty_db)
  ∧ completed (filesystem_list.main Scenario.fs_cfg
                 Scenario.fs_client_exports_404 2000 Scenario.compartments
                 ["AD-1"] Scenario.fs_empty_db)
    = false
  ∧ completed (filesystem_list.main Scenario.fs_cfg
                 Scenario.fs_client_snapshots_404 2000 Scenario.compartments
                 ["AD-1"] Scenario.fs_empty_db)
    = true.
Proof. repeat split; reflexivity. Qed.

(** C9 (amended): in filesystem_list.py a snapshot listing that fails with
    HTTP 404 counts as an empty list, so the file system is stored without
    snapshots and the loop goes on with the next one; in instance_volume.py
    an instance whose lookup fails with HTTP 404 is passed over, its stored
    rows stay, and the loop goes on with the next instance; the export
    listing of filesystem_list.py does not absorb an HTTP 404: the turn of
    the mount target raises it, after the mount target has been stored. *)
Theorem not_found_by_fetch :
  (∀ cl ts comp path fs rest st,
     filesystem_list.list_snapshots cl (filesystem_list.fs_id fs) 0%nat
     = ServiceError 404 →
     filesystem_list.collect_file_system cl ts comp path fs st
     = Returned (filesystem_list.store_file_system ts comp path fs [] st)
     ∧ for_each (filesystem_list.collect_file_system cl ts comp path)
         (fs :: rest) st
       = for_each (filesystem_list.collect_file_system cl ts comp path) rest
           (filesystem_list.store_file_system ts comp path fs [] st))
  ∧ (∀ cl ts inst_id rest db,
       instance_volume.get_instance cl inst_id 0%nat = ServiceError 404 →
       instance_volume.refresh cl ts inst_id db = Returned db
       ∧ instance_volume.main cl ts (inst_id :: rest) db
         = instance_volume.main cl ts rest db)
  ∧ (∀ cl ts comp path mt export_set_id st,
       filesystem_list.mt_export_set_id mt = Some export_set_id →
       export_set_id ≠ "" →
       filesystem_list.list_exports cl (c_id comp) export_set_id 0%nat
       = ServiceError 404 →
       filesystem_list.collect_mount_target cl ts comp path mt st
       = Raised (filesystem_list.store_mount_target ts path mt st)).
Proof.
  split; [|split].
  - intros cl ts comp path fs rest st H404.
    assert (filesystem_list.collect_file_system cl ts comp path fs st
            = Returned (filesystem_list.store_file_system ts comp path fs [] st))
      as Hfs.
    { unfold filesystem_list.collect_file_system. by rewrite H404. }
    split; [done|]. cbn [for_each]. by rewrite Hfs.
  - intros cl ts inst_id rest db H404.
    assert (instance_volume.refresh cl ts inst_id db = Returned db) as Hr.
    { unfold instance_volume.refresh. by rewrite H404. }
    split; [done|]. unfold instance_volume.main. cbn [for_each].
    by rewrite Hr.
  - intros cl ts comp path mt e st He Hne H404.
    unfold filesystem_list.collect_mount_target.
    rewrite He, decide_False, H404 by done. done.
Qed.

(** The deleted file system fs1 is stored without a latest snapshot. *)
Lemma not_found_by_fetch_witness :
  filesystem_list.collect_file_system Scenario.fs_client_snapshots_404 2000
    Scenario.team_a (Some "acme > teamA") Scenario.fs1 Scenario.fs_empty_db
  = Returned
      (filesystem_list.store_file_system 2000 Scenario.team_a
         (Some "acme > teamA") Scenario.fs1 [] Scenario.fs_empty_db).
Proof.
  refine (proj1 (proj1 not_found_by_fetch Scenario.fs_client_snapshots_404 2000
                   Scenario.team_a (Some "acme > teamA") Scenario.fs1 []
                   Scenario.fs_empty_db _)).
  reflexivity.
Defined.

(** ** dbcs_backup.py: the lookback window *)

Lemma dbcs_lookback_ts now :
  dbcs_backup.lookback_ts now = Some (now - 14 * 86400).
Proof. done. Qed.

Lemma dbcs_upsert_insert k new (tbl : gmap string dbcs_backup.row) :
  dbcs_backup.upsert_backup k new tbl = <[k := new]> tbl.
Proof.
  unfold dbcs_backup.upsert_backup. destruct (tbl !! k); [|done].
  by destruct new.
Qed.

Lemma dbcs_drain_returned lookback name p st st' :
  dbcs_backup.drain lookback name p st = Returned st' →
  st' = fold_left (dbcs_backup.store_backup lookback name) (paged_data p) st.
Proof.
  revert st. induction p as [data|data next IH|s|]; intros st; simpl.
  - by intros [= <-].
  - intros Hd. rewrite fold_left_app. by apply IH.
  - done.
  - done.
Qed.

Lemma dbcs_collect_returned cl lookback ocids st st' :
  for_each (dbcs_backup.collect_db cl lookback) ocids st = Returned st' →
  st' = fold_left (dbcs_store lookback) (dbcs_listing cl ocids) st.
Proof.
  revert st. induction ocids as [|d ocids IH]; intros st.
  - by intros [= <-].
  - cbn [for_each]. unfold dbcs_backup.collect_db at 1.
    destruct (dbcs_backup.drain _ _ _ _) as [st1|st1] eqn:Hd; [|done].
    cbn [and_then]. intros Hrest.
    apply dbcs_drain_returned in Hd. apply IH in Hrest. subst st1 st'.
    change (dbcs_listing cl (d :: ocids))
      with (((λ b, (dbcs_backup.resolve_db_name cl d, b))
               <$> paged_data (dbcs_backup.list_backups cl d))
            ++ dbcs_listing cl ocids).
    by rewrite fold_left_app, fold_left_fmap_list.
Qed.

(** A backup older than the window is passed over. *)
Lemma dbcs_store_too_old lookback name st b :
  dbcs_backup.too_old lookback b = true →
  dbcs_backup.store_backup lookback name st b = st.
Proof. unfold dbcs_backup.store_backup. by intros ->. Qed.

Lemma dbcs_store_in_window from name (st : dbcs_backup.state) b :
  dbcs_backup.too_old (Some from) b = false →
  ∃ r, (dbcs_backup.store_backup (Some from) name st b).1
       = <[dbcs_backup.id b := r]> st.1
       ∧ (dbcs_backup.store_backup (Some from) name st b).2
         = {[dbcs_backup.id b]} ∪ st.2
       ∧ in_window from r.
Proof.
  intros Hold. unfold dbcs_backup.store_backup. rewrite Hold. simpl.
  rewrite dbcs_upsert_insert. eexists. split; [done|]. split; [done|].
  unfold in_window, dbcs_backup.too_old, dbcs_backup.to_dt in *. simpl.
  destruct (dbcs_backup.time_started b) as [ts|]; [|done].
  apply bool_decide_eq_false in Hold. lia.
Qed.

(** What the loop keeps true: the seen ids are those of the listed backups
    in the window, and each of them has a row in the window. *)
Lemma dbcs_store_fold from items (st : dbcs_backup.state) :
  (∀ k, k ∈ st.2 → ∃ r, st.1 !! k = Some r ∧ in_window from r) →
  (fold_left (dbcs_store (Some from)) items st).2
  = list_to_set
      ((λ p, dbcs_backup.id p.2)
         <$> filter (λ p, dbcs_backup.too_old (Some from) p.2 = false) items)
    ∪ st.2
  ∧ ∀ k, k ∈ (fold_left (dbcs_store (Some from)) items st).2 →
         ∃ r, (fold_left (dbcs_store (Some from)) items st).1 !! k = Some r
              ∧ in_window from r.
Proof.
  revert st. induction items as [|[name b] items IH]; intros st Hinv.
  - simpl. split; [set_solver | done].
  - cbn [fold_left]. rewrite filter_cons. cbn [snd].
    change (dbcs_store (Some from) st (name, b))
      with (dbcs_backup.store_backup (Some from) name st b).
    destruct (dbcs_backup.too_old (Some from) b) eqn:Hold.
    + rewrite dbcs_store_too_old by done.
      rewrite decide_False by done. by apply IH.
    + rewrite decide_True by done.
      destruct (dbcs_store_in_window from name st b Hold)
        as (r & Htbl & Hseen & Hwin).
      destruct (IH (dbcs_backup.store_backup (Some from) name st b))
        as [IHseen IHinv].
      { intros k. rewrite Htbl, Hseen.
        destruct (decide (k = dbcs_backup.id b)) as [->|Hne].
        - rewrite lookup_insert_eq. eauto.
        - rewrite lookup_insert_ne by done. intros Hk. apply Hinv.
          set_solver. }
      split; [|done]. rewrite IHseen, Hseen. set_solver.
Qed.

(** C10: in a completed run of dbcs_backup.py, a backup that started before
    the 14-day window is passed over without a write and without entering
    the seen-set; when the run has seen at least one backup, the table it
    leaves has no row for an id outside the seen-set, so the stored rows of
    out-of-window backups are gone, and every row it holds has a start time
    in the window or none at all. *)
Theorem dbcs_backup_lookback_window (cl : dbcs_backup.client) (now : datetime)
    (DB_OCIDS : list string) (tbl tbl' : gmap string dbcs_backup.row) :
  dbcs_backup.main cl now DB_OCIDS tbl = Returned tbl' →
  (∀ name st b ts,
     dbcs_backup.time_started b = Some ts → ts < now - 14 * 86400 →
     dbcs_backup.store_backup (dbcs_backup.lookback_ts now) name st b = st)
  ∧ (dbcs_seen_ids cl now DB_OCIDS ≠ ∅ →
     (∀ k, k ∉ dbcs_seen_ids cl now DB_OCIDS → tbl' !! k = None)
     ∧ (∀ k r, tbl' !! k = Some r →
               k ∈ dbcs_seen_ids cl now DB_OCIDS
               ∧ (dbcs_backup.r_time_started r = None
                  ∨ ∃ ts, dbcs_backup.r_time_started r = Some ts
                          ∧ now - 14 * 86400 ≤ ts))).
Proof.
  intros Hmain. split.
  - intros name st b ts Hts Hlt. apply dbcs_store_too_old.
    unfold dbcs_backup.too_old. rewrite dbcs_lookback_ts, Hts.
    by apply bool_decide_eq_true.
  - unfold dbcs_backup.main in Hmain.
    destruct (for_each _ _ _) as [[t seen]|[t seen]] eqn:Hloop; [|done].
    injection Hmain as <-.
    apply dbcs_collect_returned in Hloop.
    rewrite dbcs_lookback_ts in Hloop.
    destruct (dbcs_store_fold (now - 14 * 86400) (dbcs_listing cl DB_OCIDS)
                (tbl, ∅)) as [Hseen' Hinv'].
    { intros k Hk. by apply elem_of_empty in Hk. }
    pose proof (f_equal fst Hloop) as Ht. pose proof (f_equal snd Hloop) as Hs.
    cbn [fst snd] in Ht, Hs.
    assert (Hseen : seen = dbcs_seen_ids cl now DB_OCIDS).
    { rewrite Hs. unfold dbcs_seen_ids. rewrite dbcs_lookback_ts.
      etrans; [exact Hseen'|]. apply (right_id_L ∅ (∪)). }
    assert (Hinv : ∀ k, k ∈ seen →
                        ∃ r, t !! k = Some r ∧ in_window (now - 14 * 86400) r).
    { rewrite Hs, Ht. exact Hinv'. }
    clear Hseen' Hinv' Hloop Ht Hs. rewrite <-Hseen.
    intros Hne. unfold dbcs_backup.sweep. rewrite decide_False by done.
    split.
    + intros k Hk. rewrite unscoped_sweep_lookup. by rewrite decide_False.
    + intros k r. rewrite unscoped_sweep_lookup.
      case_decide as Hk; [|done]. intros Hr. split; [done|].
      destruct (Hinv k Hk) as (r' & Hr' & Hwin).
      assert (r' = r) as -> by congruence.
      unfold in_window in Hwin.
      destruct (dbcs_backup.r_time_started r) as [ts|]; eauto.
Qed.

(** The run of the scenario: x is in the window, y started 20 days before
    the run and gets no row. *)
Lemma dbcs_backup_lookback_window_witness :
  final_state
    (dbcs_backup.main Scenario.dbcs_client Scenario.dbcs_now ["dba"]
       Scenario.dbcs_table) !! "y" = None.
Proof.
  refine (proj1 (proj2 (dbcs_backup_lookback_window Scenario.dbcs_client
                          Scenario.dbcs_now ["dba"] Scenario.dbcs_table _ _) _)
            "y" _).
  - reflexivity.
  - apply (bool_decide_unpack _). vm_compute. reflexivity.
  - apply (bool_decide_unpack _). vm_compute. reflexivity.
Defined.

Example dbcs_backup_scenario :
  dom (final_state
         (dbcs_backup.main Scenario.dbcs_client Scenario.dbcs_now ["dba"]
            Scenario.dbcs_table)) = {["x"]}.
Proof. by vm_compute. Qed.

(** * Further properties of the scripts *)

(** ** Loops *)

(** A property that every turn of a loop keeps, whether the turn ends
    normally or raises, holds of the state the loop leaves. *)
Lemma for_each_final_inv {A S : Type} (P : S → Prop)
    (body : A → S → outcome S) (l : list A) (s : S) :
  (∀ x s, x ∈ l → P s → P (final_state (body x s))) →
  P s → P (final_state (for_each body l s)).
Proof.
  revert s. induction l as [|x l IH]; intros s Hbody Hs; [done|].
  cbn [for_each]. pose proof (Hbody x s (list_elem_of_here _ _) Hs) as Hx.
  destruct (body x s) as [s1|s1]; cbn [and_then final_state] in *; [|done].
  apply IH; [|done]. intros y s' Hy. apply Hbody. by apply list_elem_of_further.
Qed.

Lemma fold_left_inv {A S : Type} (P : S → Prop) (f : S → A → S)
    (l : list A) (s : S) :
  (∀ s x, x ∈ l → P s → P (f s x)) → P s → P (fold_left f l s).
Proof.
  revert s. induction l as [|x l IH]; intros s Hf Hs; [done|].
  cbn [fold_left]. apply IH.
  - intros s' y Hy. apply Hf. by apply list_elem_of_further.
  - apply Hf; [apply list_elem_of_here | done].
Qed.

(** ** The compartment maps *)

(** [d[key(c)] = c] for every [c] of a list: a key ends up with the last
    element that carries it. *)
Lemma pydict_get_of_list {V : Type} (key : V → string) (l : list V)
    (d : PyDict.t V) (k : string) :
  PyDict.get k (fold_left (λ d c, PyDict.set (key c) c d) l d)
  = match last (filter (λ c, key c = k) l) with
    | Some c => Some c
    | None => PyDict.get k d
    end.
Proof.
  revert d. induction l as [|c l IH]; intros d; [done|].
  cbn [fold_left]. rewrite IH, filter_cons.
  destruct (decide (key c = k)) as [<-|Hne].
  - rewrite last_cons. destruct (last _); [done|].
    apply pydict_get_set_eq.
  - destruct (last _); [done|]. by apply pydict_get_set_ne.
Qed.

Lemma pydict_elem_of_get {V : Type} (d : PyDict.t V) (k : string) (v : V) :
  PyDict.wf d → (k, v) ∈ PyDict.items d ↔ PyDict.get k d = Some v.
Proof.
  unfold PyDict.wf, PyDict.keys, PyDict.items.
  induction d as [|[k' v'] d IH]; intros Hwf.
  - split; [by intros ?%elem_of_nil | done].
  - apply NoDup_cons in Hwf as [Hk' Hwf]. simpl.
    rewrite elem_of_cons. case_decide as Hk.
    + subst k'. split.
      * intros [[= ->]|Hin]; [done|].
        destruct Hk'. apply list_elem_of_fmap. by exists (k, v).
      * intros [= ->]. by left.
    + rewrite <-(IH Hwf). split; [|by right].
      intros [[= -> ->]|Hin]; [done | done].
Qed.

(** X1: in every script the compartment map built from the listing maps an
    id to the last listed compartment that carries it, and to nothing when
    no listed compartment does; the map of instance_list.py, which starts
    from a stand-in for the tenancy root, keeps that stand-in only while no
    listed compartment carries the tenancy's id. *)
Theorem comp_map_lookup_last (compartments : list compartment) (cid : string)
    (cfg : instance_list.config) (tenancy_name : string) :
  PyDict.get cid (adb_list.comp_map_of compartments)
  = last (filter (λ c, c_id c = cid) compartments)
  ∧ PyDict.get cid (dbcs_list.load_compartments_with_parents compartments)
    = last (filter (λ c, c_id c = cid) compartments)
  ∧ PyDict.get cid (filesystem_list.comp_by_id compartments)
    = last (filter (λ c, c_id c = cid) compartments)
  ∧ PyDict.get cid
      (instance_list.load_compartments_with_root cfg tenancy_name compartments)
    = match last (filter (λ c, c_id c = cid) compartments) with
      | Some c => Some c
      | None =>
          if decide (cid = instance_list.cfg_tenancy_ocid cfg)
          then Some {| c_id := instance_list.cfg_tenancy_ocid cfg;
                       c_name := tenancy_name;
                       c_compartment_id := None;
                       c_lifecycle_state := "ACTIVE" |}
          else None
      end.
Proof.
  assert (Hlast : ∀ d : PyDict.t compartment,
            PyDict.get cid d = None →
            PyDict.get cid (fold_left (λ d c, PyDict.set (c_id c) c d)
                              compartments d)
            = last (filter (λ c, c_id c = cid) compartments)).
  { intros d Hd. rewrite pydict_get_of_list, Hd. by destruct (last _). }
  split; [by apply Hlast|]. split; [by apply Hlast|]. split; [by apply Hlast|].
  unfold instance_list.load_compartments_with_root.
  rewrite pydict_get_of_list. destruct (last _); [done|]. simpl.
  by case_decide.
Qed.

(** ** instance_list.py: the compartments a run visits *)

Lemma pydict_filter_items_NoDup {V : Type} (P : string * V → Prop)
    `{!∀ e, Decision (P e)} (d : PyDict.t V) :
  PyDict.wf d → NoDup (filter P (PyDict.items d)).*1.
Proof.
  unfold PyDict.wf, PyDict.keys, PyDict.items.
  induction d as [|[k v] d IH]; intros Hwf; [constructor|].
  apply NoDup_cons in Hwf as [Hk Hwf]. rewrite filter_cons.
  case_decide; [|by apply IH]. cbn [fmap list_fmap fst]. apply NoDup_cons.
  split; [|by apply IH]. intros Hin. apply Hk.
  apply list_elem_of_fmap in Hin as ([k' v'] & -> & Hin).
  apply list_elem_of_filter in Hin as [_ Hin].
  apply list_elem_of_fmap. by exists (k', v').
Qed.

(** X2: the loop of instance_list.py visits a compartment exactly when it is
    the last listed compartment with its id, that id is not the tenancy's,
    and it is ACTIVE; it visits no id twice, and never the tenancy root,
    whose instances are therefore never listed. *)
Theorem instance_list_visited_compartments (cfg : instance_list.config)
    (tenancy_name : string) (response_data : list compartment) :
  NoDup (instance_visited cfg tenancy_name response_data).*1
  ∧ (∀ cid c,
       (cid, c) ∈ instance_visited cfg tenancy_name response_data
       ↔ cid ≠ instance_list.cfg_tenancy_ocid cfg
         ∧ last (filter (λ c', c_id c' = cid) response_data) = Some c
         ∧ c_lifecycle_state c = "ACTIVE")
  ∧ (∀ cid c,
       (cid, c) ∈ instance_visited cfg tenancy_name response_data →
       c_id c = cid).
Proof.
  pose proof (instance_comp_map_wf cfg tenancy_name response_data) as Hwf.
  assert (Hiff : ∀ cid c,
            (cid, c) ∈ instance_visited cfg tenancy_name response_data
            ↔ cid ≠ instance_list.cfg_tenancy_ocid cfg
              ∧ last (filter (λ c', c_id c' = cid) response_data) = Some c
              ∧ c_lifecycle_state c = "ACTIVE").
  { intros cid c. unfold instance_visited, instance_list.active_comps.
    unfold PyDict.items at 1. rewrite list_elem_of_filter. cbn [fst snd].
    rewrite (pydict_elem_of_get _ cid c Hwf).
    unfold instance_comp_map, instance_list.load_compartments_with_root.
    rewrite pydict_get_of_list. cbn [PyDict.get].
    destruct (last _) as [c'|].
    - naive_solver.
    - case_decide; naive_solver. }
  split; [|split; [exact Hiff|]].
  - by apply pydict_filter_items_NoDup.
  - intros cid c (_ & Hlast & _)%Hiff.
    apply last_Some_elem_of, list_elem_of_filter in Hlast. by destruct Hlast.
Qed.

Lemma instance_list_visited_compartments_witness :
  ("c1", Scenario.team_a)
    ∈ instance_visited Scenario.inst_cfg "acme" Scenario.compartments
  ∧ c_id Scenario.team_a = "c1".
Proof.
  pose proof (instance_list_visited_compartments Scenario.inst_cfg "acme"
                Scenario.compartments) as (_ & Hiff & Hid).
  assert (Hin : ("c1", Scenario.team_a)
                  ∈ instance_visited Scenario.inst_cfg "acme"
                      Scenario.compartments).
  { apply Hiff. split; [discriminate|]. split; reflexivity. }
  split; [exact Hin | exact (Hid _ _ Hin)].
Defined.

(** ** adb_list.py: what a run leaves in its scope *)

Lemma elem_of_adb_listing api comps c a :
  (c, a) ∈ adb_listing api comps
  ↔ c ∈ comps ∧ ∃ adbs, api (c_id c) 0%nat = Ok adbs ∧ a ∈ adbs.
Proof.
  unfold adb_listing. rewrite list_elem_of_bind. split.
  - intros (c' & Hin & Hc'). destruct (api (c_id c') 0%nat) as [adbs| |] eqn:E;
      try by apply elem_of_nil in Hin.
    apply list_elem_of_fmap in Hin as (a' & [= -> ->] & Ha). eauto.
  - intros (Hc & adbs & E & Ha). exists c. split; [|done]. rewrite E.
    apply list_elem_of_fmap. eauto.
Qed.

(** A row of the scope that a completed run leaves was written by the run,
    from a listed database. *)
Lemma adb_main_scope_row cfg ts resp api (tbl tbl' : gmap string adb_list.row)
    k r :
  adb_list.main cfg ts resp api tbl = Returned tbl' →
  tbl' !! k = Some r → adb_list.in_scope cfg r →
  ∃ c a, (c, a) ∈ adb_run_items resp api ∧ adb_list.id a = k
         ∧ r = adb_list.make_row cfg a c
                 (PyDict.get (c_id c) (adb_paths cfg resp)) ts.
Proof.
  intros Hmain Hr Hscope.
  pose proof (adb_main_returned_survivable _ _ _ _ _ _ Hmain) as Hsurv.
  destruct (adb_main_lookup cfg ts resp api tbl Hsurv) as (t & Ht & Hlook).
  assert (t = tbl') as -> by congruence.
  rewrite Hlook in Hr. unfold adb_last_row in Hr.
  destruct (last (filter _ _)) as [[c a]|] eqn:Hlast; simpl in Hr.
  - injection Hr as <-. exists c, a.
    apply last_Some_elem_of, list_elem_of_filter in Hlast as [Hid Hin].
    done.
  - destruct (tbl !! k) as [r0|]; [|done]. case_decide; [done|].
    by injection Hr as ->.
Qed.

Lemma filter_last_is_Some {A : Type} (P : A → Prop) `{!∀ x, Decision (P x)}
    (l : list A) (x : A) :
  x ∈ l → P x → is_Some (last (filter P l)).
Proof.
  intros Hin HP. apply last_is_Some. intros Hnil.
  assert (x ∈ filter P l) as Hx by by apply list_elem_of_filter.
  rewrite Hnil in Hx. by apply elem_of_nil in Hx.
Qed.

Lemma adb_make_row_fields cfg a c path ts :
  adb_list.last_refreshed_utc (adb_list.make_row cfg a c path ts) = ts
  ∧ adb_list.compartment_ocid (adb_list.make_row cfg a c path ts) = c_id c
  ∧ adb_list.compartment_name (adb_list.make_row cfg a c path ts) = c_name c
  ∧ adb_list.compartment_path (adb_list.make_row cfg a c path ts) = path.
Proof.
  unfold adb_list.make_row.
  by destruct (adb_list.compute_count a), (adb_list.cpu_core_count a).
Qed.

(** X3: after a completed run of adb_list.py every row of the run's
    (tenancy, region) carries the run's timestamp and the id of a database
    listed in the run; its compartment is a listed ACTIVE compartment, and
    its path is never NULL: it is the two-level path of the last listed
    ACTIVE compartment with that id. *)
Theorem adb_list_scope_rows_fresh (cfg : adb_list.config) (ts : datetime)
    (resp : list compartment) (api : string → operation (list adb_list.adb))
    (tbl tbl' : gmap string adb_list.row) (k : string) (r : adb_list.row) :
  let comps := adb_list.list_all_compartments resp in
  adb_list.main cfg ts resp api tbl = Returned tbl' →
  tbl' !! k = Some r → adb_list.in_scope cfg r →
  adb_list.last_refreshed_utc r = ts
  ∧ k ∈ adb_listed_ids api comps
  ∧ (∃ c, c ∈ resp ∧ c_lifecycle_state c = "ACTIVE"
          ∧ adb_list.compartment_ocid r = c_id c
          ∧ adb_list.compartment_name r = c_name c)
  ∧ (∃ c', last (filter (λ x, c_id x = adb_list.compartment_ocid r) comps)
           = Some c'
           ∧ adb_list.compartment_path r
             = Some (two_level_path (adb_list.comp_map_of comps)
                       (adb_list.cfg_tenancy_id cfg)
                       (adb_list.cfg_tenancy_name cfg) " > " c')).
Proof.
  intros comps Hmain Hr Hscope.
  destruct (adb_main_scope_row _ _ _ _ _ _ _ _ Hmain Hr Hscope)
    as (c & a & Hin & Hid & ->).
  pose proof Hin as Hin'.
  apply elem_of_adb_listing in Hin' as (Hc & adbs & Hapi & Ha).
  destruct (adb_make_row_fields cfg a c
              (PyDict.get (c_id c) (adb_paths cfg resp)) ts)
    as (-> & -> & -> & ->).
  split; [done|]. split.
  { unfold adb_listed_ids. apply elem_of_list_to_set, list_elem_of_fmap.
    by exists (c, a). }
  pose proof Hc as Hc'.
  apply list_elem_of_filter in Hc' as [Hact Hresp].
  split; [by exists c|].
  destruct (filter_last_is_Some (λ x, c_id x = c_id c) comps c Hc eq_refl)
    as [c' Hlast].
  exists c'. split; [done|].
  unfold adb_paths. rewrite adb_list_paths_get. fold comps.
  unfold adb_list.comp_map_of at 2. by rewrite pydict_get_of_list, Hlast.
Qed.

Lemma adb_list_scope_rows_fresh_witness :
  ∃ r, Scenario.adb_table_2 !! "a" = Some r
       ∧ adb_list.last_refreshed_utc r = 2000.
Proof.
  eexists. split; [vm_compute; reflexivity|].
  apply (adb_list_scope_rows_fresh Scenario.adb_cfg 2000 Scenario.compartments
           Scenario.adb_api_2 Scenario.adb_table_1 Scenario.adb_table_2 "a").
  - vm_compute. reflexivity.
  - vm_compute. reflexivity.
  - split; reflexivity.
Defined.

(** X4: in the rows that a completed run of adb_list.py leaves in its
    scope, compute_type is ECPU, OCPU or UNKNOWN and compute_count is NULL
    exactly for UNKNOWN; workload and lifecycle are never empty;
    auto_scaling is 0 or 1. *)
Theorem adb_list_scope_rows_columns (cfg : adb_list.config) (ts : datetime)
    (resp : list compartment) (api : string → operation (list adb_list.adb))
    (tbl tbl' : gmap string adb_list.row) (k : string) (r : adb_list.row) :
  adb_list.main cfg ts resp api tbl = Returned tbl' →
  tbl' !! k = Some r → adb_list.in_scope cfg r →
  adb_list.compute_type r ∈ ["ECPU"; "OCPU"; "UNKNOWN"]
  ∧ (adb_list.r_compute_count r = None ↔ adb_list.compute_type r = "UNKNOWN")
  ∧ adb_list.workload r ≠ ""
  ∧ adb_list.lifecycle r ≠ ""
  ∧ (adb_list.auto_scaling r = 0 ∨ adb_list.auto_scaling r = 1).
Proof.
  intros Hmain Hr Hscope.
  destruct (adb_main_scope_row _ _ _ _ _ _ _ _ Hmain Hr Hscope)
    as (c & a & _ & _ & ->).
  assert (Hor : ∀ o, py_or o "UNKNOWN" ≠ "").
  { intros [s|]; simpl; [|done]. by case_decide. }
  unfold adb_list.make_row.
  destruct (adb_list.compute_count a), (adb_list.cpu_core_count a);
    cbn [adb_list.compute_type adb_list.r_compute_count adb_list.workload
         adb_list.lifecycle adb_list.auto_scaling].
  all: split; [set_solver|]; split; [done|]; split; [apply Hor|];
    split; [apply Hor|];
    by destruct (adb_list.is_auto_scaling_enabled a); auto.
Qed.

Lemma adb_list_scope_rows_columns_witness :
  ∃ r, Scenario.adb_table_2 !! "a" = Some r
       ∧ adb_list.workload r ≠ "".
Proof.
  eexists. split; [vm_compute; reflexivity|].
  apply (adb_list_scope_rows_columns Scenario.adb_cfg 2000
           Scenario.compartments Scenario.adb_api_2 Scenario.adb_table_1
           Scenario.adb_table_2 "a").
  - vm_compute. reflexivity.
  - vm_compute. reflexivity.
  - split; reflexivity.
Defined.

(** ** adb_list.py: what a run leaves alone *)

Lemma adb_store_fold_unlisted cfg paths ts items (st : adb_list.state) k :
  k ∉ (list_to_set ((λ p, adb_list.id p.2) <$> items) : gset string) →
  (fold_left (adb_store cfg paths ts) items st).1 !! k = st.1 !! k.
Proof.
  intros Hk. rewrite adb_store_fold_lookup.
  destruct (adb_last_row cfg paths ts k items) as [r|] eqn:Hrow; [|done].
  contradict Hk. apply (adb_last_row_is_Some cfg paths ts). by rewrite Hrow.
Qed.

Lemma adb_listed_ids_elem api comps c adbs a :
  c ∈ comps → api (c_id c) 0%nat = Ok adbs → a ∈ adbs →
  adb_list.id a ∈ adb_listed_ids api comps.
Proof.
  intros Hc Hapi Ha. unfold adb_listed_ids.
  apply elem_of_list_to_set, list_elem_of_fmap. exists (c, a).
  split; [done|]. apply elem_of_adb_listing. eauto.
Qed.

(** Whatever its outcome, the loop leaves the cell of an id that no listing
    returns as it was. *)
Lemma adb_collect_unlisted cfg api paths ts comps (st : adb_list.state) k :
  k ∉ adb_listed_ids api comps →
  (final_state
     (for_each (adb_list.collect_compartment cfg api paths ts) comps st)).1 !! k
  = st.1 !! k.
Proof.
  intros Hk.
  apply (for_each_final_inv (λ s : adb_list.state, s.1 !! k = st.1 !! k));
    [|done].
  intros c s Hc Hs. rewrite <-Hs.
  destruct (decide (survivable (api (c_id c) 0%nat))) as [Hsurv|Hfatal].
  - rewrite (adb_collect_compartment_survivable cfg api paths ts c s Hsurv).
    cbn [final_state]. apply adb_store_fold_unlisted.
    intros Hin. apply Hk.
    apply elem_of_list_to_set, list_elem_of_fmap in Hin as ([c' a] & -> & Hin).
    apply elem_of_adb_listing in Hin as (Hc' & adbs & Hapi & Ha).
    apply list_elem_of_singleton in Hc' as ->.
    by eapply adb_listed_ids_elem.
  - by rewrite (adb_collect_compartment_fatal cfg api paths ts c s Hfatal).
Qed.

(** X5: a completed run of adb_list.py leaves every row of another tenancy
    or region whose id no listing returned exactly as it was. *)
Theorem adb_list_run_frame (cfg : adb_list.config) (ts : datetime)
    (resp : list compartment) (api : string → operation (list adb_list.adb))
    (tbl tbl' : gmap string adb_list.row) (k : string) (r : adb_list.row) :
  adb_list.main cfg ts resp api tbl = Returned tbl' →
  tbl !! k = Some r → ¬ adb_list.in_scope cfg r →
  k ∉ adb_listed_ids api (adb_list.list_all_compartments resp) →
  tbl' !! k = Some r.
Proof.
  intros Hmain Hr Hscope Hk. unfold adb_list.main in Hmain.
  pose proof (adb_collect_unlisted cfg api (adb_paths cfg resp) ts
                (adb_list.list_all_compartments resp) (tbl, ∅) k Hk) as Hcell.
  unfold adb_paths in Hcell.
  destruct (for_each _ _ _) as [[t seen]|[t seen]]; [|done].
  injection Hmain as <-. cbn [final_state fst] in Hcell.
  rewrite adb_sweep_lookup, Hcell, Hr. apply decide_False. tauto.
Qed.

Lemma adb_list_run_frame_witness :
  final_state
    (adb_list.main Scenario.adb_cfg 2000 Scenario.compartments
       Scenario.adb_api_2 (<["z" := Scenario.adb_row_phoenix]> ∅)) !! "z"
  = Some Scenario.adb_row_phoenix.
Proof.
  apply (adb_list_run_frame Scenario.adb_cfg 2000 Scenario.compartments
           Scenario.adb_api_2 (<["z" := Scenario.adb_row_phoenix]> ∅)).
  - vm_compute. reflexivity.
  - vm_compute. reflexivity.
  - intros [_ Hreg]. discriminate Hreg.
  - apply (bool_decide_unpack _). vm_compute. reflexivity.
Defined.

(** X6: when a listing of adb_list.py fails with anything but HTTP 429 the
    run raises, deletes nothing, and has not touched any row whose id no
    listing returns. *)
Theorem adb_list_abort_keeps_rows (cfg : adb_list.config) (ts : datetime)
    (resp : list compartment) (api : string → operation (list adb_list.adb))
    (tbl : gmap string adb_list.row) :
  Exists (λ c, ¬ survivable (api (c_id c) 0%nat))
    (adb_list.list_all_compartments resp) →
  ∃ tbl', adb_list.main cfg ts resp api tbl = Raised tbl'
    ∧ dom tbl ⊆ dom tbl'
    ∧ ∀ k, k ∉ adb_listed_ids api (adb_list.list_all_compartments resp) →
           tbl' !! k = tbl !! k.
Proof.
  intros Hfatal. unfold adb_list.main.
  destruct (adb_collect_fatal cfg api (adb_paths cfg resp) ts
              (adb_list.list_all_compartments resp) (tbl, ∅) Hfatal)
    as [[t seen] Hloop].
  pose proof (adb_collect_dom cfg api (adb_paths cfg resp) ts
                (adb_list.list_all_compartments resp) (tbl, ∅)) as Hdom.
  pose proof (adb_collect_unlisted cfg api (adb_paths cfg resp) ts
                (adb_list.list_all_compartments resp) (tbl, ∅)) as Hcell.
  unfold adb_paths in Hloop, Hdom, Hcell. rewrite Hloop in Hdom, Hcell.
  rewrite Hloop. exists t. split; [done|]. split; [exact Hdom|].
  intros k Hk. exact (Hcell k Hk).
Qed.

Lemma adb_list_abort_keeps_rows_witness :
  ∃ tbl', adb_list.main Scenario.adb_cfg 2000 Scenario.compartments
            Scenario.adb_api_failing Scenario.adb_table_1 = Raised tbl'
    ∧ dom Scenario.adb_table_1 ⊆ dom tbl'.
Proof.
  destruct (adb_list_abort_keeps_rows Scenario.adb_cfg 2000
              Scenario.compartments Scenario.adb_api_failing
              Scenario.adb_table_1) as (tbl' & Hmain & Hdom & _).
  - apply Exists_cons_hd. vm_compute. intros H. discriminate H.
  - exists tbl'. split; [exact Hmain | exact Hdom].
Defined.

(** ** instance_list.py: what a run leaves in its scope *)

(** The cell of a listed id holds what the upsert of one of its listed
    items wrote. *)
Lemma instance_cell_listed_row cfg paths ts k items old :
  k ∈ (list_to_set ((λ p, instance_list.id p.2) <$> items) : gset string) →
  ∃ p o, p ∈ items ∧ instance_list.id p.2 = k
         ∧ instance_cell cfg paths ts k items old
           = Some (instance_merge o (instance_new_row cfg paths ts p)).
Proof.
  revert old. induction items as [|p items IH]; intros old Hk.
  { by apply elem_of_empty in Hk. }
  rewrite instance_cell_cons.
  destruct (decide (k ∈ (list_to_set ((λ p, instance_list.id p.2) <$> items)
                         : gset string))) as [Hin|Hnotin].
  - destruct (IH (if decide (instance_list.id p.2 = k)
                  then Some (instance_merge old
                               (instance_new_row cfg paths ts p))
                  else old) Hin) as (p' & o & Hp' & Hid & Hcell).
    exists p', o. split; [by apply list_elem_of_further | done].
  - rewrite instance_cell_unlisted by done.
    assert (instance_list.id p.2 = k) as Hid by set_solver.
    rewrite decide_True by done.
    exists p, old. split; [apply list_elem_of_here | done].
Qed.

Lemma get_vnic_and_ips_all_or_none inst :
  get_vnic_and_ips_spec (instance_list.get_vnic_and_ips inst).
Proof.
  unfold instance_list.get_vnic_and_ips, get_vnic_and_ips_spec.
  case_decide; [naive_solver|].
  destruct (instance_list.vnic_attachments inst) as [[|primary l]| |];
    try naive_solver.
  destruct (instance_list.get_vnic inst primary); naive_solver.
Qed.

Lemma elem_of_instance_listing api comps e i :
  (e, i) ∈ instance_listing api comps
  ↔ e ∈ comps ∧ i ∈ instance_list.list_instances api e.1.
Proof.
  unfold instance_listing. rewrite list_elem_of_bind. split.
  - intros (e' & Hin & He').
    apply list_elem_of_fmap in Hin as (i' & [= -> ->] & Hi). done.
  - intros [He Hi]. exists e. split; [|done].
    apply list_elem_of_fmap. eauto.
Qed.

(** X7: instance_list.py completes whatever its listings return, and every
    row it leaves in the run's (tenancy, region) carries the run's timestamp
    and a listed id; its compartment name and path are those of a visited
    compartment, the path is never NULL, and the VNIC id and the two address
    columns are NULL together or set together. *)
Theorem instance_list_scope_rows_fresh (cfg : instance_list.config)
    (ts : datetime) (tname : string) (resp : list compartment)
    (api : string → operation (list instance_list.instance))
    (tbl : gmap string instance_list.row) :
  ∃ tbl', instance_list.main cfg ts tname resp api tbl = Returned tbl'
    ∧ ∀ k r, tbl' !! k = Some r → instance_list.in_scope cfg r →
        instance_list.last_refreshed_utc r = ts
        ∧ k ∈ instance_listed_ids api (instance_visited cfg tname resp)
        ∧ (∃ cid c, (cid, c) ∈ instance_visited cfg tname resp
                    ∧ instance_list.compartment_name r = Some (c_name c)
                    ∧ instance_list.compartment_path r
                      = PyDict.get cid (instance_paths cfg tname resp))
        ∧ is_Some (instance_list.compartment_path r)
        ∧ get_vnic_and_ips_spec
            (instance_list.primary_vnic_id r, instance_list.private_ips r,
             instance_list.public_ips r).
Proof.
  destruct (instance_main_lookup cfg ts tname resp api tbl)
    as (tbl' & Hmain & Hlook).
  exists tbl'. split; [done|]. intros k r Hr Hscope.
  rewrite Hlook in Hr.
  destruct (instance_cell _ _ _ _ _ _) as [r'|] eqn:Hcell; [|done].
  case_decide as Hdel; [done|]. injection Hr as ->.
  assert (Hk : k ∈ instance_listed_ids api (instance_visited cfg tname resp)).
  { unfold instance_listed_ids.
    destruct (decide (k ∈ (list_to_set
                ((λ p, instance_list.id p.2)
                   <$> instance_listing api (instance_visited cfg tname resp))
                : gset string))); [done | tauto]. }
  destruct (instance_cell_listed_row cfg (instance_paths cfg tname resp) ts k
              (instance_listing api (instance_visited cfg tname resp))
              (tbl !! k) Hk) as ([[cid c] i] & o & Hp & Hid & Hcell').
  rewrite Hcell in Hcell'. injection Hcell' as ->.
  apply elem_of_instance_listing in Hp as [Hvisit Hi].
  pose proof (get_vnic_and_ips_all_or_none i) as Hvnic.
  unfold instance_new_row, instance_list.make_row. cbn [fst snd].
  destruct (instance_list.get_vnic_and_ips i) as [[v priv] pub].
  assert (Hpath : is_Some (PyDict.get cid (instance_paths cfg tname resp))).
  { unfold instance_paths.
    rewrite instance_list_paths_get by apply instance_comp_map_wf.
    unfold instance_visited, instance_list.active_comps in Hvisit.
    apply list_elem_of_filter in Hvisit as [_ Hin].
    apply (pydict_elem_of_get _ _ _ (instance_comp_map_wf cfg tname resp))
      in Hin.
    rewrite Hin. by eexists. }
  destruct o as [o|]; cbn.
  - split; [done|]. split; [done|]. split; [by exists cid, c|]. done.
  - split; [done|]. split; [done|]. split; [by exists cid, c|]. done.
Qed.

Lemma instance_list_scope_rows_fresh_witness :
  ∃ r, Scenario.inst_table_2 !! "a" = Some r
       ∧ instance_list.last_refreshed_utc r = 2000.
Proof.
  destruct (instance_list_scope_rows_fresh Scenario.inst_cfg 2000 "acme"
              Scenario.compartments Scenario.inst_api_2 Scenario.inst_table_1)
    as (tbl' & Hmain & Hrows).
  assert (Heq : tbl' = Scenario.inst_table_2).
  { unfold Scenario.inst_table_2. rewrite Hmain. reflexivity. }
  subst tbl'. eexists. split; [vm_compute; reflexivity|].
  apply (Hrows "a").
  - vm_compute. reflexivity.
  - split; reflexivity.
Defined.

(** ** adb_backup.py: the run as a whole *)

Lemma adb_backup_collect_fold cl utcnow ocids st :
  for_each (adb_backup.collect_adb cl utcnow) ocids st
  = Returned (fold_left (adb_backup_store utcnow)
                (adb_backup_listing cl ocids) st).
Proof.
  revert st. induction ocids as [|a ocids IH]; intros st; [done|].
  cbn [for_each].
  change (adb_backup_listing cl (a :: ocids))
    with (match adb_backup.get_adb_info cl a, adb_backup.get_all_backups cl a
          with
          | Ok (status, name), Ok backups =>
              (λ b, (status, name, b)) <$> backups
          | _, _ => []
          end ++ adb_backup_listing cl ocids).
  rewrite fold_left_app. unfold adb_backup.collect_adb at 1.
  destruct (adb_backup.get_adb_info cl a) as [[status name]| |];
    cbn [and_then fold_left]; try apply IH.
  destruct (adb_backup.get_all_backups cl a) as [backups| |];
    cbn [and_then fold_left]; try apply IH.
  rewrite IH. by rewrite fold_left_fmap_list.
Qed.

Lemma adb_backup_save_lookup utcnow name status b
    (tbl : gmap string adb_backup.row) k :
  adb_backup.save_backup_to_mysql utcnow name status b tbl !! k
  = if decide (k = adb_backup.id b)
    then Some {| adb_backup.adb_name :=
                   from_option adb_backup.adb_name name
                     (tbl !! adb_backup.id b);
                 adb_backup.adb_status := Some status;
                 adb_backup.backup_status := adb_backup.lifecycle_state b;
                 adb_backup.r_time_started := adb_backup.time_started b;
                 adb_backup.r_time_ended := adb_backup.time_ended b;
                 adb_backup.created_at := utcnow |}
    else tbl !! k.
Proof.
  unfold adb_backup.save_backup_to_mysql.
  destruct (tbl !! adb_backup.id b) as [old|] eqn:Hold; case_decide as Hk;
    subst; rewrite ?lookup_insert_eq, ?lookup_insert_ne by done; done.
Qed.

(** What the loop keeps true: every seen id has a row, the rows are those
    stored before together with the seen ones, and a row stored before
    keeps its [adb_name]. *)
Lemma adb_backup_store_fold utcnow items (st : adb_backup.state) :
  let st' := fold_left (adb_backup_store utcnow) items st in
  st'.2 = list_to_set ((λ p, adb_backup.id p.2) <$> items) ∪ st.2
  ∧ dom st'.1 = list_to_set ((λ p, adb_backup.id p.2) <$> items) ∪ dom st.1
  ∧ ∀ k r, st.1 !! k = Some r →
           ∃ r', st'.1 !! k = Some r'
                 ∧ adb_backup.adb_name r' = adb_backup.adb_name r.
Proof.
  revert st. induction items as [|p items IH]; intros st; cbn zeta.
  { cbn [fold_left]. split; [set_solver|]. split; [set_solver|]. eauto. }
  cbn [fold_left].
  destruct (IH (adb_backup_store utcnow st p)) as (Hseen & Hdom & Hname).
  assert (Hd : dom (adb_backup_store utcnow st p).1
               = {[adb_backup.id p.2]} ∪ dom st.1).
  { apply set_eq. intros k. rewrite elem_of_dom. cbn [adb_backup_store fst].
    rewrite adb_backup_save_lookup. rewrite elem_of_union, elem_of_singleton.
    rewrite elem_of_dom. case_decide; naive_solver. }
  split; [|split].
  - rewrite Hseen. cbn [adb_backup_store snd]. set_solver.
  - rewrite Hdom, Hd. set_solver.
  - intros k r Hr.
    destruct (Hname k
                (if decide (k = adb_backup.id p.2)
                 then {| adb_backup.adb_name := adb_backup.adb_name r;
                         adb_backup.adb_status := Some p.1.1;
                         adb_backup.backup_status :=
                           adb_backup.lifecycle_state p.2;
                         adb_backup.r_time_started :=
                           adb_backup.time_started p.2;
                         adb_backup.r_time_ended := adb_backup.time_ended p.2;
                         adb_backup.created_at := utcnow |}
                 else r)) as (r' & Hr' & Hn).
    { cbn [adb_backup_store fst]. rewrite adb_backup_save_lookup.
      case_decide as Hk; [|done]. subst k. by rewrite Hr. }
    exists r'. split; [done|]. rewrite Hn. by case_decide.
Qed.



(** X9: a row of adb_backup_status that is still there after a run has the
    [adb_name] it had before: the name a backup was first stored under is
    never rewritten, whatever name the database has now. *)
Theorem adb_backup_name_kept (cl : adb_backup.client) (utcnow : datetime)
    (ADB_OCIDS : list string) (tbl : gmap string adb_backup.row)
    (k : string) (r r' : adb_backup.row) :
  tbl !! k = Some r →
  final_state (adb_backup.main cl utcnow ADB_OCIDS tbl) !! k = Some r' →
  adb_backup.adb_name r' = adb_backup.adb_name r.
Proof.
  intros Hr. unfold adb_backup.main. rewrite adb_backup_collect_fold.
  destruct (adb_backup_store_fold utcnow (adb_backup_listing cl ADB_OCIDS)
              (tbl, ∅)) as (_ & _ & Hname).
  destruct (fold_left _ _ _) as [t seen]. cbn [fst snd final_state] in *.
  destruct (Hname k r Hr) as (r1 & Hr1 & Hn).
  unfold adb_backup.sweep. case_decide.
  - intros Hr'. congruence.
  - rewrite unscoped_sweep_lookup. case_decide; [|done].
    intros Hr'. congruence.
Qed.

Lemma adb_backup_name_kept_witness :
  ∃ r', final_state
          (adb_backup.main Scenario.renaming_backup_client 1700010000
             ["adb2"] Scenario.backup_table) !! "bk2" = Some r'
        ∧ adb_backup.adb_name r' = "ADB2".
Proof.
  eexists. split; [vm_compute; reflexivity|].
  apply (adb_backup_name_kept Scenario.renaming_backup_client 1700010000
           ["adb2"] Scenario.backup_table "bk2" (Scenario.backup_row "ADB2")).
  - vm_compute. reflexivity.
  - vm_compute. reflexivity.
Defined.

(** ** dbcs_backup.py: sizes, names and the run as a whole *)

(** X10: the loop of parse_size_fields, run as it is written over the four
    attribute names, returns the first attribute that is set: size_in_bytes
    as it is, size_in_gbs times 1024^3, size_in_mbs times 1024^2, and
    size_in_gigabytes as it is, without scaling, because that name passes
    the first test, [endswith("bytes")]; it returns None when none is set.
    So a size reported as size_in_gbs is stored in bytes, and the same size
    reported as size_in_gigabytes is stored as the number of gigabytes. *)
Theorem dbcs_backup_parse_size_fields_loop (b : dbcs_backup.backup) :
  dbcs_backup.parse_size_fields_loop b dbcs_backup.size_attrs
  = dbcs_backup.parse_size_fields b
  ∧ (∀ v, dbcs_backup.size_in_bytes b = None →
          dbcs_backup.size_in_gbs b = Some v →
          dbcs_backup.parse_size_fields_loop b dbcs_backup.size_attrs
          = Some (v * 1073741824))
  ∧ (∀ v, dbcs_backup.size_in_bytes b = None →
          dbcs_backup.size_in_gbs b = None →
          dbcs_backup.size_in_mbs b = None →
          dbcs_backup.size_in_gigabytes b = Some v →
          dbcs_backup.parse_size_fields_loop b dbcs_backup.size_attrs
          = Some v)
  ∧ (dbcs_backup.size_in_bytes b = None →
     dbcs_backup.size_in_gbs b = None →
     dbcs_backup.size_in_mbs b = None →
     dbcs_backup.size_in_gigabytes b = None →
     dbcs_backup.parse_size_fields_loop b dbcs_backup.size_attrs = None).
Proof.
  assert (Heq : dbcs_backup.parse_size_fields_loop b dbcs_backup.size_attrs
                = dbcs_backup.parse_size_fields b).
  { unfold dbcs_backup.parse_size_fields, dbcs_backup.size_attrs.
    cbn [dbcs_backup.parse_size_fields_loop].
    change (dbcs_backup.getattr_size b "size_in_bytes")
      with (dbcs_backup.size_in_bytes b).
    change (dbcs_backup.getattr_size b "size_in_gbs")
      with (dbcs_backup.size_in_gbs b).
    change (dbcs_backup.getattr_size b "size_in_mbs")
      with (dbcs_backup.size_in_mbs b).
    change (dbcs_backup.getattr_size b "size_in_gigabytes")
      with (dbcs_backup.size_in_gigabytes b).
    change (dbcs_backup.endswith "size_in_bytes" "bytes") with true.
    change (dbcs_backup.endswith "size_in_gbs" "bytes") with false.
    change (dbcs_backup.endswith "size_in_gbs" "gbs") with true.
    change (dbcs_backup.endswith "size_in_mbs" "bytes") with false.
    change (dbcs_backup.endswith "size_in_mbs" "gbs") with false.
    change (dbcs_backup.endswith "size_in_mbs" "gigabytes") with false.
    change (dbcs_backup.endswith "size_in_mbs" "mbs") with true.
    change (dbcs_backup.endswith "size_in_gigabytes" "bytes") with true.
    cbn [orb].
    by destruct (dbcs_backup.size_in_bytes b), (dbcs_backup.size_in_gbs b),
         (dbcs_backup.size_in_mbs b), (dbcs_backup.size_in_gigabytes b). }
  rewrite Heq. unfold dbcs_backup.parse_size_fields.
  split; [done|]. split; [|split].
  - by intros v -> ->.
  - by intros v -> -> -> ->.
  - by intros -> -> -> ->.
Qed.

Lemma dbcs_backup_parse_size_fields_loop_witness :
  dbcs_backup.parse_size_fields_loop
    (Scenario.dbcs_backup_sized (Some 5) None) dbcs_backup.size_attrs
  = Some 5368709120
  ∧ dbcs_backup.parse_size_fields_loop
      (Scenario.dbcs_backup_sized None (Some 5)) dbcs_backup.size_attrs
    = Some 5.
Proof.
  split.
  - apply (proj1 (proj2 (dbcs_backup_parse_size_fields_loop
                           (Scenario.dbcs_backup_sized (Some 5) None))) 5);
      reflexivity.
  - apply (proj1 (proj2 (proj2 (dbcs_backup_parse_size_fields_loop
                                  (Scenario.dbcs_backup_sized None (Some 5)))))
             5); reflexivity.
Defined.

Lemma py_or_nonempty (a : option string) (b : string) :
  b ≠ "" → py_or a b ≠ "".
Proof. intros Hb. destruct a as [s|]; simpl; [|done]. by case_decide. Qed.

(** X11: the name dbcs_backup.py stores for a database is the first
    non-empty one of db_name, db_unique_name and display_name; it is the
    OCID itself when the lookup fails or all three are missing or empty, so
    it is never empty for a non-empty OCID. *)
Theorem dbcs_backup_resolve_db_name (cl : dbcs_backup.client)
    (db_ocid : string) :
  (db_ocid ≠ "" → dbcs_backup.resolve_db_name cl db_ocid ≠ "")
  ∧ (¬ succeeded (dbcs_backup.get_database cl db_ocid 0%nat) →
     dbcs_backup.resolve_db_name cl db_ocid = db_ocid)
  ∧ (∀ info,
       dbcs_backup.get_database cl db_ocid 0%nat = Ok info →
       let names := [dbcs_backup.d_db_name info;
                     dbcs_backup.d_db_unique_name info;
                     dbcs_backup.d_display_name info] in
       dbcs_backup.resolve_db_name cl db_ocid
       = default db_ocid
           (head (filter (λ s, s ≠ "") (omap id names)))).
Proof.
  unfold dbcs_backup.resolve_db_name. split; [|split].
  - intros Hne. destruct (dbcs_backup.get_database cl db_ocid 0%nat); [|done..].
    by do 3 apply py_or_nonempty.
  - by destruct (dbcs_backup.get_database cl db_ocid 0%nat).
  - intros info ->. cbn zeta.
    destruct (dbcs_backup.d_db_name info) as [a|],
             (dbcs_backup.d_db_unique_name info) as [b|],
             (dbcs_backup.d_display_name info) as [c|];
      cbn [omap list_omap id py_or]; rewrite ?filter_cons, ?filter_nil;
      repeat case_decide; done.
Qed.

Lemma dbcs_backup_resolve_db_name_witness :
  dbcs_backup.resolve_db_name Scenario.dbcs_client "dba" ≠ "".
Proof.
  apply (proj1 (dbcs_backup_resolve_db_name Scenario.dbcs_client "dba")).
  discriminate.
Defined.

Lemma dbcs_store_backup_row lookback name (st : dbcs_backup.state) b :
  dbcs_backup.too_old lookback b = false →
  dbcs_backup.store_backup lookback name st b
  = (<[dbcs_backup.id b := dbcs_new_row name b]> st.1,
     {[dbcs_backup.id b]} ∪ st.2).
Proof.
  intros Hold. unfold dbcs_backup.store_backup. rewrite Hold.
  by rewrite dbcs_upsert_insert.
Qed.

Lemma dbcs_store_backup_dom lookback name (st : dbcs_backup.state) b :
  dom st.1 ⊆ dom (dbcs_backup.store_backup lookback name st b).1.
Proof.
  destruct (dbcs_backup.too_old lookback b) eqn:Hold.
  - by rewrite dbcs_store_too_old.
  - rewrite dbcs_store_backup_row by done. cbn [fst]. set_solver.
Qed.

Lemma dbcs_drain_completed lookback name p st :
  completed (dbcs_backup.drain lookback name p st) = paged_ok p.
Proof. revert st. induction p as [data|data next IH|s|]; intros st; simpl; auto. Qed.

Lemma dbcs_drain_dom lookback name p (st : dbcs_backup.state) :
  dom st.1 ⊆ dom (final_state (dbcs_backup.drain lookback name p st)).1.
Proof.
  assert (Hfold : ∀ data (s : dbcs_backup.state),
            dom s.1
            ⊆ dom (fold_left (dbcs_backup.store_backup lookback name) data s).1).
  { intros data s.
    apply (fold_left_inv (λ s' : dbcs_backup.state, dom s.1 ⊆ dom s'.1));
      [|done].
    intros s' b _ Hs'. etrans; [exact Hs'|]. apply dbcs_store_backup_dom. }
  revert st. induction p as [data|data next IH|s|]; intros st; simpl.
  - apply Hfold.
  - etrans; [apply (Hfold data)|]. apply IH.
  - done.
  - done.
Qed.

Lemma for_each_completed {A S : Type} (body : A → S → outcome S)
    (ok : A → bool) (l : list A) (s : S) :
  (∀ x s, completed (body x s) = ok x) →
  completed (for_each body l s) = forallb ok l.
Proof.
  intros Hbody. revert s. induction l as [|x l IH]; intros s; [done|].
  cbn [for_each forallb]. rewrite <-(Hbody x s).
  destruct (body x s) as [s1|s1]; cbn [and_then completed andb]; [apply IH|done].
Qed.

(** X12: dbcs_backup.py completes exactly when every page of every
    listing arrives; when a page request fails the run raises at once
    and has deleted no row. *)
Theorem dbcs_backup_abort_keeps_rows (cl : dbcs_backup.client)
    (now : datetime) (DB_OCIDS : list string)
    (tbl : gmap string dbcs_backup.row) :
  completed (dbcs_backup.main cl now DB_OCIDS tbl)
  = forallb (λ d, paged_ok (dbcs_backup.list_backups cl d)) DB_OCIDS
  ∧ (completed (dbcs_backup.main cl now DB_OCIDS tbl) = false →
     dom tbl ⊆ dom (final_state (dbcs_backup.main cl now DB_OCIDS tbl))).
Proof.
  unfold dbcs_backup.main.
  pose proof (for_each_completed
                (dbcs_backup.collect_db cl (dbcs_backup.lookback_ts now))
                (λ d, paged_ok (dbcs_backup.list_backups cl d)) DB_OCIDS
                (tbl, ∅)) as Hcompl.
  pose proof (for_each_final_inv
                (λ s : dbcs_backup.state, dom tbl ⊆ dom s.1)
                (dbcs_backup.collect_db cl (dbcs_backup.lookback_ts now))
                DB_OCIDS (tbl, ∅)) as Hdom.
  destruct (for_each _ _ _) as [[t seen]|[t seen]];
    cbn [completed final_state fst] in *.
  - split; [|done]. apply Hcompl. intros d s. apply dbcs_drain_completed.
  - split.
    + apply Hcompl. intros d s. apply dbcs_drain_completed.
    + intros _. apply Hdom; [|done]. intros d s _ Hs. etrans; [exact Hs|].
      apply dbcs_drain_dom.
Qed.

Lemma dbcs_backup_abort_keeps_rows_witness :
  dom Scenario.dbcs_table
  ⊆ dom (final_state
           (dbcs_backup.main Scenario.dbcs_client_page_failure
              Scenario.dbcs_now ["dba"] Scenario.dbcs_table)).
Proof.
  apply (proj2 (dbcs_backup_abort_keeps_rows Scenario.dbcs_client_page_failure
                  Scenario.dbcs_now ["dba"] Scenario.dbcs_table)).
  reflexivity.
Defined.

Lemma elem_of_dbcs_listing cl ocids name b :
  (name, b) ∈ dbcs_listing cl ocids
  ↔ ∃ d, d ∈ ocids ∧ name = dbcs_backup.resolve_db_name cl d
         ∧ b ∈ paged_data (dbcs_backup.list_backups cl d).
Proof.
  unfold dbcs_listing. rewrite list_elem_of_bind. split.
  - intros (d & Hin & Hd).
    apply list_elem_of_fmap in Hin as (b' & [= -> ->] & Hb). eauto.
  - intros (d & Hd & -> & Hb). exists d. split; [|done].
    apply list_elem_of_fmap. eauto.
Qed.

(** What the loop keeps true: the row of a seen id is the row built from a
    listed backup with that id. *)
Lemma dbcs_store_fold_rows lookback items (st : dbcs_backup.state) :
  let P (s : dbcs_backup.state) :=
    ∀ k, k ∈ s.2 →
         ∃ p, p ∈ items ∧ dbcs_backup.id p.2 = k
              ∧ s.1 !! k = Some (dbcs_new_row p.1 p.2) in
  P st → P (fold_left (dbcs_store lookback) items st).
Proof.
  intros P HP. apply (fold_left_inv P); [|done].
  clear st HP. intros st [name b] Hin HP k. unfold dbcs_store. cbn [fst snd].
  destruct (dbcs_backup.too_old lookback b) eqn:Hold.
  - rewrite dbcs_store_too_old by done. apply HP.
  - rewrite dbcs_store_backup_row by done. cbn [fst snd].
    destruct (decide (k = dbcs_backup.id b)) as [->|Hne].
    + intros _. exists (name, b). by rewrite lookup_insert_eq.
    + rewrite lookup_insert_ne by done. intros Hk. apply HP. set_solver.
Qed.

(** X13: when a run of dbcs_backup.py completes and has seen at least one
    backup, the ids of the table are exactly the ids of the listed backups
    of the window, and every row is the one built from a listed backup with
    its id, under the name resolved for the database that lists it. *)
Theorem dbcs_backup_exact_mirror (cl : dbcs_backup.client) (now : datetime)
    (DB_OCIDS : list string) (tbl tbl' : gmap string dbcs_backup.row) :
  dbcs_backup.main cl now DB_OCIDS tbl = Returned tbl' →
  dbcs_seen_ids cl now DB_OCIDS ≠ ∅ →
  dom tbl' = dbcs_seen_ids cl now DB_OCIDS
  ∧ ∀ k r, tbl' !! k = Some r →
      ∃ d b, d ∈ DB_OCIDS
             ∧ b ∈ paged_data (dbcs_backup.list_backups cl d)
             ∧ dbcs_backup.id b = k
             ∧ r = dbcs_new_row (dbcs_backup.resolve_db_name cl d) b.
Proof.
  intros Hmain Hne. unfold dbcs_backup.main in Hmain.
  destruct (for_each _ _ _) as [[t seen]|[t seen]] eqn:Hloop; [|done].
  injection Hmain as <-. apply dbcs_collect_returned in Hloop.
  rewrite dbcs_lookback_ts in Hloop.
  destruct (dbcs_store_fold (now - 14 * 86400) (dbcs_listing cl DB_OCIDS)
              (tbl, ∅)) as [Hseen' _].
  { intros k Hk. by apply elem_of_empty in Hk. }
  pose proof (dbcs_store_fold_rows (Some (now - 14 * 86400))
                (dbcs_listing cl DB_OCIDS) (tbl, ∅)) as Hrows'.
  cbn zeta in Hrows'.
  pose proof (f_equal fst Hloop) as Ht. pose proof (f_equal snd Hloop) as Hs.
  cbn [fst snd] in Ht, Hs.
  assert (Hseen : seen = dbcs_seen_ids cl now DB_OCIDS).
  { rewrite Hs. unfold dbcs_seen_ids. rewrite dbcs_lookback_ts.
    etrans; [exact Hseen'|]. apply (right_id_L ∅ (∪)). }
  assert (Hrows : ∀ k, k ∈ seen →
            ∃ p, p ∈ dbcs_listing cl DB_OCIDS ∧ dbcs_backup.id p.2 = k
                 ∧ t !! k = Some (dbcs_new_row p.1 p.2)).
  { rewrite Hs, Ht. apply Hrows'. intros k Hk. by apply elem_of_empty in Hk. }
  clear Hseen' Hrows' Hloop Ht Hs. rewrite <-Hseen in Hne |- *.
  unfold dbcs_backup.sweep. rewrite decide_False by done. split.
  - apply set_eq. intros k. rewrite elem_of_dom, unscoped_sweep_lookup.
    case_decide as Hk.
    + destruct (Hrows k Hk) as (p & _ & _ & ->). split; [done | by eexists].
    + split; [by intros [? ?] | done].
  - intros k r. rewrite unscoped_sweep_lookup. case_decide as Hk; [|done].
    destruct (Hrows k Hk) as ([name b] & Hin & Hid & ->). intros [= <-].
    apply elem_of_dbcs_listing in Hin as (d & Hd & -> & Hb).
    by exists d, b.
Qed.

Lemma dbcs_backup_exact_mirror_witness :
  dom (final_state
         (dbcs_backup.main Scenario.dbcs_client Scenario.dbcs_now ["dba"]
            Scenario.dbcs_table))
  = dbcs_seen_ids Scenario.dbcs_client Scenario.dbcs_now ["dba"].
Proof.
  apply (dbcs_backup_exact_mirror Scenario.dbcs_client Scenario.dbcs_now
           ["dba"] Scenario.dbcs_table).
  - reflexivity.
  - apply (bool_decide_unpack _). vm_compute. reflexivity.
Defined.

(** ** filesystem_list.py: the latest snapshot *)

Lemma max_by_time_created_spec best l :
  let m := filesystem_list.max_by_time_created best l in
  m ∈ best :: l
  ∧ (∀ s, s ∈ best :: l →
          filesystem_list.s_time_created s ≤ filesystem_list.s_time_created m)
  ∧ ∃ l1 l2, best :: l = l1 ++ m :: l2
             ∧ ∀ s, s ∈ l1 →
                    filesystem_list.s_time_created s
                    < filesystem_list.s_time_created m.
Proof.
  revert best. induction l as [|s l IH]; intros best; cbn zeta.
  - cbn [filesystem_list.max_by_time_created]. split; [set_solver|].
    split.
    + intros s ->%list_elem_of_singleton. lia.
    + exists [], []. split; [done|]. by intros s ?%elem_of_nil.
  - cbn [filesystem_list.max_by_time_created]. case_bool_decide as Hlt.
    + destruct (IH s) as (Hin & Hmax & l1 & l2 & Heq & Hbefore).
      split; [by apply list_elem_of_further|]. split.
      * intros x [->|Hx]%elem_of_cons; [|by apply Hmax].
        specialize (Hmax s (list_elem_of_here _ _)). lia.
      * exists (best :: l1), l2. split; [by rewrite Heq|].
        intros x [->|Hx]%elem_of_cons; [|by apply Hbefore].
        specialize (Hmax s (list_elem_of_here _ _)). lia.
    + destruct (IH best) as (Hin & Hmax & l1 & l2 & Heq & Hbefore).
      split.
      { apply elem_of_cons in Hin as [->|Hin]; [apply list_elem_of_here|].
        by do 2 apply list_elem_of_further. }
      split.
      * intros x [->|[->|Hx]%elem_of_cons]%elem_of_cons.
        -- apply Hmax, list_elem_of_here.
        -- specialize (Hmax best (list_elem_of_here _ _)). lia.
        -- by apply Hmax, list_elem_of_further.
      * destruct l1 as [|b l1].
        -- injection Heq as Hb Hl. exists [], (s :: l2).
           split; [by rewrite <-Hb, Hl|]. by intros x ?%elem_of_nil.
        -- injection Heq as <- Hl. exists (best :: s :: l1), l2.
           split; [simpl; do 2 f_equal; exact Hl|].
           intros x [->|[->|Hx]%elem_of_cons]%elem_of_cons.
           ++ apply Hbefore, list_elem_of_here.
           ++ specialize (Hbefore best (list_elem_of_here _ _)). lia.
           ++ by apply Hbefore, list_elem_of_further.
Qed.

(** X14: the latest snapshot that filesystem_list.py records for a file
    system is one of the listed snapshots, none of them was created later,
    and among those created at that time it is the first of the listing; it
    is missing exactly when the listing is empty. *)
Theorem filesystem_list_latest_snapshot (snaps : list filesystem_list.snapshot) :
  (filesystem_list.latest_snapshot snaps = None ↔ snaps = [])
  ∧ ∀ m, filesystem_list.latest_snapshot snaps = Some m →
      m ∈ snaps
      ∧ (∀ s, s ∈ snaps →
              filesystem_list.s_time_created s
              ≤ filesystem_list.s_time_created m)
      ∧ ∃ l1 l2, snaps = l1 ++ m :: l2
                 ∧ ∀ s, s ∈ l1 →
                        filesystem_list.s_time_created s
                        < filesystem_list.s_time_created m.
Proof.
  destruct snaps as [|best l]; cbn [filesystem_list.latest_snapshot].
  - split; [done|]. by intros m.
  - split; [done|]. intros m [= <-]. apply max_by_time_created_spec.
Qed.

Lemma filesystem_list_latest_snapshot_witness :
  Scenario.snap "s2" 20 ∈ [Scenario.snap "s1" 10; Scenario.snap "s2" 20;
                           Scenario.snap "s3" 20].
Proof.
  apply (proj2 (filesystem_list_latest_snapshot
                  [Scenario.snap "s1" 10; Scenario.snap "s2" 20;
                   Scenario.snap "s3" 20]) (Scenario.snap "s2" 20)).
  reflexivity.
Defined.

(** ** filesystem_list.py: the run as a whole *)

Lemma final_state_and_then {S : Type} (o : outcome S) (k : S → outcome S) :
  final_state (and_then o k)
  = match o with
    | Returned s => final_state (k s)
    | Raised s => s
    end.
Proof. by destruct o. Qed.

(** A property of the state that the two units of writing keep, the storing
    of a file system with its snapshots and the turn of a mount target, is
    kept by the whole collection loop, however it ends. *)
Lemma filesystem_collect_inv (P : filesystem_list.state → Prop)
    cfg cl ts compartments ads comps st :
  (∀ comp path fs snaps st,
     P st → P (filesystem_list.store_file_system ts comp path fs snaps st)) →
  (∀ comp path mt st,
     P st →
     P (final_state (filesystem_list.collect_mount_target cl ts comp path mt st))) →
  P st →
  P (final_state
       (for_each (filesystem_list.collect_compartment cfg cl ts compartments ads)
          comps st)).
Proof.
  intros Hfs Hmt. apply for_each_final_inv. intros comp s _ Hs.
  unfold filesystem_list.collect_compartment.
  apply for_each_final_inv; [|done]. clear s Hs. intros ad s _ Hs.
  unfold filesystem_list.collect_ad.
  destruct (filesystem_list.list_file_systems cl ad (c_id comp) 0%nat)
    as [fs_list|status|]; [| by case_decide | done].
  destruct (filesystem_list.list_mount_targets cl ad (c_id comp) 0%nat)
    as [mt_list|status|]; [| by case_decide | done].
  rewrite final_state_and_then.
  pose proof (for_each_final_inv P
                (filesystem_list.collect_file_system cl ts comp
                   (filesystem_list.build_compartment_path cfg compartments
                      (c_id comp))) fs_list s) as Hloop.
  destruct (for_each _ fs_list s) as [s1|s1]; cbn [final_state] in Hloop.
  - apply for_each_final_inv.
    + intros mt s' _ Hs'. by apply Hmt.
    + apply Hloop; [|done]. intros fs s' _ Hs'.
      unfold filesystem_list.collect_file_system.
      destruct (filesystem_list.list_snapshots cl _ 0%nat) as [snaps|status|];
        cbn [final_state]; [by apply Hfs | | done].
      repeat case_decide; cbn [final_state]; try done; by apply Hfs.
  - apply Hloop; [|done]. intros fs s' _ Hs'.
    unfold filesystem_list.collect_file_system.
    destruct (filesystem_list.list_snapshots cl _ 0%nat) as [snaps|status|];
      cbn [final_state]; [by apply Hfs | | done].
    repeat case_decide; cbn [final_state]; try done; by apply Hfs.
Qed.

Lemma filesystem_upsert_snap_lookup key new
    (tbl : gmap string filesystem_list.snap_row) k :
  filesystem_list.UPSERT_SNAP_SQL key new tbl !! k
  = if decide (k = key)
    then Some {| filesystem_list.sn_fs_id :=
                   from_option filesystem_list.sn_fs_id
                     (filesystem_list.sn_fs_id new) (tbl !! key);
                 filesystem_list.sn_name := filesystem_list.sn_name new;
                 filesystem_list.sn_lifecycle_state :=
                   filesystem_list.sn_lifecycle_state new;
                 filesystem_list.sn_time_created :=
                   filesystem_list.sn_time_created new;
                 filesystem_list.sn_time_ended :=
                   filesystem_list.sn_time_ended new;
                 filesystem_list.sn_deleted_at :=
                   from_option filesystem_list.sn_deleted_at
                     (filesystem_list.sn_deleted_at new) (tbl !! key);
                 filesystem_list.sn_last_seen_at :=
                   filesystem_list.sn_last_seen_at new |}
    else tbl !! k.
Proof.
  unfold filesystem_list.UPSERT_SNAP_SQL.
  destruct (tbl !! key) as [old|] eqn:Hold; case_decide as Hk; subst;
    rewrite ?lookup_insert_eq, ?lookup_insert_ne by done; try done.
  by destruct new.
Qed.

(** The loop over the snapshots of one file system. *)
Lemma filesystem_store_snapshots ts fs snaps st :
  let st' := fold_left (filesystem_list.store_snapshot ts fs) snaps st in
  filesystem_list.filesystems st' = filesystem_list.filesystems st
  ∧ filesystem_list.mount_targets st' = filesystem_list.mount_targets st
  ∧ filesystem_list.exports st' = filesystem_list.exports st
  ∧ filesystem_list.seen_fs_ids st' = filesystem_list.seen_fs_ids st
  ∧ filesystem_list.seen_mt_ids st' = filesystem_list.seen_mt_ids st
  ∧ filesystem_list.seen_export_ids st' = filesystem_list.seen_export_ids st
  ∧ filesystem_list.seen_snapshot_ids st'
    = list_to_set (filesystem_list.s_id <$> snaps)
      ∪ filesystem_list.seen_snapshot_ids st
  ∧ dom (filesystem_list.snapshots st) ⊆ dom (filesystem_list.snapshots st')
  ∧ (∀ k r, filesystem_list.snapshots st !! k = Some r →
            filesystem_list.sn_last_seen_at r = ts →
            ∃ r', filesystem_list.snapshots st' !! k = Some r'
                  ∧ filesystem_list.sn_last_seen_at r' = ts)
  ∧ (∀ k, k ∈ (list_to_set (filesystem_list.s_id <$> snaps) : gset string) →
          ∃ r', filesystem_list.snapshots st' !! k = Some r'
                ∧ filesystem_list.sn_last_seen_at r' = ts).
Proof.
  revert st. induction snaps as [|s snaps IH]; intros st; cbn zeta.
  { cbn [fold_left]. do 6 (split; [done|]). split; [set_solver|].
    split; [done|]. split; [eauto|].
    intros k Hk. by apply elem_of_empty in Hk. }
  cbn [fold_left].
  destruct (IH (filesystem_list.store_snapshot ts fs st s))
    as (H1 & H2 & H3 & H4 & H5 & H6 & H7 & H8 & H9 & H10).
  cbn [filesystem_list.store_snapshot filesystem_list.filesystems
       filesystem_list.mount_targets filesystem_list.exports
       filesystem_list.seen_fs_ids filesystem_list.seen_mt_ids
       filesystem_list.seen_export_ids filesystem_list.seen_snapshot_ids
       filesystem_list.snapshots] in *.
  assert (Hhere : ∃ r', filesystem_list.UPSERT_SNAP_SQL
                          (filesystem_list.s_id s)
                          {| filesystem_list.sn_fs_id := filesystem_list.fs_id fs;
                             filesystem_list.sn_name := filesystem_list.s_name s;
                             filesystem_list.sn_lifecycle_state :=
                               filesystem_list.s_lifecycle_state s;
                             filesystem_list.sn_time_created :=
                               filesystem_list.s_time_created s;
                             filesystem_list.sn_time_ended :=
                               filesystem_list.as_naive_utc
                                 (filesystem_list.s_time_ended s);
                             filesystem_list.sn_deleted_at := None;
                             filesystem_list.sn_last_seen_at := ts |}
                          (filesystem_list.snapshots st)
                        !! filesystem_list.s_id s = Some r'
                      ∧ filesystem_list.sn_last_seen_at r' = ts).
  { rewrite filesystem_upsert_snap_lookup, decide_True by done. eauto. }
  assert (Hkeep : ∀ k r, filesystem_list.snapshots st !! k = Some r →
            filesystem_list.sn_last_seen_at r = ts →
            ∃ r', filesystem_list.UPSERT_SNAP_SQL
                    (filesystem_list.s_id s)
                    {| filesystem_list.sn_fs_id := filesystem_list.fs_id fs;
                       filesystem_list.sn_name := filesystem_list.s_name s;
                       filesystem_list.sn_lifecycle_state :=
                         filesystem_list.s_lifecycle_state s;
                       filesystem_list.sn_time_created :=
                         filesystem_list.s_time_created s;
                       filesystem_list.sn_time_ended :=
                         filesystem_list.as_naive_utc
                           (filesystem_list.s_time_ended s);
                       filesystem_list.sn_deleted_at := None;
                       filesystem_list.sn_last_seen_at := ts |}
                    (filesystem_list.snapshots st) !! k = Some r'
                  ∧ filesystem_list.sn_last_seen_at r' = ts).
  { intros k r Hr Hts. rewrite filesystem_upsert_snap_lookup.
    case_decide; eauto. }
  split; [done|]. split; [done|]. split; [done|]. split; [done|].
  split; [done|]. split; [done|]. split; [rewrite H7; set_solver|].
  split; [|split].
  - etrans; [|exact H8]. intros k. rewrite !elem_of_dom.
    rewrite filesystem_upsert_snap_lookup. case_decide; [by eexists | done].
  - intros k r Hr Hts. destruct (Hkeep k r Hr Hts) as (r1 & Hr1 & Hts1).
    by apply (H9 k r1).
  - intros k Hk.
    destruct (decide (k ∈ (list_to_set (filesystem_list.s_id <$> snaps)
                           : gset string))) as [Hin|Hnotin]; [by apply H10|].
    assert (k = filesystem_list.s_id s) as -> by set_solver.
    destruct Hhere as (r1 & Hr1 & Hts1). by apply (H9 _ r1).
Qed.

Lemma latest_snapshot_elem snaps m :
  filesystem_list.latest_snapshot snaps = Some m → m ∈ snaps.
Proof.
  destruct snaps as [|best l]; [done|]. intros [= <-].
  apply max_by_time_created_spec.
Qed.

Lemma filesystem_store_file_system_seen ts comp path fs snaps st :
  filesystem_seen_rows ts st →
  filesystem_seen_rows ts
    (filesystem_list.store_file_system ts comp path fs snaps st).
Proof.
  intros (Hfs & Hsnap & Hmt & Hex). unfold filesystem_list.store_file_system.
  cbn zeta.
  match goal with
  | |- filesystem_seen_rows ts (fold_left _ snaps ?s) => set (st1 := s)
  end.
  destruct (filesystem_store_snapshots ts fs snaps st1)
    as (H1 & H2 & H3 & H4 & H5 & H6 & H7 & H8 & H9 & H10).
  unfold filesystem_seen_rows.
  rewrite H1, H2, H3, H4, H5, H6, H7. subst st1.
  cbn [filesystem_list.filesystems filesystem_list.mount_targets
       filesystem_list.exports filesystem_list.seen_fs_ids
       filesystem_list.seen_mt_ids filesystem_list.seen_export_ids
       filesystem_list.seen_snapshot_ids filesystem_list.snapshots] in *.
  unfold filesystem_list.UPSERT_FS_SQL.
  split; [|split; [|split]].
  - intros k Hk. destruct (decide (k = filesystem_list.fs_id fs)) as [->|Hne].
    + rewrite lookup_insert_eq. eexists. split; [done|]. split; [done|].
      cbn [filesystem_list.latest_snapshot_id]. intros sid Hsid.
      destruct (filesystem_list.latest_snapshot snaps) as [m|] eqn:Hlatest;
        [|done].
      injection Hsid as <-. apply latest_snapshot_elem in Hlatest.
      apply elem_of_union_l, elem_of_list_to_set, list_elem_of_fmap. eauto.
    + rewrite lookup_insert_ne by done.
      destruct (Hfs k) as (r & Hr & Hts & Hlatest); [set_solver|].
      exists r. split; [done|]. split; [done|]. intros sid Hsid.
      apply elem_of_union_r. by apply Hlatest.
  - intros k Hk.
    destruct (decide (k ∈ (list_to_set (filesystem_list.s_id <$> snaps)
                           : gset string))) as [Hin|Hnotin]; [by apply H10|].
    destruct (Hsnap k) as (r & Hr & Hts); [set_solver|]. by apply (H9 k r).
  - exact Hmt.
  - exact Hex.
Qed.

Lemma filesystem_store_exports_seen ts mt ex_list st :
  filesystem_seen_rows ts st →
  filesystem_list.mt_id mt ∈ filesystem_list.seen_mt_ids st →
  filesystem_seen_rows ts
    (fold_left (filesystem_list.store_export ts mt) ex_list st).
Proof.
  intros Hinv Hmt.
  apply (fold_left_inv
           (λ s, filesystem_seen_rows ts s
                 ∧ filesystem_list.mt_id mt ∈ filesystem_list.seen_mt_ids s));
    [|done].
  clear st Hinv Hmt. intros st ex _ [(Hfs & Hsnap & Hmts & Hex) Hmt].
  split; [|done]. unfold filesystem_seen_rows.
  cbn [filesystem_list.store_export filesystem_list.filesystems
       filesystem_list.mount_targets filesystem_list.exports
       filesystem_list.seen_fs_ids filesystem_list.seen_mt_ids
       filesystem_list.seen_export_ids filesystem_list.seen_snapshot_ids
       filesystem_list.snapshots].
  split; [done|]. split; [done|]. split; [done|].
  unfold filesystem_list.UPSERT_EXPORT_SQL. intros k Hk.
  destruct (decide (k = filesystem_list.ex_id ex)) as [->|Hne].
  - rewrite lookup_insert_eq. by eexists.
  - rewrite lookup_insert_ne by done. apply Hex. set_solver.
Qed.

Lemma filesystem_collect_mount_target_seen cl ts comp path mt st :
  filesystem_seen_rows ts st →
  filesystem_seen_rows ts
    (final_state (filesystem_list.collect_mount_target cl ts comp path mt st)).
Proof.
  intros (Hfs & Hsnap & Hmts & Hex).
  assert (Hst1 : filesystem_seen_rows ts
                   (filesystem_list.store_mount_target ts path mt st)).
  { unfold filesystem_seen_rows.
    cbn [filesystem_list.store_mount_target filesystem_list.filesystems
         filesystem_list.mount_targets filesystem_list.exports
         filesystem_list.seen_fs_ids filesystem_list.seen_mt_ids
         filesystem_list.seen_export_ids filesystem_list.seen_snapshot_ids
         filesystem_list.snapshots].
    split; [done|]. split; [done|]. unfold filesystem_list.UPSERT_MT_SQL.
    split.
    - intros k Hk. destruct (decide (k = filesystem_list.mt_id mt)) as [->|Hne].
      + rewrite lookup_insert_eq. by eexists.
      + rewrite lookup_insert_ne by done. apply Hmts. set_solver.
    - intros k Hk. destruct (Hex k Hk) as (r & Hr & Hts & Hin).
      exists r. split; [done|]. split; [done|]. set_solver. }
  unfold filesystem_list.collect_mount_target. cbn zeta.
  destruct (filesystem_list.mt_export_set_id mt) as [es|]; [|done].
  case_decide; [done|].
  destruct (filesystem_list.list_exports cl (c_id comp) es 0%nat)
    as [ex_list|status|]; cbn [final_state]; [| by case_decide | done].
  apply filesystem_store_exports_seen; [done|].
  cbn [filesystem_list.store_mount_target filesystem_list.seen_mt_ids].
  set_solver.
Qed.

Lemma filesystem_sweep_table_lookup {R : Type} (seen : gset string)
    (tbl : gmap string R) (k : string) :
  filesystem_list.sweep_table seen tbl !! k
  = if decide (k ∈ seen) then tbl !! k else None.
Proof.
  unfold filesystem_list.sweep_table. case_decide as Hempty.
  - subst seen. rewrite lookup_empty. by rewrite decide_False by set_solver.
  - apply unscoped_sweep_lookup.
Qed.

Lemma filesystem_start_seen ts db : filesystem_seen_rows ts (filesystem_list.start db).
Proof.
  unfold filesystem_seen_rows. cbn.
  repeat split; intros k Hk; by apply elem_of_empty in Hk.
Qed.

(** The state that the collection loop of a run leaves. *)
Lemma filesystem_main_seen cfg cl ts resp ads db :
  filesystem_seen_rows ts
    (final_state
       (for_each
          (filesystem_list.collect_compartment cfg cl ts
             (filesystem_list.list_all_compartments resp) ads)
          (filesystem_list.list_all_compartments resp)
          (filesystem_list.start db))).
Proof.
  apply filesystem_collect_inv.
  - intros. by apply filesystem_store_file_system_seen.
  - intros. by apply filesystem_collect_mount_target_seen.
  - apply filesystem_start_seen.
Qed.

(** X15: after a completed run of filesystem_list.py every row of the four
    tables (file systems, snapshots, mount targets, exports) carries the
    run's timestamp in last_seen_at: nothing that the run did not see is
    left. *)
Theorem filesystem_list_rows_fresh (cfg : filesystem_list.config)
    (cl : filesystem_list.client) (ts : datetime) (resp : list compartment)
    (ads : list string) (db st' : filesystem_list.state) :
  filesystem_list.main cfg cl ts resp ads db = Returned st' →
  (∀ k r, filesystem_list.filesystems st' !! k = Some r →
          filesystem_list.last_seen_at r = ts)
  ∧ (∀ k r, filesystem_list.snapshots st' !! k = Some r →
            filesystem_list.sn_last_seen_at r = ts)
  ∧ (∀ k r, filesystem_list.mount_targets st' !! k = Some r →
            filesystem_list.m_last_seen_at r = ts)
  ∧ (∀ k r, filesystem_list.exports st' !! k = Some r →
            filesystem_list.e_last_seen_at r = ts).
Proof.
  intros Hmain. unfold filesystem_list.main in Hmain.
  pose proof (filesystem_main_seen cfg cl ts resp ads db) as Hinv.
  destruct (for_each _ _ _) as [st|st]; [|done]. injection Hmain as <-.
  cbn [final_state] in Hinv. destruct Hinv as (Hfs & Hsnap & Hmt & Hex).
  cbn [filesystem_list.sweep filesystem_list.filesystems
       filesystem_list.snapshots filesystem_list.mount_targets
       filesystem_list.exports].
  split; [|split; [|split]]; intros k r;
    rewrite filesystem_sweep_table_lookup; case_decide as Hk; try done;
    intros Hr.
  - destruct (Hfs k Hk) as (r' & Hr' & Hts & _). congruence.
  - destruct (Hsnap k Hk) as (r' & Hr' & Hts). congruence.
  - destruct (Hmt k Hk) as (r' & Hr' & Hts). congruence.
  - destruct (Hex k Hk) as (r' & Hr' & Hts & _). congruence.
Qed.

(** X16: after a completed run of filesystem_list.py the tables are
    consistent with each other: the mount target of every export row is a
    row of the mount target table, and the latest snapshot recorded in a
    file system row is a row of the snapshot table. *)
Theorem filesystem_list_references (cfg : filesystem_list.config)
    (cl : filesystem_list.client) (ts : datetime) (resp : list compartment)
    (ads : list string) (db st' : filesystem_list.state) :
  filesystem_list.main cfg cl ts resp ads db = Returned st' →
  (∀ k r, filesystem_list.exports st' !! k = Some r →
          is_Some (filesystem_list.mount_targets st'
                   !! filesystem_list.e_mt_id r))
  ∧ (∀ k r sid, filesystem_list.filesystems st' !! k = Some r →
                filesystem_list.latest_snapshot_id r = Some sid →
                is_Some (filesystem_list.snapshots st' !! sid)).
Proof.
  intros Hmain. unfold filesystem_list.main in Hmain.
  pose proof (filesystem_main_seen cfg cl ts resp ads db) as Hinv.
  destruct (for_each _ _ _) as [st|st]; [|done]. injection Hmain as <-.
  cbn [final_state] in Hinv. destruct Hinv as (Hfs & Hsnap & Hmt & Hex).
  cbn [filesystem_list.sweep filesystem_list.filesystems
       filesystem_list.snapshots filesystem_list.mount_targets
       filesystem_list.exports].
  split.
  - intros k r. rewrite !filesystem_sweep_table_lookup.
    case_decide as Hk; [|done]. intros Hr.
    destruct (Hex k Hk) as (r' & Hr' & _ & Hin).
    assert (r' = r) as -> by congruence.
    rewrite decide_True by done.
    destruct (Hmt _ Hin) as (m & -> & _). by eexists.
  - intros k r sid. rewrite !filesystem_sweep_table_lookup.
    case_decide as Hk; [|done]. intros Hr Hsid.
    destruct (Hfs k Hk) as (r' & Hr' & _ & Hlatest).
    assert (r' = r) as -> by congruence.
    specialize (Hlatest sid Hsid). rewrite decide_True by done.
    destruct (Hsnap _ Hlatest) as (s & -> & _). by eexists.
Qed.

Lemma filesystem_list_rows_fresh_witness :
  ∃ r, filesystem_list.snapshots
         (final_state
            (filesystem_list.main Scenario.fs_cfg Scenario.fs_client_healthy
               2000 Scenario.compartments ["AD-1"] Scenario.fs_db_1))
       !! "s1" = Some r
       ∧ filesystem_list.sn_last_seen_at r = 2000.
Proof.
  eexists. split; [vm_compute; reflexivity|].
  apply (proj1 (proj2 (filesystem_list_rows_fresh Scenario.fs_cfg
                         Scenario.fs_client_healthy 2000 Scenario.compartments
                         ["AD-1"] Scenario.fs_db_1 _ eq_refl)) "s1").
  vm_compute. reflexivity.
Defined.

Lemma filesystem_list_references_witness :
  ∃ r, filesystem_list.exports
         (final_state
            (filesystem_list.main Scenario.fs_cfg Scenario.fs_client_healthy
               2000 Scenario.compartments ["AD-1"] Scenario.fs_db_1))
       !! "ex1" = Some r
       ∧ is_Some
           (filesystem_list.mount_targets
              (final_state
                 (filesystem_list.main Scenario.fs_cfg
                    Scenario.fs_client_healthy 2000 Scenario.compartments
                    ["AD-1"] Scenario.fs_db_1))
            !! filesystem_list.e_mt_id r).
Proof.
  eexists. split; [vm_compute; reflexivity|].
  apply (proj1 (filesystem_list_references Scenario.fs_cfg
                  Scenario.fs_client_healthy 2000 Scenario.compartments
                  ["AD-1"] Scenario.fs_db_1 _ eq_refl) "ex1").
  vm_compute. reflexivity.
Defined.










(** ** instance_volume.py: the order of the backups *)

Lemma insert_desc_perm x l : instance_volume.insert_desc x l ≡ₚ x :: l.
Proof.
  induction l as [|y l IH]; [done|]. cbn [instance_volume.insert_desc].
  case_bool_decide; [done|]. rewrite IH. apply Permutation_swap.
Qed.

Lemma insert_desc_sorted x l :
  StronglySorted (λ a b, instance_volume.sort_key b ≤ instance_volume.sort_key a) l →
  StronglySorted (λ a b, instance_volume.sort_key b ≤ instance_volume.sort_key a)
    (instance_volume.insert_desc x l).
Proof.
  induction l as [|y l IH]; intros Hs; cbn [instance_volume.insert_desc].
  - repeat constructor.
  - apply StronglySorted_inv in Hs as [Hl Hy]. case_bool_decide as Hlt.
    + constructor; [by constructor|]. constructor; [lia|].
      eapply Forall_impl; [exact Hy|]. cbn. intros z Hz. lia.
    + constructor; [by apply IH|].
      rewrite (insert_desc_perm x l). constructor; [lia | done].
Qed.

Lemma filter_nil_Forall {A : Type} (P : A → Prop) `{!∀ x, Decision (P x)}
    (l : list A) :
  Forall (λ x, ¬ P x) l → filter P l = [].
Proof.
  induction 1 as [|x l Hx Hl IH]; [done|].
  by rewrite filter_cons_False.
Qed.

(** Inserting into a list sorted latest-first puts the new element behind
    the elements of its own key. *)
Lemma insert_desc_filter t x l :
  StronglySorted (λ a b, instance_volume.sort_key b ≤ instance_volume.sort_key a) l →
  filter (λ b, instance_volume.sort_key b = t) (instance_volume.insert_desc x l)
  = filter (λ b, instance_volume.sort_key b = t) (l ++ [x]).
Proof.
  induction l as [|y l IH]; intros Hs; [done|].
  apply StronglySorted_inv in Hs as [Hl Hy].
  cbn [instance_volume.insert_desc]. case_bool_decide as Hlt.
  - rewrite filter_app.
    change (x :: y :: l) with ([x] ++ (y :: l)). rewrite filter_app.
    destruct (decide (instance_volume.sort_key x = t)) as [Hx|Hx].
    + assert (filter (λ b, instance_volume.sort_key b = t) (y :: l) = [])
        as ->; [|by rewrite app_nil_r].
      apply filter_nil_Forall. constructor; [lia|].
      eapply Forall_impl; [exact Hy|]. cbn. intros z Hz. lia.
    + assert (filter (λ b, instance_volume.sort_key b = t) [x] = []) as ->.
      { rewrite filter_cons, decide_False by done. done. }
      by rewrite app_nil_r.
  - cbn [app]. rewrite !filter_cons, (IH Hl). by case_decide.
Qed.

Lemma sort_desc_fold l acc :
  StronglySorted (λ a b, instance_volume.sort_key b ≤ instance_volume.sort_key a) acc →
  let out := fold_left (λ acc x, instance_volume.insert_desc x acc) l acc in
  out ≡ₚ acc ++ l
  ∧ StronglySorted (λ a b, instance_volume.sort_key b ≤ instance_volume.sort_key a) out
  ∧ ∀ t, filter (λ b, instance_volume.sort_key b = t) out
         = filter (λ b, instance_volume.sort_key b = t) (acc ++ l).
Proof.
  revert acc. induction l as [|x l IH]; intros acc Hacc; cbn zeta.
  - cbn [fold_left]. rewrite app_nil_r. done.
  - cbn [fold_left].
    destruct (IH (instance_volume.insert_desc x acc)
                (insert_desc_sorted x acc Hacc)) as (Hperm & Hsorted & Hfilter).
    split; [|split; [done|]].
    + rewrite Hperm, insert_desc_perm. cbn [app]. apply Permutation_middle.
    + intros t. rewrite Hfilter, !filter_app, insert_desc_filter by done.
      rewrite filter_app. change (x :: l) with ([x] ++ l).
      by rewrite filter_app, app_assoc.
Qed.

(** X18: the backups of a volume are ordered as Python's
    [sort(key=time_created or datetime.min, reverse=True)] orders them: the
    result holds the same backups, none is followed by a later one, and
    backups with the same time (or none) keep the order of the listing. *)
Theorem instance_volume_sort_desc (l : list instance_volume.backup_info) :
  instance_volume.sort_desc l ≡ₚ l
  ∧ StronglySorted
      (λ a b, instance_volume.sort_key b ≤ instance_volume.sort_key a)
      (instance_volume.sort_desc l)
  ∧ ∀ t, filter (λ b, instance_volume.sort_key b = t)
           (instance_volume.sort_desc l)
         = filter (λ b, instance_volume.sort_key b = t) l.
Proof.
  destruct (sort_desc_fold l []) as (Hperm & Hsorted & Hfilter);
    [constructor|].
  split; [done|]. split; [done|]. exact Hfilter.
Qed.

(** ** instance_volume.py: the backups of a volume *)

Lemma fetch_hits_no_service_error get identifiers s :
  instance_volume.fetch_hits get identifiers ≠ ServiceError s.
Proof.
  induction identifiers as [|i rest IH]; [done|].
  cbn [instance_volume.fetch_hits].
  destruct (get i 0%nat); [| |done];
    by destruct (instance_volume.fetch_hits get rest).
Qed.

Lemma sort_desc_latest_first l : latest_first (instance_volume.sort_desc l).
Proof.
  destruct (sort_desc_fold l []) as (_ & Hsorted & _); [constructor|].
  exact Hsorted.
Qed.

(** X19: list_backups never fails with a ServiceError: whatever it returns
    is ordered latest first; a listing that returns backups decides the
    result alone, without any search; when the listing fails with a
    ServiceError or is empty and the search fails with a ServiceError the
    result is the empty list; any other exception of the listing escapes. *)
Theorem instance_volume_list_backups (cl : instance_volume.client)
    (vol_id : string) (boot : bool) (compartment_id : string) :
  let listed :=
    if boot
    then instance_volume.list_boot_volume_backups cl compartment_id vol_id 0%nat
    else instance_volume.list_volume_backups cl compartment_id vol_id 0%nat in
  let result := instance_volume.list_backups cl vol_id boot compartment_id in
  (∀ s, result ≠ ServiceError s)
  ∧ (∀ l, result = Ok l → latest_first l)
  ∧ (∀ b backs, listed = Ok (b :: backs) →
       result
       = Ok (instance_volume.sort_desc
               (instance_volume.normalize <$> b :: backs)))
  ∧ ((listed = Ok [] ∨ ∃ s, listed = ServiceError s) →
     (∃ s, instance_volume.search_resources cl
             (instance_volume.search_query boot vol_id) 0%nat
           = ServiceError s) →
     result = Ok [])
  ∧ (listed = OtherException → result = OtherException).
Proof.
  cbn zeta. unfold instance_volume.list_backups.
  set (listed := if boot
                 then instance_volume.list_boot_volume_backups cl
                        compartment_id vol_id 0%nat
                 else instance_volume.list_volume_backups cl compartment_id
                        vol_id 0%nat).
  set (hits := instance_volume.fetch_hits
                 (if boot then instance_volume.get_boot_volume_backup cl
                  else instance_volume.get_volume_backup cl)).
  assert (Hhits : ∀ ids s, hits ids ≠ ServiceError s).
  { intros ids s. apply fetch_hits_no_service_error. }
  assert (Hfallback :
            ∀ r : response (list instance_volume.backup_info),
              r = match
                    match instance_volume.search_resources cl
                            (instance_volume.search_query boot vol_id) 0%nat
                    with
                    | Ok identifiers =>
                        match hits identifiers with
                        | ServiceError _ => Ok []
                        | r => r
                        end
                    | ServiceError _ => Ok []
                    | OtherException => OtherException
                    end
                  with
                  | Ok l => Ok (instance_volume.sort_desc
                                  (instance_volume.normalize <$> l))
                  | ServiceError s => ServiceError s
                  | OtherException => OtherException
                  end →
              (∀ s, r ≠ ServiceError s)
              ∧ (∀ l, r = Ok l → latest_first l)
              ∧ ((∃ s, instance_volume.search_resources cl
                         (instance_volume.search_query boot vol_id) 0%nat
                       = ServiceError s) → r = Ok [])).
  { intros r ->.
    destruct (instance_volume.search_resources cl _ 0%nat) as [ids|s'|].
    - destruct (hits ids) as [l0|s0|] eqn:Hh.
      + split; [done|]. split; [|by intros [? ?]].
        intros l [= <-]. apply sort_desc_latest_first.
      + by destruct (Hhits ids s0).
      + split; [done|]. split; [done | by intros [? ?]].
    - split; [done|]. split; [|done].
      intros l [= <-]. apply sort_desc_latest_first.
    - split; [done|]. split; [done | by intros [? ?]]. }
  destruct listed as [[|b backs]|status|] eqn:Hlisted.
  - destruct (Hfallback _ eq_refl) as (H1 & H2 & H3).
    split; [exact H1|]. split; [exact H2|]. split; [done|].
    split; [|done]. intros _. exact H3.
  - split; [done|]. split; [|split; [by intros ? ? [= <- <-]|]].
    + intros l [= <-]. apply sort_desc_latest_first.
    + split; [|done]. by intros [|[? ?]].
  - destruct (Hfallback _ eq_refl) as (H1 & H2 & H3).
    split; [exact H1|]. split; [exact H2|]. split; [done|].
    split; [|done]. intros _. exact H3.
  - split; [done|]. split; [done|]. split; [done|]. split; [|done].
    by intros [|[? ?]].
Qed.

Lemma instance_volume_list_backups_witness :
  instance_volume.list_backups Scenario.vol_client "vol1" false "c1"
  = Ok (instance_volume.sort_desc
          (instance_volume.normalize
             <$> [Scenario.vol_backup "b1" (Some 10);
                  Scenario.vol_backup "b2" (Some 20)]))
  ∧ instance_volume.list_backups Scenario.vol_client "vol2" false "c1" = Ok [].
Proof.
  split.
  - apply (proj1 (proj2 (proj2 (instance_volume_list_backups
                                  Scenario.vol_client "vol1" false "c1")))).
    reflexivity.
  - apply (proj1 (proj2 (proj2 (proj2 (instance_volume_list_backups
                                         Scenario.vol_client "vol2" false
                                         "c1"))))).
    + right. exists 404. reflexivity.
    + exists 500. reflexivity.
Defined.

(** ** instance_volume.py: the full refresh of an instance *)

Lemma delete_volume_rows_lookup (inst : string)
    (tbl : gmap (string * string) instance_volume.volume_row)
    (i vid : string) :
  instance_volume.delete_volume_rows inst tbl !! (i, vid)
  = if decide (i = inst) then None else tbl !! (i, vid).
Proof.
  unfold instance_volume.delete_volume_rows. rewrite map_lookup_filter.
  destruct (tbl !! (i, vid)) as [r|]; simpl.
  - case_guard; case_decide; naive_solver.
  - by case_decide.
Qed.

Lemma delete_backup_rows_lookup (inst : string)
    (tbl : gmap string instance_volume.backup_row) (k : string)
    (r : instance_volume.backup_row) :
  instance_volume.delete_backup_rows inst tbl !! k = Some r →
  tbl !! k = Some r ∧ instance_volume.br_instance_id r ≠ inst.
Proof.
  unfold instance_volume.delete_backup_rows.
  rewrite map_lookup_filter_Some. naive_solver.
Qed.

(** The loop that inserts the attached volumes of instance [inst]: one
    statement per volume, each stamping its row with the server time of
    that statement. *)
Lemma insert_attached_volumes (utc_timestamp : nat → datetime)
    (name inst : string) (vols : list instance_volume.attached)
    (d0 : instance_volume.database) :
  let d' := fold_left
              (λ d v, instance_volume.insert_attached_volume utc_timestamp
                        name inst v d)
              vols d0 in
  instance_volume.executed d'
  = (instance_volume.executed d0 + length vols)%nat
  ∧ instance_volume.volume_backup_latest d'
    = instance_volume.volume_backup_latest d0
  ∧ (∀ i vid, i ≠ inst →
       instance_volume.instance_volume_latest d' !! (i, vid)
       = instance_volume.instance_volume_latest d0 !! (i, vid))
  ∧ (∀ vid, vid ∉ instance_volume.volume_id <$> vols →
       instance_volume.instance_volume_latest d' !! (inst, vid)
       = instance_volume.instance_volume_latest d0 !! (inst, vid))
  ∧ (∀ vid, vid ∈ instance_volume.volume_id <$> vols →
       ∃ v r n, v ∈ vols ∧ instance_volume.volume_id v = vid
              ∧ instance_volume.instance_volume_latest d' !! (inst, vid)
                = Some r
              ∧ instance_volume.instance_name r = name
              ∧ (instance_volume.executed d0 ≤ n
                 < instance_volume.executed d')%nat
              ∧ instance_volume.updated_at r = utc_timestamp n
              ∧ instance_volume.last_seen_attached_at r
                = Some (utc_timestamp n)
              ∧ instance_volume.lifecycle_state r
                = instance_volume.attach_state v).
Proof.
  revert d0. induction vols as [|x vols IH]; intros d0; cbn zeta.
  { cbn [fold_left length]. split; [lia|]. split; [done|]. split; [done|].
    split; [done|]. by intros vid ?%elem_of_nil. }
  cbn [fold_left length].
  destruct (IH (instance_volume.insert_attached_volume utc_timestamp name
                  inst x d0))
    as (Hexec & Hbak & Hother & Hout & Hin).
  set (d' := fold_left _ vols _) in *.
  cbn [instance_volume.insert_attached_volume instance_volume.executed
       instance_volume.volume_backup_latest
       instance_volume.instance_volume_latest] in Hexec, Hbak, Hother, Hout, Hin.
  split; [lia|]. split; [done|]. split; [|split].
  - intros i vid Hne. rewrite Hother by done.
    apply lookup_insert_ne. congruence.
  - intros vid Hvid. rewrite fmap_cons, not_elem_of_cons in Hvid.
    destruct Hvid as [Hx Hvols]. rewrite Hout by done.
    apply lookup_insert_ne. congruence.
  - intros vid Hvid.
    destruct (decide (vid ∈ instance_volume.volume_id <$> vols)) as [Hvols|Hvols].
    + destruct (Hin vid Hvols) as (v & r & n & Hv & Hid & Hr & Hname & Hn & Hrest).
      exists v, r, n. split; [by apply list_elem_of_further|].
      split; [done|]. split; [done|]. split; [done|]. split; [lia|done].
    + rewrite fmap_cons, elem_of_cons in Hvid.
      destruct Hvid as [->|]; [|done].
      eexists x, _, (instance_volume.executed d0).
      split; [apply list_elem_of_here|]. split; [done|].
      rewrite Hout by done. rewrite lookup_insert_eq.
      split; [done|]. split; [done|]. split; [lia|done].
Qed.

(** The loop that stores the backups of the attached volumes leaves the
    volume table alone and writes rows of instance [inst] only, each
    stamped with the server time of the statement that wrote it. *)
Lemma store_backups_inv (cl : instance_volume.client)
    (utc_timestamp : nat → datetime) (n0 : nat)
    (inst : string) (vols : list instance_volume.attached)
    (volumes : gmap (string * string) instance_volume.volume_row)
    (db : instance_volume.database) :
  let P (d : instance_volume.database) :=
    instance_volume.instance_volume_latest d = volumes
    ∧ (n0 ≤ instance_volume.executed d)%nat
    ∧ ∀ k r, instance_volume.volume_backup_latest d !! k = Some r →
             instance_volume.br_instance_id r = inst →
             (∃ n, (n0 ≤ n < instance_volume.executed d)%nat
                   ∧ instance_volume.br_updated_at r = utc_timestamp n)
             ∧ instance_volume.br_volume_id r
               ∈ instance_volume.volume_id <$> vols in
  P db →
  P (final_state
       (for_each (instance_volume.store_backups cl utc_timestamp inst) vols db)).
Proof.
  intros P. apply for_each_final_inv. intros v d Hv Hd.
  unfold instance_volume.store_backups.
  destruct (instance_volume.list_backups cl _ _ _) as [backs| |];
    cbn [final_state]; [|done..].
  apply (fold_left_inv P); [|done].
  clear d Hd. intros d b _ (Hvol & Hle & Hrows).
  unfold P, instance_volume.upsert_backup_latest.
  cbn [instance_volume.instance_volume_latest instance_volume.executed
       instance_volume.volume_backup_latest].
  split; [done|]. split; [lia|]. intros k r.
  destruct (decide (k = instance_volume.backup_id b)) as [->|Hne].
  - rewrite lookup_insert_eq. intros [= <-] _.
    cbn [instance_volume.br_updated_at instance_volume.br_volume_id].
    split; [|by apply list_elem_of_fmap_2].
    exists (instance_volume.executed d). split; [lia|done].
  - rewrite lookup_insert_ne by done. intros Hr Hinst.
    destruct (Hrows k r Hr Hinst) as [(n & Hn & Hts) Hvid].
    split; [|done]. exists n. split; [lia|done].
Qed.

(** What a turn of the loop leaves when it ends normally. *)
Lemma refresh_instance_returned (cl : instance_volume.client)
    (utc_timestamp : nat → datetime) (inst : string)
    (info : instance_volume.instance_info)
    (db db' : instance_volume.database) :
  instance_volume.refresh_instance cl utc_timestamp inst info db
  = Returned db' →
  ∃ boots blks,
    instance_volume.list_boot_attachments cl inst
      (instance_volume.i_compartment_id info)
      (instance_volume.i_availability_domain info) = Ok boots
    ∧ instance_volume.list_block_attachments cl inst
        (instance_volume.i_compartment_id info) = Ok blks
    ∧ instance_volume.instance_volume_latest db'
      = instance_volume.instance_volume_latest
          (fold_left
             (λ d v, instance_volume.insert_attached_volume utc_timestamp
                       (instance_volume.i_display_name info) inst v d)
             (attached_now boots blks)
             (instance_volume.delete_instance_rows
                instance_volume.instance_volume_latest_table inst db))
    ∧ (instance_volume.executed db + length (attached_now boots blks) + 2
       ≤ instance_volume.executed db')%nat
    ∧ ∀ k r, instance_volume.volume_backup_latest db' !! k = Some r →
             instance_volume.br_instance_id r = inst →
             (∃ n, (instance_volume.executed db ≤ n
                    < instance_volume.executed db')%nat
                   ∧ instance_volume.br_updated_at r = utc_timestamp n)
             ∧ instance_volume.br_volume_id r
               ∈ instance_volume.volume_id <$> attached_now boots blks.
Proof.
  unfold instance_volume.refresh_instance.
  destruct (instance_volume.list_boot_attachments cl inst _ _)
    as [boots| |]; [|done..].
  destruct (instance_volume.list_block_attachments cl inst _)
    as [blks| |]; [|done..].
  cbn zeta. fold (attached_now boots blks). intros Hloop.
  exists boots, blks. split; [done|]. split; [done|].
  destruct (insert_attached_volumes utc_timestamp
              (instance_volume.i_display_name info) inst
              (attached_now boots blks)
              (instance_volume.delete_instance_rows
                 instance_volume.instance_volume_latest_table inst db))
    as (Hexec & _).
  cbn zeta in Hexec.
  match type of Hloop with
  | for_each _ _ ?d = _ =>
      pose proof (store_backups_inv cl utc_timestamp
                    (instance_volume.executed d) inst
                    (attached_now boots blks)
                    (instance_volume.instance_volume_latest d) d) as Hinv
  end.
  cbn zeta in Hinv. rewrite Hloop in Hinv. cbn [final_state] in Hinv.
  destruct Hinv as (Hvol & Hle & Hrows).
  { split; [done|]. split; [done|].
    cbn [instance_volume.delete_instance_rows
         instance_volume.volume_backup_latest].
    intros k r Hr Hinst. apply delete_backup_rows_lookup in Hr as [_ Hne].
    done. }
  cbn [instance_volume.delete_instance_rows instance_volume.executed
       instance_volume.instance_volume_latest] in Hvol, Hle, Hrows, Hexec.
  split; [done|]. split; [lia|].
  intros k r Hr Hinst. destruct (Hrows k r Hr Hinst) as [(n & Hn & Hts) Hvid].
  split; [|done]. exists n. split; [lia|done].
Qed.

(** X20: a turn of instance_volume.py that ends normally for an instance
    that exists is a full refresh: the instance's rows of
    instance_volume_latest are exactly its volumes that are ATTACHED or
    ATTACHING now, each with the instance's current name, that attachment
    state and, in updated_at and last_seen_attached_at, the server time of
    one statement of this turn; the rows of the other instances are
    untouched; and every row of volume_backup_latest that belongs to the
    instance was written in this turn, for one of those volumes, with the
    server time of its own statement in updated_at. *)
Theorem instance_volume_full_refresh (cl : instance_volume.client)
    (utc_timestamp : nat → datetime) (inst : string)
    (info : instance_volume.instance_info)
    (db db' : instance_volume.database) :
  instance_volume.get_instance cl inst 0%nat = Ok info →
  instance_volume.refresh cl utc_timestamp inst db = Returned db' →
  ∃ boots blks,
    instance_volume.list_boot_attachments cl inst
      (instance_volume.i_compartment_id info)
      (instance_volume.i_availability_domain info) = Ok boots
    ∧ instance_volume.list_block_attachments cl inst
        (instance_volume.i_compartment_id info) = Ok blks
    ∧ (∀ vid, is_Some (instance_volume.instance_volume_latest db'
                       !! (inst, vid))
              ↔ vid ∈ instance_volume.volume_id <$> attached_now boots blks)
    ∧ (∀ vid r,
         instance_volume.instance_volume_latest db' !! (inst, vid) = Some r →
         instance_volume.instance_name r = instance_volume.i_display_name info
         ∧ (∃ n, (instance_volume.executed db ≤ n
                  < instance_volume.executed db')%nat
                 ∧ instance_volume.updated_at r = utc_timestamp n
                 ∧ instance_volume.last_seen_attached_at r
                   = Some (utc_timestamp n))
         ∧ instance_volume.lifecycle_state r ∈ instance_volume.ATTACH_OK)
    ∧ (∀ i vid, i ≠ inst →
         instance_volume.instance_volume_latest db' !! (i, vid)
         = instance_volume.instance_volume_latest db !! (i, vid))
    ∧ (∀ k r, instance_volume.volume_backup_latest db' !! k = Some r →
              instance_volume.br_instance_id r = inst →
              (∃ n, (instance_volume.executed db ≤ n
                     < instance_volume.executed db')%nat
                    ∧ instance_volume.br_updated_at r = utc_timestamp n)
              ∧ instance_volume.br_volume_id r
                ∈ instance_volume.volume_id <$> attached_now boots blks).
Proof.
  intros Hinfo. unfold instance_volume.refresh. rewrite Hinfo. intros Hturn.
  destruct (refresh_instance_returned _ _ _ _ _ _ Hturn)
    as (boots & blks & Hboots & Hblks & Hvol & Hle & Hbak).
  exists boots, blks. split; [done|]. split; [done|].
  destruct (insert_attached_volumes utc_timestamp
              (instance_volume.i_display_name info)
              inst (attached_now boots blks)
              (instance_volume.delete_instance_rows
                 instance_volume.instance_volume_latest_table inst db))
    as (Hexec & _ & Hother & Hout & Hin).
  cbn zeta in Hexec, Hother, Hout, Hin.
  rewrite <-Hvol in Hother, Hout, Hin.
  cbn [instance_volume.delete_instance_rows instance_volume.executed
       instance_volume.instance_volume_latest] in Hexec, Hother, Hout, Hin.
  assert (Hrow : ∀ vid r,
            instance_volume.instance_volume_latest db' !! (inst, vid) = Some r →
            ∃ v n, v ∈ attached_now boots blks
                 ∧ instance_volume.volume_id v = vid
                 ∧ instance_volume.instance_name r
                   = instance_volume.i_display_name info
                 ∧ (instance_volume.executed db ≤ n
                    < instance_volume.executed db')%nat
                 ∧ instance_volume.updated_at r = utc_timestamp n
                 ∧ instance_volume.last_seen_attached_at r
                   = Some (utc_timestamp n)
                 ∧ instance_volume.lifecycle_state r
                   = instance_volume.attach_state v).
  { intros vid r Hr.
    destruct (decide (vid ∈ instance_volume.volume_id
                              <$> attached_now boots blks)) as [Hvid|Hvid].
    - destruct (Hin vid Hvid)
        as (v & r' & n & Hv & Hid & Hr' & Hname & Hn & Hrest).
      exists v, n. assert (r' = r) as -> by congruence.
      split; [done|]. split; [done|]. split; [done|]. split; [lia|done].
    - rewrite (Hout vid Hvid), delete_volume_rows_lookup in Hr.
      by rewrite decide_True in Hr. }
  split; [|split; [|split; [|done]]].
  - intros vid. split.
    + intros [r Hr]. destruct (Hrow vid r Hr) as (v & n & Hv & <- & _).
      by apply list_elem_of_fmap_2.
    + intros Hvid. destruct (Hin vid Hvid) as (v & r & n & _ & _ & Hr & _).
      by eexists.
  - intros vid r Hr.
    destruct (Hrow vid r Hr) as (v & n & Hv & _ & Hn & Hrange & Hu & Hl & Hs).
    split; [done|]. split; [by exists n|]. rewrite Hs.
    unfold attached_now in Hv. by apply list_elem_of_filter in Hv as [? _].
  - intros i vid Hne. rewrite (Hother i vid Hne), delete_volume_rows_lookup.
    by rewrite decide_False.
Qed.

(** On the scenario the volume vol9, which instance i1 no longer has, is
    gone after the turn, and the rows of vol1 and of its two backups, the
    later backup b2 first, carry the times of three different statements. *)
Lemma instance_volume_full_refresh_witness :
  let db' :=
    final_state
      (instance_volume.refresh Scenario.vol_client Scenario.vol_clock "i1"
         Scenario.vol_db) in
  instance_volume.instance_volume_latest db' !! ("i1", "vol9") = None
  ∧ instance_volume.updated_at
      <$> instance_volume.instance_volume_latest db' !! ("i1", "vol1")
    = Some 2002
  ∧ instance_volume.br_updated_at
      <$> instance_volume.volume_backup_latest db' !! "b2" = Some 2004
  ∧ instance_volume.br_updated_at
      <$> instance_volume.volume_backup_latest db' !! "b1" = Some 2005.
Proof.
  cbn zeta.
  destruct (instance_volume_full_refresh Scenario.vol_client
              Scenario.vol_clock "i1"
              Scenario.vol_info Scenario.vol_db
              (final_state
                 (instance_volume.refresh Scenario.vol_client
                    Scenario.vol_clock "i1" Scenario.vol_db)))
    as (boots & blks & Hboots & Hblks & Hrows & _).
  - reflexivity.
  - vm_compute. reflexivity.
  - split; [|vm_compute; repeat split; reflexivity].
    apply eq_None_not_Some. rewrite (Hrows "vol9").
    injection Hboots as <-. injection Hblks as <-.
    apply (bool_decide_unpack _). vm_compute. reflexivity.
Defined.

Lemma refresh_other_instances (cl : instance_volume.client)
    (utc_timestamp : nat → datetime)
    (inst : string) (db : instance_volume.database) (i vid : string) :
  i ≠ inst →
  instance_volume.instance_volume_latest
    (final_state (instance_volume.refresh cl utc_timestamp inst db)) !! (i, vid)
  = instance_volume.instance_volume_latest db !! (i, vid).
Proof.
  intros Hne. unfold instance_volume.refresh.
  destruct (instance_volume.get_instance cl inst 0%nat) as [info|status|];
    [| by case_decide | done].
  unfold instance_volume.refresh_instance.
  destruct (instance_volume.list_boot_attachments cl inst _ _)
    as [boots| |]; [|done..].
  destruct (instance_volume.list_block_attachments cl inst _)
    as [blks| |]; [|done..].
  cbn zeta. fold (attached_now boots blks).
  match goal with
  | |- context [for_each _ _ ?d] =>
      pose proof (store_backups_inv cl utc_timestamp
                    (instance_volume.executed d) inst
                    (attached_now boots blks)
                    (instance_volume.instance_volume_latest d) d) as Hinv
  end.
  cbn zeta in Hinv. destruct Hinv as [-> _].
  { split; [done|]. split; [done|].
    cbn [instance_volume.delete_instance_rows
         instance_volume.volume_backup_latest].
    intros k r Hr Hinst. apply delete_backup_rows_lookup in Hr as [_ ?].
    done. }
  destruct (insert_attached_volumes utc_timestamp
              (instance_volume.i_display_name info)
              inst (attached_now boots blks)
              (instance_volume.delete_instance_rows
                 instance_volume.instance_volume_latest_table inst db))
    as (_ & _ & Hother & _).
  cbn zeta in Hother.
  cbn [instance_volume.delete_instance_rows
       instance_volume.instance_volume_latest] in Hother |- *.
  rewrite (Hother i vid Hne), delete_volume_rows_lookup.
  by rewrite decide_False.
Qed.

(** X21: however a run of instance_volume.py ends, it has not touched the
    rows of instance_volume_latest of an instance that is not in
    INSTANCE_OCIDS: the rows of an instance that is no longer monitored
    stay as they are, for good. *)
Theorem instance_volume_unmonitored_untouched (cl : instance_volume.client)
    (ts : nat → datetime) (INSTANCE_OCIDS : list string)
    (db : instance_volume.database) (i vid : string) :
  i ∉ INSTANCE_OCIDS →
  instance_volume.instance_volume_latest
    (final_state (instance_volume.main cl ts INSTANCE_OCIDS db)) !! (i, vid)
  = instance_volume.instance_volume_latest db !! (i, vid).
Proof.
  intros Hi. unfold instance_volume.main.
  apply (for_each_final_inv
           (λ d, instance_volume.instance_volume_latest d !! (i, vid)
                 = instance_volume.instance_volume_latest db !! (i, vid)));
    [|done].
  intros inst d Hinst Hd. rewrite refresh_other_instances; [done|].
  intros ->. done.
Qed.

Lemma instance_volume_unmonitored_untouched_witness :
  instance_volume.instance_volume_latest
    (final_state
       (instance_volume.main Scenario.vol_client Scenario.vol_clock ["i1"]
          Scenario.vol_db))
  !! ("i0", "vol0")
  = Some (Scenario.vol_row "gone").
Proof.
  rewrite (instance_volume_unmonitored_untouched Scenario.vol_client
             Scenario.vol_clock ["i1"] Scenario.vol_db "i0" "vol0").
  - reflexivity.
  - apply (bool_decide_unpack _). vm_compute. reflexivity.
Defined.

(** ** dbcs_list.py: the databases of a DB system *)

Lemma dbcs_named_spec db_list :
  Forall (λ n, n ≠ "") (dbcs_list.named db_list)
  ∧ length (dbcs_list.named db_list)
    = length (filter (λ n, n ≠ None ∧ n ≠ Some "") db_list).
Proof.
  unfold dbcs_list.named.
  induction db_list as [|[s|] l [IH1 IH2]]; [done| |].
  - cbn [omap list_omap]. rewrite filter_cons. case_decide as Hs.
    + subst s. rewrite decide_False by naive_solver. done.
    + rewrite decide_True by naive_solver. split; [by constructor|].
      cbn [length]. by f_equal.
  - cbn [omap list_omap]. rewrite filter_cons.
    by rewrite decide_False by naive_solver.
Qed.

Lemma dbcs_home_db_names cl comp_id homes
    (dbs_of : string → list (option string)) :
  (∀ h, h ∈ homes → dbcs_list.list_databases cl comp_id h 0%nat = Ok (dbs_of h)) →
  dbcs_list.home_db_names cl comp_id homes
  = Ok (homes ≫= λ h, dbcs_list.named (dbs_of h)).
Proof.
  induction homes as [|h homes IH]; intros Hdbs; [done|].
  cbn [dbcs_list.home_db_names].
  rewrite (Hdbs h (list_elem_of_here _ _)), IH; [done|].
  intros h' Hh'. apply Hdbs. by apply list_elem_of_further.
Qed.

(** X22: when the home listing of a DB system and the database listing of
    each of its homes succeed, the names dbcs_list.py collects are the
    non-empty db_name values of all databases of all homes, in order.  The
    column db_home_count is the number of those names, that is the number
    of named databases and not the number of DB homes, and db_name_list is
    NULL exactly when it is 0. *)
Theorem dbcs_list_db_names (cl : dbcs_list.client) (comp_id dbsystem_id : string)
    (homes : list string) (dbs_of : string → list (option string))
    (cfg : dbcs_list.config) (dbs_item : dbcs_list.db_system)
    (comp_name : string) (comp_path : option string) (run_ts : datetime) :
  dbcs_list.list_db_homes cl comp_id dbsystem_id 0%nat = Ok homes →
  (∀ h, h ∈ homes →
        dbcs_list.list_databases cl comp_id h 0%nat = Ok (dbs_of h)) →
  ∃ names,
    dbcs_list.db_names_of cl comp_id dbsystem_id = Ok names
    ∧ names = homes ≫= (λ h, dbcs_list.named (dbs_of h))
    ∧ Forall (λ n, n ≠ "") names
    ∧ dbcs_list.db_home_count
        (dbcs_list.make_row cfg dbs_item names comp_name comp_id comp_path
           run_ts)
      = Z.of_nat (length (filter (λ n, n ≠ None ∧ n ≠ Some "")
                            (homes ≫= dbs_of)))
    ∧ (dbcs_list.db_name_list
         (dbcs_list.make_row cfg dbs_item names comp_name comp_id comp_path
            run_ts) = None
       ↔ dbcs_list.db_home_count
           (dbcs_list.make_row cfg dbs_item names comp_name comp_id comp_path
              run_ts) = 0).
Proof.
  intros Hhomes Hdbs. eexists. split; [|split; [reflexivity|]].
  { unfold dbcs_list.db_names_of. rewrite Hhomes.
    by apply dbcs_home_db_names. }
  clear Hhomes Hdbs. split; [|split].
  - induction homes as [|h homes IH]; [constructor|].
    cbn [mbind list_bind]. apply Forall_app. split; [|done].
    apply dbcs_named_spec.
  - cbn [dbcs_list.make_row dbcs_list.db_home_count]. f_equal.
    induction homes as [|h homes IH]; [done|].
    cbn [mbind list_bind]. rewrite filter_app, !length_app, IH.
    f_equal. apply dbcs_named_spec.
  - cbn [dbcs_list.make_row dbcs_list.db_home_count dbcs_list.db_name_list].
    destruct (homes ≫= _) as [|n names]; [done|].
    split; [done|]. cbn [length]. lia.
Qed.

Lemma dbcs_list_db_names_witness :
  dbcs_list.db_names_of Scenario.dbcs_client_throttled "c1" "d1"
  = Ok ["ORCL"; "TEST"].
Proof.
  destruct (dbcs_list_db_names Scenario.dbcs_client_throttled "c1" "d1" ["h1"]
              (λ _, [Some "ORCL"; None; Some "TEST"]) Scenario.dbcs_cfg
              (Scenario.db_system "d1") "teamA" None 2000)
    as (names & Hnames & -> & _).
  - reflexivity.
  - intros h _. reflexivity.
  - exact Hnames.
Defined.

(** ** dbcs_list.py: the run as a whole *)

Lemma dbcs_list_upsert_lookup k new (tbl : gmap string dbcs_list.row) k' :
  dbcs_list.UPSERT_SQL k new tbl !! k'
  = if decide (k' = k)
    then Some {| dbcs_list.tenancy_ocid :=
                   from_option dbcs_list.tenancy_ocid
                     (dbcs_list.tenancy_ocid new) (tbl !! k);
                 dbcs_list.region :=
                   from_option dbcs_list.region (dbcs_list.region new)
                     (tbl !! k);
                 dbcs_list.compartment_ocid :=
                   from_option dbcs_list.compartment_ocid
                     (dbcs_list.compartment_ocid new) (tbl !! k);
                 dbcs_list.compartment_name := dbcs_list.compartment_name new;
                 dbcs_list.compartment_path := dbcs_list.compartment_path new;
                 dbcs_list.r_display_name := dbcs_list.r_display_name new;
                 dbcs_list.db_home_count := dbcs_list.db_home_count new;
                 dbcs_list.db_name_list := dbcs_list.db_name_list new;
                 dbcs_list.r_lifecycle_state :=
                   dbcs_list.r_lifecycle_state new;
                 dbcs_list.r_shape := dbcs_list.r_shape new;
                 dbcs_list.r_cpu_core_count := dbcs_list.r_cpu_core_count new;
                 dbcs_list.storage_size_gb := dbcs_list.storage_size_gb new;
                 dbcs_list.r_node_count := dbcs_list.r_node_count new;
                 dbcs_list.r_license_model := dbcs_list.r_license_model new;
                 dbcs_list.time_created_utc := dbcs_list.time_created_utc new;
                 dbcs_list.last_refreshed_utc :=
                   dbcs_list.last_refreshed_utc new |}
    else tbl !! k'.
Proof.
  unfold dbcs_list.UPSERT_SQL.
  destruct (tbl !! k) as [old|] eqn:Hold; case_decide as Hk; subst;
    rewrite ?lookup_insert_eq, ?lookup_insert_ne by done; try done.
  by destruct new.
Qed.

Lemma dbcs_list_upsert_dom k new (tbl : gmap string dbcs_list.row) :
  dom (dbcs_list.UPSERT_SQL k new tbl) = {[k]} ∪ dom tbl.
Proof.
  apply set_eq. intros k'. rewrite elem_of_dom, dbcs_list_upsert_lookup.
  rewrite elem_of_union, elem_of_singleton, elem_of_dom.
  case_decide; naive_solver.
Qed.

Lemma dbcs_db_names_nonempty cl comp_id dbsystem_id names :
  dbcs_list.db_names_of cl comp_id dbsystem_id = Ok names →
  Forall (λ n, n ≠ "") names.
Proof.
  unfold dbcs_list.db_names_of.
  destruct (dbcs_list.list_db_homes cl comp_id dbsystem_id 0%nat)
    as [homes| |]; [|done..].
  revert names. induction homes as [|h homes IH]; intros names.
  - by intros [= <-].
  - cbn [dbcs_list.home_db_names].
    destruct (dbcs_list.list_databases cl comp_id h 0%nat)
      as [db_list| |]; [|done..].
    destruct (dbcs_list.home_db_names cl comp_id homes)
      as [names'| |]; [|done..].
    intros [= <-]. apply Forall_app. split; [apply dbcs_named_spec|].
    by apply IH.
Qed.

(** One DB system stored. *)
Lemma dbcs_list_store_one cfg d names comp_name comp_id comp_path ts
    (st : dbcs_list.state) :
  Forall (λ n, n ≠ "") names →
  let st' : dbcs_list.state :=
    (dbcs_list.UPSERT_SQL (dbcs_list.id d)
       (dbcs_list.make_row cfg d names comp_name comp_id comp_path ts) st.1,
     {[dbcs_list.id d]} ∪ st.2) in
  dom st'.1 = {[dbcs_list.id d]} ∪ dom st.1
  ∧ ((∀ k, k ∈ st.2 → ∃ r, st.1 !! k = Some r ∧ dbcs_row_written ts r) →
     ∀ k, k ∈ st'.2 → ∃ r, st'.1 !! k = Some r ∧ dbcs_row_written ts r).
Proof.
  intros Hnames. cbn zeta. cbn [fst snd].
  split; [apply dbcs_list_upsert_dom|].
  intros Hst k Hk. rewrite dbcs_list_upsert_lookup. case_decide as Hkd.
  - eexists. split; [done|]. split; [done|]. by exists names.
  - apply Hst. set_solver.
Qed.

(** [upsert_dbcs] keeps the loop invariant and deletes nothing, however it
    ends. *)
Lemma dbcs_list_upsert_dbcs_inv cfg cl dbs comp_name comp_id comp_path ts
    (st : dbcs_list.state) :
  let st' := (dbcs_list.upsert_dbcs cfg cl dbs comp_name comp_id comp_path ts
                st).1 in
  dom st.1 ⊆ dom st'.1
  ∧ ((∀ k, k ∈ st.2 → ∃ r, st.1 !! k = Some r ∧ dbcs_row_written ts r) →
     ∀ k, k ∈ st'.2 → ∃ r, st'.1 !! k = Some r ∧ dbcs_row_written ts r).
Proof.
  revert st. induction dbs as [|d dbs IH]; intros st; cbn zeta; [done|].
  cbn [dbcs_list.upsert_dbcs].
  destruct (dbcs_list.db_names_of cl comp_id (dbcs_list.id d))
    as [names|s|] eqn:Hnames; [|done..].
  destruct (dbcs_list_store_one cfg d names comp_name comp_id comp_path ts st
              (dbcs_db_names_nonempty _ _ _ _ Hnames)) as [Hdom Hinv].
  match goal with
  | |- context [dbcs_list.upsert_dbcs _ _ dbs _ _ _ _ ?s] =>
      destruct (IH s) as [IHdom IHinv]
  end.
  split.
  - etrans; [|exact IHdom]. rewrite Hdom. set_solver.
  - intros Hst. apply IHinv, Hinv, Hst.
Qed.

(** The DB systems of a prefix whose listings all succeed are stored and
    marked as seen, and [upsert_dbcs] goes on with the rest. *)
Lemma dbcs_list_upsert_dbcs_prefix cfg cl pre comp_name comp_id comp_path ts
    (st : dbcs_list.state) :
  Forall (λ x, succeeded (dbcs_list.db_names_of cl comp_id (dbcs_list.id x)))
    pre →
  ∃ st' : dbcs_list.state,
    (∀ rest, dbcs_list.upsert_dbcs cfg cl (pre ++ rest) comp_name comp_id
               comp_path ts st
             = dbcs_list.upsert_dbcs cfg cl rest comp_name comp_id comp_path
                 ts st')
    ∧ st'.2 = list_to_set (dbcs_list.id <$> pre) ∪ st.2
    ∧ dom st'.1 = list_to_set (dbcs_list.id <$> pre) ∪ dom st.1.
Proof.
  revert st. induction pre as [|d pre IH]; intros st Hpre.
  { exists st. split; [done|]. split; set_solver. }
  apply Forall_cons in Hpre as [Hd Hpre].
  destruct (dbcs_list.db_names_of cl comp_id (dbcs_list.id d))
    as [names|s|] eqn:Hnames; [|done..].
  destruct (IH (dbcs_list.UPSERT_SQL (dbcs_list.id d)
                  (dbcs_list.make_row cfg d names comp_name comp_id comp_path
                     ts) st.1,
                {[dbcs_list.id d]} ∪ st.2) Hpre)
    as (st' & Hrest & Hseen & Hdom).
  exists st'. split; [|split].
  - intros rest. cbn [app dbcs_list.upsert_dbcs]. rewrite Hnames. apply Hrest.
  - rewrite Hseen. cbn [snd]. set_solver.
  - rewrite Hdom. cbn [fst]. rewrite dbcs_list_upsert_dom. set_solver.
Qed.

(** X23: when the home or database listing of a DB system fails inside
    upsert_dbcs, the DB systems listed before it have been stored and
    marked as seen, and neither it nor the ones listed after it are marked;
    on HTTP 429 the run then goes on with the next compartment, on any other
    ServiceError it raises. *)
Theorem dbcs_list_upsert_interrupted (cfg : dbcs_list.config)
    (cl : dbcs_list.client) (paths : PyDict.t string) (ts : datetime)
    (comp : compartment) (st : dbcs_list.state)
    (pre post : list dbcs_list.db_system) (d : dbcs_list.db_system)
    (status : Z) :
  dbcs_list.list_dbcs cl (c_id comp) = Ok (pre ++ d :: post) →
  Forall (λ x, succeeded (dbcs_list.db_names_of cl (c_id comp) (dbcs_list.id x)))
    pre →
  dbcs_list.db_names_of cl (c_id comp) (dbcs_list.id d) = ServiceError status →
  ∃ st',
    dbcs_list.collect_compartment cfg cl paths ts comp st
    = (if decide (status = 429) then Returned st' else Raised st')
    ∧ st'.2 = list_to_set (dbcs_list.id <$> pre) ∪ st.2
    ∧ dom st'.1 = list_to_set (dbcs_list.id <$> pre) ∪ dom st.1.
Proof.
  intros Hlist Hpre Hd. unfold dbcs_list.collect_compartment. rewrite Hlist.
  destruct (dbcs_list_upsert_dbcs_prefix cfg cl pre (c_name comp) (c_id comp)
              (PyDict.get (c_id comp) paths) ts st Hpre)
    as (st' & Hrest & Hseen & Hdom).
  exists st'. rewrite (Hrest (d :: post)).
  cbn [dbcs_list.upsert_dbcs]. rewrite Hd.
  split; [|done]. by destruct pre.
Qed.

Lemma dbcs_list_upsert_interrupted_witness :
  ∃ st', dbcs_list.collect_compartment Scenario.dbcs_cfg
           Scenario.dbcs_client_throttled [] 2000 Scenario.team_a
           (Scenario.dbcs_list_table, ∅) = Returned st'
         ∧ st'.2 = {["d1"]}.
Proof.
  destruct (dbcs_list_upsert_interrupted Scenario.dbcs_cfg
              Scenario.dbcs_client_throttled [] 2000 Scenario.team_a
              (Scenario.dbcs_list_table, ∅) [Scenario.db_system "d1"] []
              (Scenario.db_system "d2") 429)
    as (st' & Hturn & Hseen & _).
  - reflexivity.
  - constructor; [exact I | constructor].
  - reflexivity.
  - exists st'. split; [exact Hturn|]. rewrite Hseen.
    apply (bool_decide_unpack _). vm_compute. reflexivity.
Defined.

(** What the loop of a run keeps true. *)
Lemma dbcs_list_collect_inv cfg cl paths ts comps (st : dbcs_list.state) :
  let st' := final_state
               (for_each (dbcs_list.collect_compartment cfg cl paths ts)
                  comps st) in
  dom st.1 ⊆ dom st'.1
  ∧ ((∀ k, k ∈ st.2 → ∃ r, st.1 !! k = Some r ∧ dbcs_row_written ts r) →
     ∀ k, k ∈ st'.2 → ∃ r, st'.1 !! k = Some r ∧ dbcs_row_written ts r).
Proof.
  cbn zeta.
  apply (for_each_final_inv
           (λ s : dbcs_list.state,
              dom st.1 ⊆ dom s.1
              ∧ ((∀ k, k ∈ st.2 →
                       ∃ r, st.1 !! k = Some r ∧ dbcs_row_written ts r) →
                 ∀ k, k ∈ s.2 →
                      ∃ r, s.1 !! k = Some r ∧ dbcs_row_written ts r)));
    [|done].
  intros comp s _ [Hdom Hinv]. unfold dbcs_list.collect_compartment.
  destruct (dbcs_list.list_dbcs cl (c_id comp)) as [[|d dbs]|status|];
    [done| |by case_decide|done].
  destruct (dbcs_list_upsert_dbcs_inv cfg cl (d :: dbs) (c_name comp)
              (c_id comp) (PyDict.get (c_id comp) paths) ts s)
    as [Hdom' Hinv'].
  destruct (dbcs_list.upsert_dbcs _ _ _ _ _ _ _ _) as [s' [[]|status|]];
    cbn [fst snd final_state] in *.
  - split; [by etrans | auto].
  - case_decide; cbn [final_state]; (split; [by etrans | auto]).
  - split; [by etrans | auto].
Qed.

Lemma dbcs_list_sweep_lookup cfg seen (tbl : gmap string dbcs_list.row) k :
  dbcs_list.sweep cfg seen tbl !! k
  = match tbl !! k with
    | Some r => if decide (dbcs_list.in_scope cfg r ∧ k ∉ seen) then None
                else Some r
    | None => None
    end.
Proof.
  unfold dbcs_list.sweep. case_decide as Hseen.
  - subst seen. rewrite map_lookup_filter. destruct (tbl !! k) as [r|]; [|done].
    simpl. case_guard; case_decide; set_solver.
  - rewrite map_lookup_filter. destruct (tbl !! k) as [r|]; [|done].
    simpl. case_guard; case_decide; naive_solver.
Qed.

(** X24: after a completed run of dbcs_list.py every row of the run's
    (tenancy, region) carries the run's timestamp, and its db_home_count and
    db_name_list were computed in this run from one list of non-empty
    database names: the count is the length of that list and the name list
    is NULL exactly when the count is 0. *)
Theorem dbcs_list_scope_rows_fresh (cfg : dbcs_list.config)
    (cl : dbcs_list.client) (ts : datetime) (resp : list compartment)
    (tbl tbl' : gmap string dbcs_list.row) (k : string) (r : dbcs_list.row) :
  dbcs_list.main cfg cl ts resp tbl = Returned tbl' →
  tbl' !! k = Some r → dbcs_list.in_scope cfg r →
  dbcs_list.last_refreshed_utc r = ts
  ∧ 0 ≤ dbcs_list.db_home_count r
  ∧ (dbcs_list.db_name_list r = None ↔ dbcs_list.db_home_count r = 0).
Proof.
  intros Hmain Hr Hscope. unfold dbcs_list.main in Hmain.
  destruct (dbcs_list_collect_inv cfg cl
              (dbcs_list.build_compartment_paths cfg
                 (dbcs_list.load_compartments_with_parents resp)
                 default_separator) ts
              (dbcs_list.active_compartments cfg
                 (dbcs_list.load_compartments_with_parents resp)) (tbl, ∅))
    as [_ Hinv].
  destruct (for_each _ _ _) as [[t seen]|[t seen]]; [|done].
  injection Hmain as <-. cbn [final_state fst snd] in Hinv.
  rewrite dbcs_list_sweep_lookup in Hr.
  destruct (t !! k) as [r'|] eqn:Ht; [|done].
  case_decide as Hdel; [done|]. injection Hr as ->.
  assert (Hk : k ∈ seen).
  { destruct (decide (k ∈ seen)); [done | tauto]. }
  destruct (Hinv (λ k Hk, False_rect _ (not_elem_of_empty (C:=gset string) k Hk))
              k Hk)
    as (r' & Hr' & Hts & names & Hnames & Hcount & Hlist).
  assert (r' = r) as -> by congruence.
  split; [done|]. split; [lia|]. rewrite Hcount, Hlist.
  destruct names; [done|]. split; [done|]. cbn [length]. lia.
Qed.

Lemma dbcs_list_scope_rows_fresh_witness :
  ∃ r, final_state
         (dbcs_list.main Scenario.dbcs_cfg Scenario.dbcs_client_throttled 2000
            Scenario.compartments Scenario.dbcs_list_table) !! "d1" = Some r
       ∧ dbcs_list.last_refreshed_utc r = 2000.
Proof.
  eexists. split; [vm_compute; reflexivity|].
  apply (dbcs_list_scope_rows_fresh Scenario.dbcs_cfg
           Scenario.dbcs_client_throttled 2000 Scenario.compartments
           Scenario.dbcs_list_table
           (final_state
              (dbcs_list.main Scenario.dbcs_cfg Scenario.dbcs_client_throttled
                 2000 Scenario.compartments Scenario.dbcs_list_table)) "d1").
  - vm_compute. reflexivity.
  - vm_compute. reflexivity.
  - split; reflexivity.
Defined.

(** X25: when a run of dbcs_list.py raises, on a listing error other than
    HTTP 429, it has deleted no row: the clean-up is not reached. *)
Theorem dbcs_list_abort_keeps_rows (cfg : dbcs_list.config)
    (cl : dbcs_list.client) (ts : datetime) (resp : list compartment)
    (tbl tbl' : gmap string dbcs_list.row) :
  dbcs_list.main cfg cl ts resp tbl = Raised tbl' → dom tbl ⊆ dom tbl'.
Proof.
  intros Hmain. unfold dbcs_list.main in Hmain.
  destruct (dbcs_list_collect_inv cfg cl
              (dbcs_list.build_compartment_paths cfg
                 (dbcs_list.load_compartments_with_parents resp)
                 default_separator) ts
              (dbcs_list.active_compartments cfg
                 (dbcs_list.load_compartments_with_parents resp)) (tbl, ∅))
    as [Hdom _].
  destruct (for_each _ _ _) as [[t seen]|[t seen]]; [done|].
  by injection Hmain as <-.
Qed.

Lemma dbcs_list_abort_keeps_rows_witness :
  dom Scenario.dbcs_list_table
  ⊆ dom (final_state
           (dbcs_list.main Scenario.dbcs_cfg Scenario.dbcs_client_failing 2000
              Scenario.compartments Scenario.dbcs_list_table)).
Proof.
  apply (dbcs_list_abort_keeps_rows Scenario.dbcs_cfg
           Scenario.dbcs_client_failing 2000 Scenario.compartments
           Scenario.dbcs_list_table).
  vm_compute. reflexivity.
Defined.

(** ** instance_list.py: rows of another tenancy or region *)

(** X26: a row of oci_instance_inventory that belongs to another tenancy
    or region is never deleted by a run of instance_list.py, and it keeps
    its tenancy, region and compartment id; it is left exactly as it was
    when no listing of the run returns its id.  When a listing does return
    its id the other columns are overwritten in place, so the instance gets
    no row in the run's own scope. *)
Theorem instance_list_foreign_rows (cfg : instance_list.config)
    (ts : datetime) (tname : string) (resp : list compartment)
    (api : string → operation (list instance_list.instance))
    (tbl : gmap string instance_list.row) (k : string)
    (r : instance_list.row) :
  tbl !! k = Some r → ¬ instance_list.in_scope cfg r →
  ∃ r', final_state (instance_list.main cfg ts tname resp api tbl) !! k
        = Some r'
        ∧ instance_kept r' = instance_kept r
        ∧ ¬ instance_list.in_scope cfg r'
        ∧ (k ∉ instance_listed_ids api (instance_visited cfg tname resp) →
           r' = r)
        ∧ (k ∈ instance_listed_ids api (instance_visited cfg tname resp) →
           instance_list.last_refreshed_utc r' = ts).
Proof.
  intros Hr Hscope.
  destruct (instance_main_lookup cfg ts tname resp api tbl)
    as (tbl' & -> & Hlook).
  cbn [final_state]. rewrite Hlook, Hr.
  destruct (instance_cell_Some_kept cfg (instance_paths cfg tname resp) ts k
              (instance_listing api (instance_visited cfg tname resp)) r)
    as (r' & Hcell & Hkept).
  rewrite Hcell.
  assert (Hscope' : ¬ instance_list.in_scope cfg r').
  { intros [Ht Hreg]. apply Hscope. unfold instance_kept in Hkept.
    injection Hkept as Ht' Hreg' _. split; congruence. }
  rewrite decide_False by tauto. exists r'.
  split; [done|]. split; [done|]. split; [done|]. split.
  - intros Hk. rewrite instance_cell_unlisted in Hcell by exact Hk.
    congruence.
  - intros Hk.
    destruct (instance_cell_listed_row cfg (instance_paths cfg tname resp) ts
                k (instance_listing api (instance_visited cfg tname resp))
                (Some r) Hk) as (p & o & _ & _ & Hcell').
    rewrite Hcell in Hcell'. injection Hcell' as ->.
    unfold instance_new_row, instance_list.make_row.
    destruct (instance_list.get_vnic_and_ips p.2) as [[v priv] pub].
    by destruct o.
Qed.

Lemma instance_list_foreign_rows_witness :
  ∃ r', final_state
          (instance_list.main Scenario.inst_cfg 2000 "acme"
             Scenario.compartments Scenario.inst_api_2
             Scenario.inst_table_phoenix) !! "a" = Some r'
        ∧ instance_list.region r' = "us-phoenix-1"
        ∧ instance_list.last_refreshed_utc r' = 2000.
Proof.
  destruct (instance_list_foreign_rows Scenario.inst_cfg 2000 "acme"
              Scenario.compartments Scenario.inst_api_2
              Scenario.inst_table_phoenix "a"
              (instance_list.make_row Scenario.inst_cfg_phoenix
                 (Scenario.inst "a" "c9") "c9" "other" None 1000))
    as (r' & Hr' & Hkept & _ & _ & Hts).
  - vm_compute. reflexivity.
  - intros [_ Hreg]. discriminate Hreg.
  - exists r'. split; [exact Hr'|]. split.
    + unfold instance_kept in Hkept. by injection Hkept as _ -> _.
    + apply Hts. apply (bool_decide_unpack _). vm_compute. reflexivity.
Defined.

(** ** filesystem_list.py: the columns the snapshot upsert leaves alone *)

(** A property of the snapshot table that every snapshot upsert of the
    script keeps is kept by the collection loop, however it ends. *)
Lemma filesystem_snapshots_inv
    (T : gmap string filesystem_list.snap_row → Prop)
    cfg cl ts compartments ads comps st :
  (∀ key new tbl,
     filesystem_list.sn_deleted_at new = None →
     T tbl → T (filesystem_list.UPSERT_SNAP_SQL key new tbl)) →
  T (filesystem_list.snapshots st) →
  T (filesystem_list.snapshots
       (final_state
          (for_each
             (filesystem_list.collect_compartment cfg cl ts compartments ads)
             comps st))).
Proof.
  intros Hupsert.
  apply (filesystem_collect_inv (λ s, T (filesystem_list.snapshots s))).
  - intros comp path fs snaps s Hs. unfold filesystem_list.store_file_system.
    cbn zeta.
    apply (fold_left_inv (λ s, T (filesystem_list.snapshots s))); [|done].
    intros s' sn _ Hs'. cbn [filesystem_list.store_snapshot
                             filesystem_list.snapshots].
    by apply Hupsert.
  - intros comp path mt s Hs. unfold filesystem_list.collect_mount_target.
    cbn zeta.
    destruct (filesystem_list.mt_export_set_id mt) as [es|]; [|done].
    case_decide; [done|].
    destruct (filesystem_list.list_exports cl (c_id comp) es 0%nat)
      as [ex_list|status|]; cbn [final_state]; [| by case_decide | done].
    by apply (fold_left_inv (λ s, T (filesystem_list.snapshots s))).
Qed.

(** X27: a snapshot row that is in oci_fss_snapshots before a run of
    filesystem_list.py and still there after it has kept its fs_id and its
    deleted_at, even when the run saw the snapshot under another file
    system; and since no statement of the script writes deleted_at, a table
    in which it is NULL everywhere stays so. *)
Theorem filesystem_list_snapshot_columns_kept (cfg : filesystem_list.config)
    (cl : filesystem_list.client) (ts : datetime) (resp : list compartment)
    (ads : list string) (db : filesystem_list.state) :
  let after :=
    filesystem_list.snapshots
      (final_state (filesystem_list.main cfg cl ts resp ads db)) in
  (∀ k r r', filesystem_list.snapshots db !! k = Some r →
             after !! k = Some r' →
             filesystem_list.sn_fs_id r' = filesystem_list.sn_fs_id r
             ∧ filesystem_list.sn_deleted_at r'
               = filesystem_list.sn_deleted_at r)
  ∧ ((∀ k r, filesystem_list.snapshots db !! k = Some r →
             filesystem_list.sn_deleted_at r = None) →
     ∀ k r', after !! k = Some r' →
             filesystem_list.sn_deleted_at r' = None).
Proof.
  cbn zeta. unfold filesystem_list.main.
  pose proof (filesystem_snapshots_inv
                (λ tbl, ∀ k r, filesystem_list.snapshots db !! k = Some r →
                   ∃ r', tbl !! k = Some r'
                         ∧ filesystem_list.sn_fs_id r'
                           = filesystem_list.sn_fs_id r
                         ∧ filesystem_list.sn_deleted_at r'
                           = filesystem_list.sn_deleted_at r)
                cfg cl ts (filesystem_list.list_all_compartments resp) ads
                (filesystem_list.list_all_compartments resp)
                (filesystem_list.start db)) as Hkept.
  pose proof (filesystem_snapshots_inv
                (λ tbl, ∀ k r, tbl !! k = Some r →
                               filesystem_list.sn_deleted_at r = None)
                cfg cl ts (filesystem_list.list_all_compartments resp) ads
                (filesystem_list.list_all_compartments resp)
                (filesystem_list.start db)) as Hnull.
  cbn beta in Hkept, Hnull.
  assert (Hkept' := Hkept ltac:(
    intros key new tbl _ Htbl k r Hr;
    destruct (Htbl k r Hr) as (r1 & Hr1 & Hfs & Hdel);
    rewrite filesystem_upsert_snap_lookup;
    case_decide as Hk; [subst key; rewrite Hr1; by eexists | by exists r1])
    ltac:(intros k r Hr; by exists r)).
  clear Hkept.
  split.
  - intros k r r' Hr.
    destruct (for_each _ _ _) as [st|st]; cbn [final_state] in *.
    + cbn [filesystem_list.sweep filesystem_list.snapshots].
      rewrite filesystem_sweep_table_lookup. case_decide; [|done].
      intros Hr'. destruct (Hkept' k r Hr) as (r1 & Hr1 & Hrest).
      by assert (r1 = r') as -> by congruence.
    + intros Hr'. destruct (Hkept' k r Hr) as (r1 & Hr1 & Hrest).
      by assert (r1 = r') as -> by congruence.
  - intros Hdb.
    assert (Hnull' := Hnull ltac:(
      intros key new tbl Hnew Htbl k r;
      rewrite filesystem_upsert_snap_lookup;
      case_decide as Hk; [|by apply Htbl];
      intros [= <-]; cbn [filesystem_list.sn_deleted_at];
      destruct (tbl !! key) as [old|] eqn:Hold; cbn [from_option];
      [by apply (Htbl key) | done]) Hdb).
    intros k r'.
    destruct (for_each _ _ _) as [st|st]; cbn [final_state] in *.
    + cbn [filesystem_list.sweep filesystem_list.snapshots].
      rewrite filesystem_sweep_table_lookup. case_decide; [|done].
      apply Hnull'.
    + apply Hnull'.
Qed.

Lemma filesystem_list_snapshot_columns_kept_witness :
  ∃ r', filesystem_list.snapshots
          (final_state
             (filesystem_list.main Scenario.fs_cfg Scenario.fs_client_moved
                2000 Scenario.compartments ["AD-1"] Scenario.fs_db_1))
        !! "s1" = Some r'
        ∧ filesystem_list.sn_fs_id r' = "fs1".
Proof.
  eexists. split; [vm_compute; reflexivity|].
  apply (proj1 (filesystem_list_snapshot_columns_kept Scenario.fs_cfg
                  Scenario.fs_client_moved 2000 Scenario.compartments
                  ["AD-1"] Scenario.fs_db_1) "s1"
           {| filesystem_list.sn_fs_id := "fs1";
              filesystem_list.sn_name := "s1";
              filesystem_list.sn_lifecycle_state := "ACTIVE";
              filesystem_list.sn_time_created := 10;
              filesystem_list.sn_time_ended := None;
              filesystem_list.sn_deleted_at := None;
              filesystem_list.sn_last_seen_at := 1000 |}).
  - vm_compute. reflexivity.
  - vm_compute. reflexivity.
Defined.

(** ** lb_list.py: the run as a whole *)









(** ** insert_usage.py: the sums per service *)

Section insert_usage_facts.

Context {A : Type} (zero : A) (add : A → A → A) (strip : string → string).

Implicit Types (d : list (insert_usage.date * string * A))
  (k : insert_usage.date * string).

Lemma agg_get_set d k k' (v : A) :
  insert_usage.agg_get k (insert_usage.agg_set k' v d)
  = if decide (k = k') then Some v else insert_usage.agg_get k d.
Proof.
  induction d as [|[k0 v0] d IH]; simpl.
  - by case_decide.
  - destruct (decide (k' = k0)) as [->|Hne]; simpl.
    + by case_decide.
    + rewrite IH. repeat case_decide; congruence.
Qed.

Lemma agg_set_keys d k (v : A) x :
  x ∈ (insert_usage.agg_set k v d).*1 ↔ x = k ∨ x ∈ d.*1.
Proof.
  induction d as [|[k0 v0] d IH]; simpl.
  - rewrite list_elem_of_singleton. set_solver.
  - case_decide as Hk; simpl; rewrite !elem_of_cons; [subst; tauto|].
    rewrite IH. tauto.
Qed.

Lemma agg_set_NoDup d k (v : A) :
  NoDup d.*1 → NoDup (insert_usage.agg_set k v d).*1.
Proof.
  induction d as [|[k0 v0] d IH]; simpl; intros Hnd.
  - apply NoDup_singleton.
  - apply NoDup_cons in Hnd as [Hk0 Hnd]. case_decide as Hk; simpl.
    + subst. by apply NoDup_cons.
    + apply NoDup_cons. split; [|by apply IH].
      rewrite agg_set_keys. intros [->|?]; done.
Qed.

Lemma agg_get_None d k : insert_usage.agg_get k d = None ↔ k ∉ d.*1.
Proof.
  induction d as [|[k0 v0] d IH]; simpl.
  - split; [intros _ ?%elem_of_nil | ]; done.
  - rewrite not_elem_of_cons. case_decide; naive_solver.
Qed.

(** The loop that sums the duplicates, from any dictionary. *)
Lemma aggregate_fold raw d :
  let out :=
    fold_left
      (λ d r, insert_usage.agg_set r.1
                (add (default zero (insert_usage.agg_get r.1 d)) r.2) d)
      raw d in
  (NoDup d.*1 → NoDup out.*1)
  ∧ (∀ k, k ∈ out.*1 ↔ k ∈ raw.*1 ∨ k ∈ d.*1)
  ∧ ∀ k, insert_usage.agg_get k out
         = match (filter (λ r, r.1 = k) raw).*2 with
           | [] => insert_usage.agg_get k d
           | l => Some (fold_left add l
                          (default zero (insert_usage.agg_get k d)))
           end.
Proof.
  revert d. induction raw as [|r raw IH]; intros d; cbn zeta.
  { cbn [fold_left]. split; [done|]. split; [|done]. set_solver. }
  cbn [fold_left].
  destruct (IH (insert_usage.agg_set r.1
                  (add (default zero (insert_usage.agg_get r.1 d)) r.2) d))
    as (Hnd & Hkeys & Hget).
  split; [|split].
  - intros Hd. by apply Hnd, agg_set_NoDup.
  - intros k. rewrite Hkeys, agg_set_keys, fmap_cons, elem_of_cons. tauto.
  - intros k. rewrite Hget, agg_get_set, filter_cons.
    destruct (decide (r.1 = k)) as [<-|Hne].
    + rewrite decide_True by done. cbn [fmap list_fmap fold_left default].
      by destruct ((filter _ raw).*2).
    + by rewrite decide_False by done.
Qed.

(** In a dictionary the items of a key are the one it is bound to. *)
Lemma agg_filter_key d k :
  NoDup d.*1 →
  filter (λ r, r.1 = k) d
  = match insert_usage.agg_get k d with
    | Some v => [(k, v)]
    | None => []
    end.
Proof.
  induction d as [|[k0 v0] d IH]; intros Hnd; [done|].
  cbn [fmap list_fmap fst] in Hnd. apply NoDup_cons in Hnd as [Hk0 Hnd].
  rewrite filter_cons. cbn [fst insert_usage.agg_get].
  destruct (decide (k0 = k)) as [->|Hne].
  - rewrite decide_True by done. rewrite (IH Hnd).
    apply agg_get_None in Hk0. by rewrite Hk0.
  - rewrite decide_False by congruence. by apply IH.
Qed.

(** The amounts that the response reports under a key. *)
Lemma raw_items_filter (target day : insert_usage.date) (s : string)
    (items : list (@insert_usage.usage_item A)) :
  (filter (λ r, r.1 = (day, s))
     (insert_usage.raw_items zero strip target items)).*2
  = if decide (day = target)
    then (λ item, default zero (insert_usage.computed_amount item))
           <$> filter
                 (λ item, strip (py_or (insert_usage.service item) "Unknown")
                          = s) items
    else [].
Proof.
  unfold insert_usage.raw_items.
  destruct (decide (day = target)) as [->|Hne].
  - induction items as [|item items IH]; [done|].
    rewrite fmap_cons, !filter_cons. cbn [fst].
    destruct (decide (strip (py_or (insert_usage.service item) "Unknown")
                      = s)) as [Hs|Hs].
    + rewrite decide_True by (by rewrite Hs).
      rewrite !fmap_cons. cbn [snd]. by rewrite IH.
    + rewrite decide_False by congruence. exact IH.
  - induction items as [|item items IH]; [done|].
    rewrite fmap_cons, filter_cons. cbn [fst].
    rewrite decide_False by congruence. exact IH.
Qed.

End insert_usage_facts.

(** X29: the list parsed that insert_usage.py builds from the response,
    and then writes row by row, holds entries of the target date only and
    no two entries with the same (usage_date, service) as Python compares
    them; for every string it holds exactly one entry whose service is
    that string when the response has an item whose stripped service name
    ("Unknown" for a missing or empty name) is that string, and none
    otherwise; the amount of the entry is the sum, in the order of the
    response and starting from 0, of the amounts reported under that name,
    a missing amount counting as 0. *)
Theorem insert_usage_parsed_sums {A : Type} (zero : A) (add : A → A → A)
    (strip : string → string) (target : insert_usage.date)
    (items : list (@insert_usage.usage_item A)) :
  let parsed := insert_usage.parsed zero add strip target items in
  NoDup parsed.*1
  ∧ Forall (λ r, r.1.1 = target) parsed
  ∧ ∀ s, filter (λ r, r.1.2 = s) parsed
         = match filter
                   (λ item, strip (py_or (insert_usage.service item)
                                     "Unknown") = s) items with
           | [] => []
           | l => [(target, s,
                    fold_left add
                      ((λ item,
                          default zero (insert_usage.computed_amount item))
                         <$> l) zero)]
           end.
Proof.
  cbn zeta. unfold insert_usage.parsed, insert_usage.aggregate.
  destruct (aggregate_fold zero add strip
              (insert_usage.raw_items zero strip target items) [])
    as (Hnd & Hkeys & Hget).
  cbn zeta in Hnd, Hkeys, Hget.
  set (out := fold_left _ _ _) in *.
  pose proof (Hnd NoDup_nil_2) as Hnd'.
  assert (Hdate : Forall (λ r, r.1.1 = target) out).
  { apply Forall_forall. intros r Hr.
    assert (r.1 ∈ out.*1) as Hk by (by apply list_elem_of_fmap_2).
    apply Hkeys in Hk as [Hk|Hk]; [|by apply elem_of_nil in Hk].
    unfold insert_usage.raw_items in Hk. rewrite <-list_fmap_compose in Hk.
    apply list_elem_of_fmap in Hk as (item & -> & _). done. }
  split; [done|]. split; [done|]. intros s.
  assert (filter (λ r, r.1.2 = s) out = filter (λ r, r.1 = (target, s)) out)
    as ->.
  { clear -Hdate. induction Hdate as [|[[day s'] v] l Hday _ IH]; [done|].
    cbn [fst snd] in Hday. subst day. rewrite !filter_cons. cbn [fst snd].
    destruct (decide (s' = s)) as [->|Hne].
    - rewrite decide_True by done. by rewrite IH.
    - rewrite decide_False by congruence. exact IH. }
  rewrite (agg_filter_key add _ _ Hnd'), Hget.
  rewrite (raw_items_filter zero strip), decide_True by done.
  cbn [insert_usage.agg_get default].
  by destruct (filter _ items) as [|i l].
Qed.

(** On the scenario Compute sums to 15 and the item without a service name
    is filed under Unknown. *)
Example insert_usage_scenario :
  insert_usage.parsed 0 Z.add (λ s, s) 19000 Scenario.usage_items
  = [(19000, "Compute", 15); (19000, "Unknown", 2)].
Proof. reflexivity. Qed.
